(** * AI Sentinel: retrieval, answer synthesis and the knowledge store

    A shallow embedding of [src/ai_engine.py] (class [AISentinel]) and
    [src/knowledge_manager.py] (class [KnowledgeManager]), and the
    properties of the specification checked against it.

    Conventions of the embedding:
    - a Python [dict] with string keys is a [gmap string value]; a Python
      [list] is a [list]; [None], booleans, integers, floats and strings
      are constructors of [value];
    - Python's numbers are an abstract carrier [num] with the operations
      the source uses (class [Number]); an operation that can raise
      [OverflowError] is partial. A law of arithmetic that a proof needs is
      a hypothesis of that proof, and is stated for the numbers at hand, not
      for all: infinities and NaN break most laws. [float_number] is the
      instance of IEEE doubles;
    - a method of an object is a function in the state-and-exception monad
      [M S] over the object's fields: it returns [Return v] or [Raise e]
      together with the fields after the call (a Python exception does not
      roll mutations back);
    - the external provider is an oracle indexed by the number of calls
      made so far, so that it may fail at one call and succeed at the next;
    - strings are sequences of 8-bit characters (code points below 256). *)

From Stdlib Require Import ZArith Ascii String.
From Stdlib Require QArith_base Floats.
From stdpp Require Import gmap strings list sorting.

#[local] Set Warnings "-register-all,-inexact-float".
#[local] Open Scope Z_scope.

(** ** Python values *)

(** The numbers and their arithmetic. An operation returns [None] where
    Python raises [OverflowError]: a power whose result is out of range
    ([1e200 ** 2]), an integer too large for the float it is combined with
    or converted to ([(10 ** 400) ** 0.5]). A sum or product of floats that
    overflows does not raise, it is an infinity. *)
Class Number (num : Type) := {
  nzero : num;                         (* 0 and 0.0 *)
  of_int : Z → num;                    (* an int among the numbers *)
  nadd : num → num → option num;       (* x + y *)
  nmul : num → num → option num;       (* x * y *)
  ndiv : num → num → option num;       (* x / y, for y != 0 *)
  nsquare : num → option num;          (* x ** 2 *)
  nroot : num → option num;            (* x ** 0.5 *)
  neqb : num → num → bool;             (* x == y *)
  nltb : num → num → bool              (* x < y *)
}.

Section Values.
Context {num : Type}.

Inductive value :=
| VNone
| VBool (b : bool)
| VInt (z : Z)
| VFloat (x : num)
| VStr (s : string)
| VList (l : list value)
| VDict (d : gmap string value).

Inductive exn :=
| KeyError (k : string)
| TypeError
| ZeroDivisionError
| OverflowError
| JSONDecodeError
| ProviderError.

Inductive outcome (A : Type) :=
| Return (a : A)
| Raise (e : exn).

End Values.

Arguments value : clear implicits.
Arguments Return {A} a.
Arguments Raise {A} e.

Abbreviation dict num := (gmap string (value num)).

(** ** The state-and-exception monad *)

Definition M (S A : Type) : Type := S → outcome A * S.

#[global] Instance M_ret {S} : MRet (M S) := λ A a s, (Return a, s).

#[global] Instance M_bind {S} : MBind (M S) := λ A B f m s,
  match m s with
  | (Return a, s') => f a s'
  | (Raise e, s') => (Raise e, s')
  end.

Definition raise {S A} (e : exn) : M S A := λ s, (Raise e, s).
Definition get_state {S} : M S S := λ s, (Return s, s).
Definition modify {S} (f : S → S) : M S unit := λ s, (Return tt, f s).

(** [try: body except Exception: handler] *)
Definition try_except {S A} (body : M S A) (handler : exn → M S A) : M S A :=
  λ s, match body s with
       | (Return a, s') => (Return a, s')
       | (Raise e, s') => handler e s'
       end.

(** The value a run returned, if it did not raise. *)
Definition returned {A S} (r : outcome A * S) : option A :=
  match r.1 with
  | Return a => Some a
  | Raise _ => None
  end.

(** [d[k]] on an [outcome] and in the monad. *)
Definition getitem {num} (d : dict num) (k : string) : outcome (value num) :=
  match d !! k with
  | Some v => Return v
  | None => Raise (KeyError k)
  end.

Definition lift {S A} (o : outcome A) : M S A := λ s, (o, s).

(** A list comprehension whose element expression may raise. *)
Fixpoint mapM {S A B} (f : A → M S B) (l : list A) : M S (list B) :=
  match l with
  | [] => mret []
  | x :: l' => y ← f x; ys ← mapM f l'; mret (y :: ys)
  end.

(** A [for] loop whose body may raise. *)
Fixpoint for_each {S A} (f : A → M S unit) (l : list A) : M S unit :=
  match l with
  | [] => mret tt
  | x :: l' => f x;; for_each f l'
  end.

(** ** Python built-ins used by the source *)

Section Builtins.
Context `{Number num}.

(** Truth value of an object, as tested by [if x] and [not x]. *)
Definition truthy (v : value num) : bool :=
  match v with
  | VNone => false
  | VBool b => b
  | VInt z => negb (z =? 0)
  | VFloat x => negb (neqb x nzero)
  | VStr s => negb (String.eqb s EmptyString)
  | VList l => match l with [] => false | _ => true end
  | VDict d => negb (bool_decide (d = ∅))
  end.

(** [d.get(k)]: [None] when the key is absent. *)
Definition dict_get (d : dict num) (k : string) : value num :=
  default VNone (d !! k).

(** [d.get(k, dflt)] *)
Definition dict_get_default (d : dict num) (k : string) (dflt : value num) : value num :=
  default dflt (d !! k).

(** A number as an operand of float arithmetic; anything else raises
    [TypeError] there. *)
Definition as_number (v : value num) : outcome num :=
  match v with
  | VFloat x => Return x
  | VInt z => Return (of_int z)
  | VBool b => Return (of_int (if b then 1 else 0))
  | _ => Raise TypeError
  end.

Fixpoint as_numbers (l : list (value num)) : outcome (list num) :=
  match l with
  | [] => Return []
  | v :: l' =>
      match as_number v with
      | Return x =>
          match as_numbers l' with
          | Return xs => Return (x :: xs)
          | Raise e => Raise e
          end
      | Raise e => Raise e
      end
  end.

(** A stored embedding as the vector the similarity arithmetic runs on: a
    list of numbers. The value reaches this point only when it is truthy;
    a truthy value of another shape makes the arithmetic raise [TypeError]. *)
Definition as_vector (v : value num) : outcome (list num) :=
  match v with
  | VList l => as_numbers l
  | _ => Raise TypeError
  end.

Definition of_vector (v : list num) : value num := VList (VFloat <$> v).

(** [x == n] for an integer [n]. *)
Definition eq_int (v : value num) (n : Z) : bool :=
  match v with
  | VInt z => z =? n
  | VBool b => (if b then 1 else 0) =? n
  | VFloat x => neqb x (of_int n)
  | _ => false
  end.

(** The result of an arithmetic operation. *)
Definition arith (o : option num) : outcome num :=
  match o with
  | Some x => Return x
  | None => Raise OverflowError
  end.

(** [x / y]: division by zero raises. *)
Definition true_div (x y : num) : outcome num :=
  if neqb y nzero then Raise ZeroDivisionError else arith (ndiv x y).

(** [sum(f(x) for x in l)]: left to right, from 0; a term is computed
    when its turn comes. *)
Fixpoint sum_from {A} (acc : num) (f : A → outcome num) (l : list A) : outcome num :=
  match l with
  | [] => Return acc
  | x :: l' =>
      match f x with
      | Return term =>
          match arith (nadd acc term) with
          | Return acc' => sum_from acc' f l'
          | Raise e => Raise e
          end
      | Raise e => Raise e
      end
  end.

Definition sum {A} (f : A → outcome num) (l : list A) : outcome num :=
  sum_from nzero f l.

(** [zip(a, b)] stops at the shorter list. *)
Fixpoint zip_lists {A B} (a : list A) (b : list B) : list (A * B) :=
  match a, b with
  | x :: a', y :: b' => (x, y) :: zip_lists a' b'
  | _, _ => []
  end.

(** [l[:k]]: a negative [k] counts from the end. *)
Definition slice_to {A} (k : Z) (l : list A) : list A :=
  if 0 <=? k then take (Z.to_nat k) l
  else take (length l - Z.to_nat (- k))%nat l.

(** The stable descending sort: the insertion sort that lets an element
    pass exactly the elements whose key is greater than its own. It is the
    result of [l.sort(key=key, reverse=True)] and of
    [sorted(l, key=key, reverse=True)] whenever [<] is a strict weak order
    on the keys of [l], the case for which the library promises a sorted
    and stable result; integers are such keys, and so are floats as long
    as none is NaN. *)
Fixpoint insert_desc {A K} (ltb : K → K → bool) (key : A → K) (x : A) (l : list A) : list A :=
  match l with
  | [] => [x]
  | y :: l' =>
      if ltb (key x) (key y) then y :: insert_desc ltb key x l'
      else x :: y :: l'
  end.

Definition sort_reverse {A K} (ltb : K → K → bool) (key : A → K) (l : list A) : list A :=
  foldr (insert_desc ltb key) [] l.

End Builtins.

(** ** [list.sort] on arbitrary keys

    What [l.sort(key=key, reverse=True)] does when nothing is known of
    [<], as CPython (up to 3.12) does it on a list of fewer than 64
    elements: the list is reversed, the run at its start is found (and
    reversed if it descends strictly), the other elements are inserted one
    by one at the slot a binary search gives, and the list is reversed
    again. On keys that [<] orders (a strict weak order) this is the stable
    descending sort [sort_reverse], as is the result of every version of
    the library on a list of any length; on other keys, NaN scores for
    one, the result depends on the comparisons made, and a longer list or
    another version of the library may order them otherwise. *)
Section ListSort.
Context {A K : Type} (ltb : K → K → bool) (key : A → K).

(** The number of elements after [prev] that continue an ascending run:
    up to the first that is smaller than the one before it. *)
Fixpoint run_ascending (prev : A) (l : list A) : nat :=
  match l with
  | [] => 0
  | x :: l' => if ltb (key x) (key prev) then 0 else Datatypes.S (run_ascending x l')
  end.

(** Likewise for a strictly descending run. *)
Fixpoint run_descending (prev : A) (l : list A) : nat :=
  match l with
  | [] => 0
  | x :: l' => if ltb (key x) (key prev) then Datatypes.S (run_descending x l') else 0
  end.

(** [count_run]: the length of the run at the start of [l], and whether
    it descends. *)
Definition count_run (l : list A) : nat * bool :=
  match l with
  | [] => (0%nat, false)
  | [x] => (1%nat, false)
  | x :: y :: l' =>
      if ltb (key y) (key x) then (2 + run_descending y l', true)%nat
      else (2 + run_ascending y l', false)%nat
  end.

(** The binary search of [binarysort] for the slot of [pivot] in
    [sorted], between [l] and [r]; the interval shrinks at every turn, and
    [fuel] bounds the turns. *)
Fixpoint bisect (fuel : nat) (pivot : A) (sorted : list A) (l r : nat) : nat :=
  match fuel with
  | O => l
  | Datatypes.S fuel' =>
      if (l <? r)%nat then
        let p := (l + (r - l) / 2)%nat in
        match sorted !! p with
        | Some x =>
            if ltb (key pivot) (key x) then bisect fuel' pivot sorted l p
            else bisect fuel' pivot sorted (Datatypes.S p) r
        | None => l
        end
      else l
  end.

Definition binary_insert (sorted : list A) (pivot : A) : list A :=
  let l := bisect (length sorted) pivot sorted 0 (length sorted) in
  take l sorted ++ pivot :: drop l sorted.

(** [binarysort]: [rest] is inserted, element by element, into [sorted]. *)
Definition binarysort (sorted rest : list A) : list A :=
  foldl binary_insert sorted rest.

(** The forward sort. *)
Definition list_sort (l : list A) : list A :=
  let (n, descending) := count_run l in
  let run := take n l in
  binarysort (if descending then reverse run else run) (drop n l).

(** [l.sort(key=key, reverse=True)] *)
Definition list_sort_reverse (l : list A) : list A :=
  reverse (list_sort (reverse l)).

End ListSort.

(** ** Python string methods *)

Definition chars (s : string) : list ascii := list_ascii_of_string s.
Definition str (l : list ascii) : string := string_of_list_ascii l.

Definition LF : ascii := ascii_of_nat 10.
Definition COMMA : ascii := ascii_of_nat 44.

(** [c.isspace()] on code points below 256. *)
Definition isspace (c : ascii) : bool :=
  let n := nat_of_ascii c in
  ((9 <=? n) && (n <=? 13) || (28 <=? n) && (n <=? 32) || (n =? 133) || (n =? 160))%nat.

(** [c.lower()] on code points below 256: the ASCII and the Latin-1
    capital letters. *)
Definition lower_char (c : ascii) : ascii :=
  let n := nat_of_ascii c in
  if ((65 <=? n) && (n <=? 90) || (192 <=? n) && (n <=? 222) && negb (n =? 215))%nat
  then ascii_of_nat (n + 32) else c.

Fixpoint drop_while {A} (p : A → bool) (l : list A) : list A :=
  match l with
  | [] => []
  | x :: l' => if p x then drop_while p l' else l
  end.

Definition strip_with (p : ascii → bool) (l : list ascii) : list ascii :=
  reverse (drop_while p (reverse (drop_while p l))).

(** [s.strip()] *)
Definition strip (s : string) : string := str (strip_with isspace (chars s)).

(** [s.strip(cs)] *)
Definition strip_chars (cs : string) (s : string) : string :=
  str (strip_with (λ c, bool_decide (c ∈ chars cs)) (chars s)).

(** [s.lower()] *)
Definition lower (s : string) : string := str (lower_char <$> chars s).

(** [s.startswith(p)] *)
Definition startswith (p s : string) : bool := String.prefix p s.

(** [s[n:]] *)
Definition slice_from (n : nat) (s : string) : string := str (drop n (chars s)).

(** [len(s)] *)
Definition len (s : string) : nat := String.length s.

(** [c in s] for a single character [c]. *)
Definition contains_char (c : ascii) (s : string) : bool :=
  bool_decide (c ∈ chars s).

(** [p in s]: [p] occurs as a substring of [s]. *)
Fixpoint is_infix (p s : list ascii) : bool :=
  bool_decide (take (length p) s = p) ||
  match s with
  | [] => false
  | _ :: s' => is_infix p s'
  end.

Definition contains (p s : string) : bool := is_infix (chars p) (chars s).

(** [s.split(c)] for a single-character separator: one more piece than
    there are separators, empty pieces included. *)
Fixpoint split_on (c : ascii) (l : list ascii) : list (list ascii) :=
  match l with
  | [] => [[]]
  | x :: l' =>
      if bool_decide (x = c) then [] :: split_on c l'
      else match split_on c l' with
           | [] => [[x]]
           | w :: ws => (x :: w) :: ws
           end
  end.

Definition split (c : ascii) (s : string) : list string := str <$> split_on c (chars s).

(** [s.split()]: the maximal runs of characters that are not whitespace. *)
Fixpoint words_of (cur : list ascii) (l : list ascii) : list (list ascii) :=
  match l with
  | [] => match cur with [] => [] | _ => [reverse cur] end
  | x :: l' =>
      if isspace x
      then match cur with [] => words_of [] l' | _ => reverse cur :: words_of [] l' end
      else words_of (x :: cur) l'
  end.

Definition split_whitespace (s : string) : list string := str <$> words_of [] (chars s).

(** [sep.join(l)] *)
Fixpoint join (sep : string) (l : list string) : string :=
  match l with
  | [] => EmptyString
  | [s] => s
  | s :: l' => s +:+ sep +:+ join sep l'
  end.

(** ** External collaborators *)

(** A chat-completion request: the keyword arguments of
    [openai.chat.completions.create]. *)
Record ChatRequest := {
  model : string;
  messages : list (string * string);     (* role, content *)
  temperature : QArith_base.Q;
  response_format_json : bool;
  max_tokens : option Z
}.

(** The provider. [embeddings_create n text] is the outcome of the call
    [openai.embeddings.create(input=text, ...)] followed by
    [response.data[0].embedding] when [n] provider calls were made before
    it; [chat_completions_create n req] is the outcome of the chat call
    followed by [response.choices[0].message.content]. [None] stands for
    any exception raised on the way (network, provider error, malformed
    response). *)
Class Provider (num : Type) := {
  embeddings_create : nat → value num → option (list num);
  chat_completions_create : nat → ChatRequest → option string
}.

(** Library functions of which only the interface matters here:
    [json.loads] ([None] is [JSONDecodeError]), the text [str(v)] an
    f-string inserts for a value that is not a string, and [re.findall] for
    the three patterns of [suggest_categories]. *)
Class PyLib (num : Type) := {
  json_loads : string → option (value num);
  repr : value num → string;
  findall_list_items : string → list string;
  findall_quoted : string → list string;
  findall_after_category : string → list string
}.

(** The text an f-string inserts for [v]. *)
Definition format_value `{PyLib num} (v : value num) : string :=
  match v with
  | VStr s => s
  | _ => repr v
  end.

Definition DQ : string := String (ascii_of_nat 34) EmptyString.
Definition NL : string := String LF EmptyString.

(** [[0.0] * 1536] *)
Definition zero_embedding `{Number num} : list num := replicate 1536%nat nzero.

(** ** [AISentinel] (src/ai_engine.py) *)

Module AISentinel.
Section AISentinel.
Context `{Number num, Provider num, PyLib num}.

Record t := {
  knowledge_base : list (dict num);
  embedding_cache : gmap string (list num);
  api_calls : nat                         (* provider calls made so far *)
}.

Definition set_knowledge_base (f : list (dict num) → list (dict num)) (s : t) : t :=
  {| knowledge_base := f (knowledge_base s);
     embedding_cache := embedding_cache s;
     api_calls := api_calls s |}.

Definition set_embedding_cache (f : gmap string (list num) → gmap string (list num)) (s : t) : t :=
  {| knowledge_base := knowledge_base s;
     embedding_cache := f (embedding_cache s);
     api_calls := api_calls s |}.

Definition tick (s : t) : t :=
  {| knowledge_base := knowledge_base s;
     embedding_cache := embedding_cache s;
     api_calls := S (api_calls s) |}.

(** The sample knowledge base written when the file is missing or invalid. *)
Definition sample_kb : list (dict num) := [
  {[ "id" := VInt 1;
     "title" := VStr "Resetting ERP Password";
     "content" := VStr "To reset your ERP password, navigate to the login page and click on 'Forgot Password'. Follow the instructions sent to your company email address. Passwords must be at least 8 characters long with a mix of uppercase, lowercase, numbers, and special characters.";
     "category" := VStr "Authentication";
     "tags" := VList [VStr "password"; VStr "login"; VStr "reset"; VStr "security"];
     "embedding" := VNone ]};
  {[ "id" := VInt 2;
     "title" := VStr "Generating Sales Reports";
     "content" := VStr "To generate a sales report, go to the Reports module in the Sales dashboard. Select the report type, date range, and any filters you wish to apply. Click 'Generate' and the report will be prepared for viewing or download in your preferred format (PDF, Excel, CSV).";
     "category" := VStr "Sales";
     "tags" := VList [VStr "reports"; VStr "sales"; VStr "export"; VStr "analytics"];
     "embedding" := VNone ]};
  {[ "id" := VInt 3;
     "title" := VStr "Submitting Time Off Requests";
     "content" := VStr "To submit a time off request, navigate to the HR module and select 'Time Off'. Click 'New Request', select the type of leave, enter the date range, and provide any necessary details. Submit for approval. Your manager will be notified and will approve or reject your request.";
     "category" := VStr "HR";
     "tags" := VList [VStr "time off"; VStr "leave"; VStr "vacation"; VStr "HR"; VStr "request"];
     "embedding" := VNone ]}
].

(** [__init__]: [file] is the content of the knowledge-base file, [None]
    when it is missing or not valid JSON. *)
Definition init (file : option (list (dict num))) : t :=
  {| knowledge_base := default sample_kb file;
     embedding_cache := ∅;
     api_calls := 0 |}.

(** The provider call inside [get_embedding]; it raises when the provider
    fails. *)
Definition call_embeddings (text : value num) : M t (list num) :=
  λ s, match embeddings_create (api_calls s) text with
       | Some e => (Return e, tick s)
       | None => (Raise ProviderError, tick s)
       end.

(** [get_embedding]. The cache is a dict keyed by the text; [text] is
    annotated [str] in the source, and a text that is not a string is
    rejected here with [TypeError]. *)
Definition get_embedding (text : value num) : M t (list num) :=
  match text with
  | VStr txt =>
      s ← get_state;
      match embedding_cache s !! txt with
      | Some v => mret v
      | None =>
          try_except
            (embedding ← call_embeddings text;
             modify (set_embedding_cache (<[txt := embedding]>));;
             mret embedding)
            (λ _, mret zero_embedding)
      end
  | _ => raise TypeError
  end.

(** [sum(a_i * b_i for a_i, b_i in zip(a, b))] *)
Definition dot_product (a b : list num) : outcome num :=
  sum (λ p, arith (nmul p.1 p.2)) (zip_lists a b).

(** [sum(a_i ** 2 for a_i in a) ** 0.5] *)
Definition magnitude (a : list num) : outcome num :=
  match sum (λ a_i, arith (nsquare a_i)) a with
  | Return squares => arith (nroot squares)
  | Raise e => Raise e
  end.

Definition cosine_similarity (a b : list num) : outcome num :=
  match dot_product a b with
  | Return dot =>
      match magnitude a with
      | Return magnitude_a =>
          match magnitude b with
          | Return magnitude_b =>
              match arith (nmul magnitude_a magnitude_b) with
              | Return product =>
                  if neqb product nzero then Return nzero
                  else true_div dot product
              | Raise e => Raise e
              end
          | Raise e => Raise e
          end
      | Raise e => Raise e
      end
  | Raise e => Raise e
  end.

(** One turn of the loop that gives every item an embedding: item [i] of
    the collection is updated in place. *)
Definition ensure_embedding (i : nat) : M t unit :=
  s ← get_state;
  match knowledge_base s !! i with
  | None => mret tt
  | Some item =>
      if truthy (dict_get item "embedding") then mret tt
      else
        content ← lift (getitem item "content");
        embedding ← get_embedding content;
        modify (set_knowledge_base (<[i := <["embedding" := of_vector embedding]> item]>))
  end.

Definition score_item (query_embedding : list num) (item : dict num)
  : M t (dict num * num) :=
  e ← lift (getitem item "embedding");
  v ← lift (as_vector e);
  score ← lift (cosine_similarity query_embedding v);
  mret (item, score).

Definition search_knowledge_base (query : string) (top_k : Z) : M t (list (dict num)) :=
  query_embedding ← get_embedding (VStr query);
  s ← get_state;
  for_each ensure_embedding (seq 0 (length (knowledge_base s)));;
  s ← get_state;
  scored_items ← mapM (score_item query_embedding) (knowledge_base s);
  let scored_items := list_sort_reverse nltb snd scored_items in
  mret (fst <$> slice_to top_k scored_items).

Definition system_prompt : string :=
  "
        You are AI Sentinel, an advanced AI assistant for IDMS Infotech's ERP system. 
        Your role is to help employees with their questions about using the ERP system.
        You should be professional, helpful, and concise in your responses.
        
        When answering:
        1. Base your answers strictly on the knowledge provided.
        2. If the information isn't in the knowledge base, politely say you don't have that information yet.
        3. Don't make up information not contained in the knowledge snippets.
        4. Recommend escalation to human support for complex issues not adequately covered in the knowledge base.
        5. Include specific steps and navigation paths when explaining processes.
        6. Use language appropriate for enterprise software support.
        
        Format your response as a JSON with the following fields:
        - answer: Your response to the user's question
        - shouldEscalate: true/false whether the query should be escalated to human support
        - relatedQuestions: 2-3 potential follow-up questions related to the user's query
        - category: The category of the question (e.g. " +:+ DQ +:+
  "Authentication" +:+ DQ +:+
  ", " +:+ DQ +:+
  "Sales" +:+ DQ +:+
  ", " +:+ DQ +:+
  "HR" +:+ DQ +:+
  ")
        - confidence: A number between 0 and 1 indicating confidence in your answer
        - sourceKnowledgeIds: Array of IDs of the knowledge items you used in your answer
        ".

(** One entry of the context block; the keys are read in the order the
    f-string names them. *)
Definition render_item (item : dict num) : M t string :=
  title ← lift (getitem item "title");
  content ← lift (getitem item "content");
  category ← lift (getitem item "category");
  mret ("Title: " +:+ format_value title +:+ NL +:+
        "Content: " +:+ format_value content +:+ NL +:+
        "Category: " +:+ format_value category).

Definition knowledge_context_of (relevant_items : list (dict num)) : M t string :=
  rendered ← mapM render_item relevant_items;
  mret (join (NL +:+ NL) rendered).

(** The personalization clause; [user_info] is a dict or [None]. *)
Definition user_context_of (user_info : option (dict num)) : string :=
  match user_info with
  | Some info =>
      if truthy (VDict info) then
        let department := dict_get_default info "department" (VStr EmptyString) in
        let role := dict_get_default info "role" (VStr EmptyString) in
        if truthy department || truthy role then
          NL +:+ "The user works in the " +:+ format_value department +:+
          " department and has the role of " +:+ format_value role +:+
          ". Tailor your response accordingly."
        else EmptyString
      else EmptyString
  | None => EmptyString
  end.

Definition fallback_response : dict num :=
  {[ "answer" := VStr "I'm sorry, but I encountered an error while processing your question. Please try again or contact support for assistance.";
     "shouldEscalate" := VBool true;
     "relatedQuestions" := VList [];
     "category" := VStr "Error";
     "confidence" := VFloat nzero;
     "sourceKnowledgeIds" := VList [] ]}.

Definition call_chat (req : ChatRequest) : M t string :=
  λ s, match chat_completions_create (api_calls s) req with
       | Some content => (Return content, tick s)
       | None => (Raise ProviderError, tick s)
       end.

(** [k in obj] for a string [k]: a key of a dict, an element of a list, a
    substring of a string; other objects are not containers. *)
Definition contains_key (obj : value num) (k : string) : outcome bool :=
  match obj with
  | VDict d => Return (bool_decide (is_Some (d !! k)))
  | VList l => Return (existsb (λ v, match v with VStr s => String.eqb s k | _ => false end) l)
  | VStr s => Return (contains k s)
  | _ => Raise TypeError
  end.

(** [obj[k] = v] for a string [k]: only a dict accepts it. *)
Definition setitem (obj : value num) (k : string) (v : value num) : outcome (value num) :=
  match obj with
  | VDict d => Return (VDict (<[k := v]> d))
  | _ => Raise TypeError
  end.

(** The body of the [try] block of [process_query]: provider call,
    parsing, repair. *)
Definition answer (query knowledge_context user_context : string)
    (relevant_items : list (dict num)) : M t (value num) :=
  response_content ← call_chat
    {| model := "gpt-4o";
       messages :=
         [("system", system_prompt +:+ user_context);
          ("user", "Question: " +:+ query +:+ NL +:+ NL +:+
                   "Relevant Knowledge:" +:+ NL +:+ knowledge_context)];
       temperature := QArith_base.Qmake 7 10;
       response_format_json := true;
       max_tokens := None |};
  json_response ← lift (match json_loads response_content with
                        | Some v => Return v
                        | None => Raise JSONDecodeError
                        end);
  source_ids ← mapM (λ item : dict num, lift (getitem item "id")) relevant_items;
  present ← lift (contains_key json_response "sourceKnowledgeIds");
  if negb present
  then lift (setitem json_response "sourceKnowledgeIds" (VList source_ids))
  else mret json_response.

Definition process_query (query : string) (user_info : option (dict num))
  : M t (value num) :=
  relevant_items ← search_knowledge_base query 3;
  knowledge_context ← knowledge_context_of relevant_items;
  let user_context := user_context_of user_info in
  try_except
    (answer query knowledge_context user_context relevant_items)
    (λ _, mret (VDict fallback_response)).

(** [c.isdigit()] on code points below 256: the ten digits and the
    superscripts 1, 2 and 3. *)
Definition isdigit (c : ascii) : bool :=
  let n := nat_of_ascii c in
  ((48 <=? n) && (n <=? 57) || (n =? 178) || (n =? 179) || (n =? 185))%nat.

(** [\w] on code points below 256: the characters for which
    [c.isalnum()] holds, and the underscore. *)
Definition is_word_char (c : ascii) : bool :=
  let n := nat_of_ascii c in
  ((48 <=? n) && (n <=? 57) || (65 <=? n) && (n <=? 90) || (n =? 95)
   || (97 <=? n) && (n <=? 122) || (n =? 170) || (178 <=? n) && (n <=? 179)
   || (n =? 181) || (185 <=? n) && (n <=? 186) || (188 <=? n) && (n <=? 190)
   || (192 <=? n) && (n <=? 214) || (216 <=? n) && (n <=? 246)
   || (248 <=? n) && (n <=? 255))%nat.

(** [re.findall(r'\b\w+\b', s)]: the maximal runs of word characters. *)
Fixpoint word_runs (cur : list ascii) (l : list ascii) : list (list ascii) :=
  match l with
  | [] => match cur with [] => [] | _ => [reverse cur] end
  | x :: l' =>
      if is_word_char x then word_runs (x :: cur) l'
      else match cur with [] => word_runs [] l' | _ => reverse cur :: word_runs [] l' end
  end.

Definition findall_words (s : string) : list string := str <$> word_runs [] (chars s).

Definition stopwords : list string :=
  ["a"; "an"; "the"; "and"; "or"; "but"; "is"; "are"; "was"; "were"; "be";
   "been"; "being"; "in"; "on"; "at"; "to"; "for"; "with"; "by"; "about";
   "against"; "between"; "into"; "through"; "during"; "before"; "after"; "above";
   "below"; "from"; "up"; "down"; "of"; "off"; "over"; "under"; "again";
   "further"; "then"; "once"; "here"; "there"; "when"; "where"; "why"; "how";
   "all"; "any"; "both"; "each"; "few"; "more"; "most"; "other"; "some"; "such";
   "no"; "nor"; "not"; "only"; "own"; "same"; "so"; "than"; "too"; "very"; "s";
   "t"; "can"; "will"; "just"; "don"; "should"; "now"; "d"; "ll"; "m"; "o"; "re";
   "ve"; "y"; "ain"; "aren"; "couldn"; "didn"; "doesn"; "hadn"; "hasn"; "haven";
   "isn"; "ma"; "mightn"; "mustn"; "needn"; "shan"; "shouldn"; "wasn"; "weren";
   "won"; "wouldn"; "i"; "me"; "my"; "myself"; "we"; "our"; "ours"; "ourselves";
   "you"; "your"; "yours"; "yourself"; "yourselves"; "he"; "him"; "his";
   "himself"; "she"; "her"; "hers"; "herself"; "it"; "its"; "itself"; "they";
   "them"; "their"; "theirs"; "themselves"; "what"; "which"; "who"; "whom";
   "this"; "that"; "these"; "those"; "am"; "have"; "has"; "had"; "do"; "does";
   "did"; "doing"; "would"; "should"; "could"; "ought"; "get"; "gets"; "got";
   "gotten"].

Definition extract_keywords (text : string) : list string :=
  let words := findall_words (lower text) in
  filter (λ word, (word ∉ stopwords) ∧ (1 < len word)%nat) words.

(** [line.startswith('•')] and the bullet in the characters that
    [lstrip] removes: the bullet is the code point 8226, which no string
    of this model contains, so the test is false and the character is
    never met. *)
Definition startswith_bullet (line : string) : bool := false.

(** [line[i]] for an index within the line. *)
Definition char_at (i : nat) (line : string) : option ascii := chars line !! i.

(** The test that a stripped line looks like a list item. *)
Definition is_list_item (line : string) : bool :=
  startswith "-" line || startswith_bullet line
  || ((2 <? len line)%nat
      && match char_at 0 line with Some c => isdigit c | None => false end
      && bool_decide (char_at 1 line = Some (ascii_of_nat 46))).

(** [line.lstrip('-•0123456789. ')] *)
Definition lstrip_marker (line : string) : string :=
  str (drop_while (λ c, bool_decide (c ∈ chars "-0123456789. ")) (chars line)).

(** The loop over the lines of the reply. *)
Definition list_suggestions (lines : list string) : list string :=
  omap (λ line,
          let line := strip line in
          if is_list_item line then
            let suggestion := strip (lstrip_marker line) in
            if negb (String.eqb suggestion EmptyString) && (10 <? len suggestion)%nat
            then Some suggestion else None
          else None) lines.

Definition parse_suggestions (response_content : string) : list string :=
  let suggestions := list_suggestions (split LF response_content) in
  match suggestions with
  | [] => if negb (String.eqb (strip response_content) EmptyString)
          then [strip response_content] else suggestions
  | _ => suggestions
  end.

Definition fallback_suggestions : list string :=
  ["How to reset an ERP password";
   "Common ERP system error codes and their meanings";
   "Guide to generating custom reports in the reporting module"].

Definition gaps_system_prompt : string :=
  "
        You are an expert knowledge base curator for an enterprise ERP system support chatbot.
        Analyze the list of user queries and identify knowledge gaps that should be addressed.
        Focus on topics that are frequently asked but might not be well-covered in a typical knowledge base.
        
        Generate a list of 5-10 specific knowledge article topics that should be created to address these gaps.
        Each suggested topic should be specific enough to create a focused article (not too broad).
        ".

Definition generate_knowledge_gaps (queries : list string) : M t (list string) :=
  let query_list := join NL ((λ query, "- " +:+ query) <$> queries) in
  try_except
    (response_content ← call_chat
       {| model := "gpt-4o";
          messages :=
            [("system", gaps_system_prompt);
             ("user", "Here is a list of recent user queries to our ERP support chatbot:" +:+
                      NL +:+ NL +:+ query_list +:+ NL +:+ NL +:+
                      "What knowledge base articles should we create to fill gaps in our knowledge base?")];
          temperature := QArith_base.Qmake 8 10;
          response_format_json := false;
          max_tokens := None |};
     mret (parse_suggestions response_content))
    (λ _, mret fallback_suggestions).

End AISentinel.
Arguments t : clear implicits.
End AISentinel.

(** ** [KnowledgeManager] (src/knowledge_manager.py) *)

Module KnowledgeManager.
Section KnowledgeManager.
Context `{Number num, Provider num, PyLib num}.

Record t := {
  knowledge_base : list (dict num);
  next_id : Z;
  saved : list (dict num);                (* content of the knowledge-base file *)
  api_calls : nat                         (* provider calls made so far *)
}.

Definition set_knowledge_base (f : list (dict num) → list (dict num)) (s : t) : t :=
  {| knowledge_base := f (knowledge_base s);
     next_id := next_id s;
     saved := saved s;
     api_calls := api_calls s |}.

Definition set_next_id (f : Z → Z) (s : t) : t :=
  {| knowledge_base := knowledge_base s;
     next_id := f (next_id s);
     saved := saved s;
     api_calls := api_calls s |}.

Definition tick (s : t) : t :=
  {| knowledge_base := knowledge_base s;
     next_id := next_id s;
     saved := saved s;
     api_calls := S (api_calls s) |}.

(** [_save_knowledge_base]: the whole collection is written. *)
Definition _save_knowledge_base : M t unit :=
  modify (λ s, {| knowledge_base := knowledge_base s;
                  next_id := next_id s;
                  saved := knowledge_base s;
                  api_calls := api_calls s |}).

(** An id as the integer that [max] and [+ 1] work on; ids are integers
    ([item_id: int] in the source) and another value is rejected with
    [TypeError]. *)
Definition as_int (v : value num) : outcome Z :=
  match v with
  | VInt z => Return z
  | VBool b => Return (if b then 1 else 0)
  | _ => Raise TypeError
  end.

Fixpoint item_ids (l : list (dict num)) : outcome (list Z) :=
  match l with
  | [] => Return []
  | item :: l' =>
      match getitem item "id" with
      | Return v =>
          match as_int v with
          | Return z =>
              match item_ids l' with
              | Return zs => Return (z :: zs)
              | Raise e => Raise e
              end
          | Raise e => Raise e
          end
      | Raise e => Raise e
      end
  end.

(** [max(l, default=d)] *)
Definition max_default (l : list Z) (d : Z) : Z :=
  match l with
  | [] => d
  | z :: l' => foldl Z.max z l'
  end.

(** [__init__]: [file] is the content of the knowledge-base file, [None]
    when it is missing or not valid JSON. *)
Definition init (file : option (list (dict num))) : outcome t :=
  let kb := default [] file in
  match item_ids kb with
  | Return ids =>
      Return {| knowledge_base := kb;
                next_id := max_default ids 0 + 1;
                saved := kb;
                api_calls := 0 |}
  | Raise e => Raise e
  end.

Definition call_embeddings (text : value num) : M t (list num) :=
  λ s, match embeddings_create (api_calls s) text with
       | Some e => (Return e, tick s)
       | None => (Raise ProviderError, tick s)
       end.

(** [get_embedding]: no cache here. *)
Definition get_embedding (text : value num) : M t (list num) :=
  try_except (call_embeddings text) (λ _, mret zero_embedding).

(** [{k: v for k, v in item.items() if k != 'embedding'}] *)
Definition without_embedding (item : dict num) : dict num := delete "embedding" item.

Definition get_all_items : M t (list (dict num)) :=
  s ← get_state; mret (without_embedding <$> knowledge_base s).

(** The loop [for i, item in enumerate(self.knowledge_base): if item["id"]
    == item_id: ...] shared by lookup, update and delete: the first match
    with its position. *)
Fixpoint find_by_id (item_id : Z) (l : list (dict num)) (i : nat)
  : outcome (option (nat * dict num)) :=
  match l with
  | [] => Return None
  | item :: l' =>
      match getitem item "id" with
      | Return v =>
          if eq_int v item_id then Return (Some (i, item))
          else find_by_id item_id l' (S i)
      | Raise e => Raise e
      end
  end.

Definition get_item_by_id (item_id : Z) : M t (option (dict num)) :=
  s ← get_state;
  found ← lift (find_by_id item_id (knowledge_base s) 0);
  match found with
  | Some (_, item) => mret (Some (without_embedding item))
  | None => mret None
  end.

Definition create_item (item_data : dict num) : M t (dict num) :=
  s ← get_state;
  title ← lift (getitem item_data "title");
  content ← lift (getitem item_data "content");
  category ← lift (getitem item_data "category");
  let new_item : dict num :=
    {[ "id" := VInt (next_id s);
       "title" := title;
       "content" := content;
       "category" := category;
       "tags" := dict_get_default item_data "tags" (VList []);
       "embedding" := VNone ]} in
  embedding ← get_embedding content;
  let new_item := <["embedding" := of_vector embedding]> new_item in
  modify (set_knowledge_base (λ kb, kb ++ [new_item]));;
  modify (set_next_id (λ n, n + 1));;
  _save_knowledge_base;;
  mret (without_embedding new_item).

(** [for key, value in updates.items(): if key in [...]: item[key] = value] *)
Definition recognized (key : string) : bool :=
  bool_decide (key ∈ ["title"; "content"; "category"; "tags"]).

Definition apply_updates (item : dict num) (updates : list (string * value num)) : dict num :=
  foldl (λ it kv, if recognized kv.1 then <[kv.1 := kv.2]> it else it) item updates.

(** [key in updates] *)
Definition has_key (key : string) (updates : list (string * value num)) : bool :=
  existsb (λ kv, String.eqb kv.1 key) updates.

(** [update_item]: [updates] is the patch, its entries in the order of
    [updates.items()]. The item is mutated in place. *)
Definition update_item (item_id : Z) (updates : list (string * value num))
  : M t (option (dict num)) :=
  s ← get_state;
  found ← lift (find_by_id item_id (knowledge_base s) 0);
  match found with
  | Some (i, item) =>
      let item := apply_updates item updates in
      modify (set_knowledge_base (<[i := item]>));;
      item ← (if has_key "content" updates then
                content ← lift (getitem item "content");
                embedding ← get_embedding content;
                let item := <["embedding" := of_vector embedding]> item in
                modify (set_knowledge_base (<[i := item]>));;
                mret item
              else mret item);
      _save_knowledge_base;;
      mret (Some (without_embedding item))
  | None => mret None
  end.

Definition delete_item (item_id : Z) : M t bool :=
  s ← get_state;
  found ← lift (find_by_id item_id (knowledge_base s) 0);
  match found with
  | Some (i, _) =>
      modify (set_knowledge_base (delete i));;
      _save_knowledge_base;;
      mret true
  | None => mret false
  end.

(** One turn of the loop of [bulk_update_embeddings]. *)
Definition reembed (i : nat) : M t unit :=
  s ← get_state;
  match knowledge_base s !! i with
  | None => mret tt
  | Some item =>
      content ← lift (getitem item "content");
      embedding ← get_embedding content;
      modify (set_knowledge_base (<[i := <["embedding" := of_vector embedding]> item]>))
  end.

Definition bulk_update_embeddings : M t Z :=
  s ← get_state;
  for_each reembed (seq 0 (length (knowledge_base s)));;
  _save_knowledge_base;;
  mret (Z.of_nat (length (knowledge_base s))).

(** A value that can be a member of a [set]. *)
Definition hashable (v : value num) : bool :=
  match v with
  | VList _ | VDict _ => false
  | _ => true
  end.

(** [str.join] accepts strings only. *)
Definition as_str (v : value num) : outcome string :=
  match v with
  | VStr s => Return s
  | _ => Raise TypeError
  end.

Fixpoint gather {A B} (f : A → outcome B) (l : list A) : outcome (list B) :=
  match l with
  | [] => Return []
  | x :: l' =>
      match f x with
      | Return y =>
          match gather f l' with
          | Return ys => Return (y :: ys)
          | Raise e => Raise e
          end
      | Raise e => Raise e
      end
  end.

(** [list(set(item["category"] for item in self.knowledge_base))] once
    the members are known to be strings. The order of a set is not
    specified; the order of [elements] stands for it. *)
Definition distinct (l : list string) : list string :=
  elements (list_to_set l : gset string).

Definition default_categories : list string :=
  ["Authentication"; "Sales"; "HR"; "Finance"; "IT Support"; "General"].

Definition call_chat (req : ChatRequest) : M t string :=
  λ s, match chat_completions_create (api_calls s) req with
       | Some content => (Return content, tick s)
       | None => (Raise ProviderError, tick s)
       end.

(** The deduplication loop: strip, skip the empty and the already seen. *)
Definition unique (categories : list string) : list string :=
  foldl (λ unique_categories cat,
           let cat := strip cat in
           if negb (String.eqb cat EmptyString) && negb (bool_decide (cat ∈ unique_categories))
           then unique_categories ++ [cat] else unique_categories)
        [] categories.

(** The three heuristics, their matches concatenated. *)
Definition extract_categories (response_text : string) : list string :=
  let list_items := findall_list_items response_text in
  let quoted := findall_quoted response_text in
  let after_category := findall_after_category response_text in
  (strip <$> list_items) ++ (strip <$> quoted) ++ (strip <$> after_category).

Definition nonempty (s : string) : bool := negb (String.eqb s EmptyString).

Definition suggest_categories (text : string) : M t (list string) :=
  s ← get_state;
  members ← lift (gather (λ item : dict num,
                    match getitem item "category" with
                    | Return c => if hashable c then Return c else Raise TypeError
                    | Raise e => Raise e
                    end) (knowledge_base s));
  match members with
  | [] => mret default_categories
  | _ =>
      names ← lift (gather as_str members);
      let all_categories := distinct names in
      let categories_list := join ", " all_categories in
      let prompt :=
    "
        The following is content for a knowledge base article about an ERP system:
        
        " +:+
    text +:+
    "
        
        Based on this content, suggest which category it belongs to. Here are the existing categories:
        " +:+
    categories_list +:+
    "
        
        You can also suggest a new category if none of the existing ones fit well.
        Provide up to 3 category suggestions in order of relevance.
        " in
      try_except
        (response_text ← call_chat
           {| model := "gpt-4o";
              messages :=
                [("system", "You are a knowledge base curator who categorizes ERP documentation.");
                 ("user", prompt)];
              temperature := QArith_base.Qmake 3 10;
              response_format_json := false;
              max_tokens := Some 150 |};
         let unique_categories := unique (extract_categories response_text) in
         match unique_categories with
         | _ :: _ => mret (slice_to 3 unique_categories)
         | [] =>
             mret (slice_to 3
                     (filter (λ line, nonempty line = true)
                        (strip <$> split LF response_text)))
         end)
        (λ _, mret (match all_categories with
                    | _ :: _ => slice_to 3 all_categories
                    | [] => ["General"]
                    end))
  end.

Definition stop_words : list string :=
  ["the"; "and"; "is"; "in"; "to"; "of"; "for"; "a"; "with"; "on"; "by"].

(** [Counter(keywords)]: the counts, in the order of first occurrence. *)
Fixpoint count_word (w : string) (counts : list (string * nat)) : list (string * nat) :=
  match counts with
  | [] => [(w, 1%nat)]
  | (w', n) :: counts' =>
      if String.eqb w' w then (w', S n) :: counts'
      else (w', n) :: count_word w counts'
  end.

Definition Counter (keywords : list string) : list (string * nat) :=
  foldl (λ counts w, count_word w counts) [] keywords.

(** [counts.most_common(n)]: the items sorted by count, largest first,
    equal counts in the order of first occurrence; the first [n]. *)
Definition most_common (n : Z) (counts : list (string * nat)) : list (string * nat) :=
  slice_to n (sort_reverse Nat.ltb snd counts).

(** The characters removed by [tag.strip('...')]: the two quote
    characters and [.,;:()-]. *)
Definition tag_punctuation : string := DQ +:+ "'.,;:()-".

(** The clean-up loop of [suggest_tags]. *)
Definition clean_tag (tag : string) : option string :=
  let tag := strip_chars tag_punctuation (strip tag) in
  if (len tag <? 2)%nat then None
  else
    let tag := if startswith "tag:" tag then strip (slice_from 4 tag) else tag in
    Some tag.

Definition clean_tags_of (tags : list string) : list string :=
  omap clean_tag tags.

Definition suggest_tags (text : string) : M t (list string) :=
  let prompt :=
    "
        The following is content for a knowledge base article about an ERP system:
        
        " +:+
    text +:+
    "
        
        Based on this content, suggest 3-5 tags that would help users find this article.
        Tags should be single words or short phrases that represent key concepts in the content.
        Provide tags in a comma-separated list.
        " in
  try_except
    (response_text ← call_chat
       {| model := "gpt-4o";
          messages :=
            [("system", "You are a knowledge base curator who tags ERP documentation.");
             ("user", prompt)];
          temperature := QArith_base.Qmake 3 10;
          response_format_json := false;
          max_tokens := Some 100 |};
     let tags :=
       if contains_char COMMA response_text
       then (λ tag, lower (strip tag)) <$> split COMMA response_text
       else if contains_char LF response_text
       then (λ tag, lower (strip tag)) <$> split LF response_text
       else [lower (strip response_text)] in
     mret (clean_tags_of tags))
    (λ _,
       let words := split_whitespace (lower text) in
       let keywords :=
         filter (λ word, (word ∉ stop_words) ∧ (3 < len word)%nat) words in
       let counts := Counter keywords in
       mret (fst <$> most_common 5 counts)).

(** The exceptions of the two read filters: those of [exn], and the
    [AttributeError] of calling [lower] on a value that is not a string. *)
Inductive filter_error :=
| Builtin (e : exn)
| AttributeError.

Inductive result (A : Type) :=
| Ok (a : A)
| Err (e : filter_error).
Arguments Ok {A} a.
Arguments Err {A} e.

(** [v.lower()] *)
Definition lower_of (v : value num) : result string :=
  match v with
  | VStr s => Ok (lower s)
  | _ => Err AttributeError
  end.

(** [[item for item in l if item["category"].lower() == category.lower()]] *)
Fixpoint matching_category (category : string) (l : list (dict num))
  : result (list (dict num)) :=
  match l with
  | [] => Ok []
  | item :: l' =>
      match item !! "category" with
      | None => Err (Builtin (KeyError "category"))
      | Some v =>
          match lower_of v with
          | Err e => Err e
          | Ok c =>
              match matching_category category l' with
              | Err e => Err e
              | Ok rest =>
                  Ok (if String.eqb c (lower category) then item :: rest else rest)
              end
          end
      end
  end.

Definition get_items_by_category (category : string) (s : t) : result (list (dict num)) :=
  match matching_category category (knowledge_base s) with
  | Ok matching => Ok (without_embedding <$> matching)
  | Err e => Err e
  end.

Fixpoint lower_all (l : list (value num)) : result (list string) :=
  match l with
  | [] => Ok []
  | v :: l' =>
      match lower_of v with
      | Err e => Err e
      | Ok c =>
          match lower_all l' with
          | Err e => Err e
          | Ok cs => Ok (c :: cs)
          end
      end
  end.

(** [[tag.lower() for tag in item.get("tags", [])]]: a list gives its
    elements, a string its characters, a dict its keys; other values are
    not iterable. *)
Definition item_tags_of (item : dict num) : result (list string) :=
  match dict_get_default item "tags" (VList []) with
  | VList l => lower_all l
  | VStr s => Ok ((λ c, lower (String c EmptyString)) <$> chars s)
  | VDict d => Ok (lower <$> (map_to_list d).*1)
  | _ => Err (Builtin TypeError)
  end.

(** [any(tag in item_tags for tag in lowercase_tags)] *)
Definition any_in (lowercase_tags item_tags : list string) : bool :=
  existsb (λ tag, bool_decide (tag ∈ item_tags)) lowercase_tags.

Fixpoint matching_tags (lowercase_tags : list string) (l : list (dict num))
  : result (list (dict num)) :=
  match l with
  | [] => Ok []
  | item :: l' =>
      match item_tags_of item with
      | Err e => Err e
      | Ok item_tags =>
          match matching_tags lowercase_tags l' with
          | Err e => Err e
          | Ok rest =>
              Ok (if any_in lowercase_tags item_tags then item :: rest else rest)
          end
      end
  end.

Definition get_items_by_tags (tags : list string) (s : t) : result (list (dict num)) :=
  let lowercase_tags := lower <$> tags in
  match matching_tags lowercase_tags (knowledge_base s) with
  | Ok matching => Ok (without_embedding <$> matching)
  | Err e => Err e
  end.

End KnowledgeManager.
Arguments t : clear implicits.
Arguments Ok {A} a.
Arguments Err {A} e.
End KnowledgeManager.

(** ** Concrete collaborators

    Exact integer arithmetic as an instance of [Number] (floor square root,
    floor division, nothing overflows), and providers and libraries with
    fixed answers; the examples below run the model on them. *)

#[export] Instance Z_number : Number Z := {|
  nzero := 0;
  of_int := λ z, z;
  nadd := λ x y, Some (x + y);
  nmul := λ x y, Some (x * y);
  ndiv := λ x y, Some (x / y);
  nsquare := λ x, Some (x * x);
  nroot := λ x, Some (Z.sqrt x);
  neqb := Z.eqb;
  nltb := Z.ltb
|}.

(** A provider that is down. *)
Definition provider_down : Provider Z := {|
  embeddings_create := λ _ _, None;
  chat_completions_create := λ _ _, None
|}.

(** A provider whose embedding of every text is [[3; 4]], whose first call
    fails, and whose chat answer is the text [reply]. *)
Definition provider_flaky (reply : string) : Provider Z := {|
  embeddings_create := λ n _, if (n =? 0)%nat then None else Some [3; 4];
  chat_completions_create := λ _ _, Some reply
|}.

(** A provider that is up: every embedding is [[3; 4]]. *)
Definition provider_up (reply : string) : Provider Z := {|
  embeddings_create := λ _ _, Some [3; 4];
  chat_completions_create := λ _ _, Some reply
|}.

(** A library whose [json.loads] accepts nothing and whose patterns match
    nothing. *)
Definition lib_plain : PyLib Z := {|
  json_loads := λ _, None;
  repr := λ _, "?";
  findall_list_items := λ _, [];
  findall_quoted := λ _, [];
  findall_after_category := λ _, []
|}.

(** A small knowledge base whose items already carry an embedding. *)
Definition article (id : Z) (title : string) (embedding : value Z) : dict Z :=
  {[ "id" := VInt id;
     "title" := VStr title;
     "content" := VStr ("About " +:+ title);
     "category" := VStr "General";
     "embedding" := embedding ]}.

Definition small_kb : list (dict Z) :=
  [article 1 "a" (of_vector [3; 4]);
   article 2 "b" (of_vector [3; 4]);
   article 3 "c" (of_vector [3; 4])].

(** An item without a title, as a hand-edited knowledge-base file can
    hold. *)
Definition untitled : dict Z :=
  {[ "id" := VInt 1;
     "content" := VStr "About a";
     "category" := VStr "General";
     "embedding" := of_vector [3; 4] ]}.

(** A library whose [json.loads] reads every text as the object [d]. *)
Definition lib_object (d : dict Z) : PyLib Z := {|
  json_loads := λ _, Some (VDict d);
  repr := λ _, "?";
  findall_list_items := λ _, [];
  findall_quoted := λ _, [];
  findall_after_category := λ _, []
|}.

(** An engine on the small knowledge base after a search for [q]. *)
Definition sentinel_warm : AISentinel.t Z :=
  {| AISentinel.knowledge_base := small_kb;
     AISentinel.embedding_cache := {[ "q" := [3; 4] ]};
     AISentinel.api_calls := 1 |}.

(** The context block rendered from the small knowledge base. *)
Definition small_context : string :=
  join (NL +:+ NL)
    (fmap (M := list)
       (λ t, "Title: " +:+ t +:+ NL +:+ "Content: About " +:+ t +:+ NL +:+
             "Category: General") ["a"; "b"; "c"]).

(** A store holding the sample knowledge base. *)
Definition km_sample : KnowledgeManager.t Z :=
  {| KnowledgeManager.knowledge_base := AISentinel.sample_kb;
     KnowledgeManager.next_id := 4;
     KnowledgeManager.saved := AISentinel.sample_kb;
     KnowledgeManager.api_calls := 0 |}.

(** The ids of the items a filter returned. *)
Definition ids_found (r : KnowledgeManager.result (list (dict Z)))
  : option (list (option (value Z))) :=
  match r with
  | KnowledgeManager.Ok l => Some ((λ item : dict Z, item !! "id") <$> l)
  | KnowledgeManager.Err _ => None
  end.

(** ** Vocabulary of the properties *)

(** [m] keeps [P]: whether it returns or raises, [P] holds afterwards. *)
Definition preserves {S A} (P : S → Prop) (m : M S A) : Prop :=
  ∀ s, P s → P (m s).2.

(** On a list whose elements carry their original position: [p] stands
    before [q] although [q] came first only if the key of [q] is smaller. *)
Definition overtaken {A K} (ltb : K → K → bool) (key : A → K) (p q : nat * A) : Prop :=
  (q.1 < p.1)%nat → ltb (key q.2) (key p.2) = true.

(** [<] is a strict weak order on the keys [ks]: asymmetric, and with a
    transitive complement. It is what [list.sort] needs of its keys to
    promise a sorted and stable result; a NaN among floats breaks it. *)
Definition strict_weak_order {K} (ltb : K → K → bool) (ks : list K) : Prop :=
  (∀ a b, a ∈ ks → b ∈ ks → ltb a b = true → ltb b a = false)
  ∧ (∀ a b c, a ∈ ks → b ∈ ks → c ∈ ks →
       ltb a b = false → ltb b c = false → ltb a c = false).

Module SentinelSpec.
Section SentinelSpec.
Context `{Number num, Provider num, PyLib num}.
Import AISentinel.

(** The calls a client can make on an [AISentinel]. *)
Inductive call :=
| GetEmbedding (text : value num)
| Search (query : string) (top_k : Z)
| ProcessQuery (query : string) (user_info : option (dict num)).

Definition run_call (c : call) (s : AISentinel.t num) : AISentinel.t num :=
  match c with
  | GetEmbedding text => (get_embedding text s).2
  | Search query top_k => (search_knowledge_base query top_k s).2
  | ProcessQuery query user_info => (process_query query user_info s).2
  end.

(** The state after a sequence of calls, whatever each returned or raised. *)
Definition run (calls : list call) (s : AISentinel.t num) : AISentinel.t num :=
  foldl (λ s c, run_call c s) s calls.

(** Every cached vector is the answer of a successful provider call made
    earlier for that text. *)
Definition cache_sound (s : AISentinel.t num) : Prop :=
  ∀ txt v, embedding_cache s !! txt = Some v →
    ∃ n, (n < api_calls s)%nat ∧ embeddings_create n (VStr txt) = Some v.

(** What a failed provider call on [txt] in state [s] leads to: the zero
    vector of length 1536 is returned, the cache is left as it was, and
    the next call with the same text asks the provider again: it returns
    and caches the provider's answer to that new call, or returns the zero
    vector once more. *)
Definition fails_then_retries (txt : string) (s : AISentinel.t num) : Prop :=
  ∃ s',
    get_embedding (VStr txt) s = (Return zero_embedding, s')
    ∧ length (zero_embedding : list num) = 1536%nat
    ∧ embedding_cache s' = embedding_cache s
    ∧ api_calls s' = Datatypes.S (api_calls s)
    ∧ ∃ s'', api_calls s'' = Datatypes.S (api_calls s')
      ∧ match embeddings_create (api_calls s') (VStr txt) with
        | Some e =>
            get_embedding (VStr txt) s' = (Return e, s'')
            ∧ embedding_cache s'' = <[txt := e]> (embedding_cache s)
        | None =>
            get_embedding (VStr txt) s' = (Return zero_embedding, s'')
            ∧ embedding_cache s'' = embedding_cache s
        end.

End SentinelSpec.
End SentinelSpec.

Module SearchSpec.
Section SearchSpec.
Context `{Number num, Provider num, PyLib num}.
Import AISentinel.

(** The similarity score of a stored item for a query vector. *)
Definition item_score (query_embedding : list num) (item : dict num) : outcome num :=
  match getitem item "embedding" with
  | Return e =>
      match as_vector e with
      | Return v => cosine_similarity query_embedding v
      | Raise x => Raise x
      end
  | Raise x => Raise x
  end.

(** An item that retrieval can score: its embedding is a list of numbers,
    or it has none yet and its content is a text to embed. *)
Definition searchable (item : dict num) : Prop :=
  if truthy (dict_get item "embedding")
  then ∃ v, as_vector (dict_get item "embedding") = Return v
  else ∃ c, item !! "content" = Some (VStr c).

(** An item whose embedding is a list of numbers. *)
Definition scorable (item : dict num) : Prop :=
  ∃ e v, item !! "embedding" = Some e ∧ as_vector e = Return v.

(** The loop invariant of the backfill: the items before position [i]
    have a vector, the others are still as they were found. *)
Definition backfilled (n i : nat) (s : AISentinel.t num) : Prop :=
  length (knowledge_base s) = n
  ∧ ∀ j item, knowledge_base s !! j = Some item →
      ((j < i)%nat → scorable item) ∧ ((i ≤ j)%nat → searchable item).

(** The result of a search lists the store's items at the positions
    [idx], in that order. *)
Definition at_positions (kb : list (dict num)) (idx : list nat) (res : list (dict num)) : Prop :=
  NoDup idx ∧ Forall2 (λ i r, kb !! i = Some r) idx res.

(** Position [i] comes before position [j] in the result. *)
Definition ranked_before (idx : list nat) (i j : nat) : Prop :=
  ∃ a b, (a < b)%nat ∧ idx !! a = Some i ∧ idx !! b = Some j.

(** The scores of a result are in descending order. *)
Definition descending (query_embedding : list num) (res : list (dict num)) : Prop :=
  ∃ scores,
    Forall2 (λ r c, item_score query_embedding r = Return c) res scores
    ∧ StronglySorted (λ a b, nltb a b = false) scores.

(** The scores of the items of [kb] are ordered by [<]: no NaN is among
    them. *)
Definition ordered_scores (query_embedding : list num) (kb : list (dict num)) : Prop :=
  ∀ scores,
    Forall2 (λ item c, item_score query_embedding item = Return c) kb scores →
    strict_weak_order nltb scores.

(** A call ends in [OverflowError]. *)
Definition overflows {A} (m : M (AISentinel.t num) A) (s : AISentinel.t num) : Prop :=
  ∃ s', m s = (Raise OverflowError, s').

(** The bounds of a search with limit [top_k] on the store of [s]: a
    search that returns yields at most [top_k] items and at most as many as
    the store holds, and the whole collection, in descending order of
    similarity if [<] orders the scores, when [top_k] is at least its
    size; on an empty store the search returns the empty sequence; on a
    store of searchable items it returns unless the arithmetic of a score
    overflows. *)
Definition within_bounds (query : string) (top_k : Z) (s : AISentinel.t num) : Prop :=
  (∀ res s', search_knowledge_base query top_k s = (Return res, s') →
     Z.of_nat (length res) ≤ top_k
     ∧ (length res ≤ length (knowledge_base s))%nat
     ∧ (Z.of_nat (length (knowledge_base s)) ≤ top_k →
        res ≡ₚ knowledge_base s'
        ∧ ∃ qe, (get_embedding (VStr query) s).1 = Return qe
                ∧ (ordered_scores qe (knowledge_base s') → descending qe res)))
  ∧ (knowledge_base s = [] →
     ∃ s', search_knowledge_base query top_k s = (Return [], s'))
  ∧ (Forall searchable (knowledge_base s) →
     (∃ res s', search_knowledge_base query top_k s = (Return res, s'))
     ∨ overflows (search_knowledge_base query top_k) s).

(** Two scores tie: neither is smaller than the other. Equal scores tie
    where [<] orders the scores. *)
Definition tie (c d : num) : Prop := nltb c d = false ∧ nltb d c = false.

(** The result [res] of a search that left the store as in [s'] keeps the
    collection order among items of equal score, where [<] orders the
    scores: it lists the items at distinct positions [idx] of the
    collection, and if the scores of two items are equal or tie and the
    later one is in the result, the earlier one is in the result too,
    before it. *)
Definition stably_ranked (query : string) (s s' : AISentinel.t num)
    (res : list (dict num)) : Prop :=
  ∃ qe,
    (get_embedding (VStr query) s).1 = Return qe
    ∧ (ordered_scores qe (knowledge_base s') →
       ∃ idx,
         at_positions (knowledge_base s') idx res
         ∧ ∀ i j x y c d,
             (i < j)%nat →
             knowledge_base s' !! i = Some x →
             knowledge_base s' !! j = Some y →
             item_score qe x = Return c →
             item_score qe y = Return d →
             (c = d ∨ tie c d) →
             j ∈ idx →
             ranked_before idx i j).

End SearchSpec.
End SearchSpec.

Module QuerySpec.
Section QuerySpec.
Context `{Number num, Provider num, PyLib num}.
Import AISentinel.

(** Steps 1 and 2 of answer synthesis, the part of [process_query] before
    its [try] block: retrieval and the rendering of the context. *)
Definition prepare (query : string) : M (AISentinel.t num) (list (dict num) * string) :=
  relevant_items ← search_knowledge_base query 3;
  knowledge_context ← knowledge_context_of relevant_items;
  mret (relevant_items, knowledge_context).

(** An item the context block can be rendered from. *)
Definition renderable (item : dict num) : Prop :=
  is_Some (item !! "title") ∧ is_Some (item !! "content") ∧ is_Some (item !! "category").

(** The fixed fallback: apology, escalation, no related questions, category
    "Error", confidence 0.0, no sources. *)
Definition is_fallback (r : value num) : Prop :=
  ∃ d, r = VDict d
    ∧ dom d = {[ "answer"; "shouldEscalate"; "relatedQuestions"; "category";
                 "confidence"; "sourceKnowledgeIds" ]}
    ∧ d !! "answer" = Some (VStr "I'm sorry, but I encountered an error while processing your question. Please try again or contact support for assistance.")
    ∧ d !! "shouldEscalate" = Some (VBool true)
    ∧ d !! "relatedQuestions" = Some (VList [])
    ∧ d !! "category" = Some (VStr "Error")
    ∧ d !! "confidence" = Some (VFloat nzero)
    ∧ d !! "sourceKnowledgeIds" = Some (VList []).

(** The contract of [process_query] in state [s]:
    - an exception reaches the caller only if retrieval or context
      rendering raised it;
    - once these two steps have returned, [process_query] returns, and it
      returns the fallback whenever the provider call, the parsing or the
      repair raised;
    - on a store of searchable and renderable items the two steps return
      unless the arithmetic of a score overflows, hence [process_query]
      returns or raises [OverflowError]. *)
Definition never_raises_past_preparation (query : string)
    (user_info : option (dict num)) (s : AISentinel.t num) : Prop :=
  (∀ e s', process_query query user_info s = (Raise e, s') →
     prepare query s = (Raise e, s'))
  ∧ (∀ items ctx s1, prepare query s = (Return (items, ctx), s1) →
       ∃ r s', process_query query user_info s = (Return r, s')
         ∧ ∀ e s2,
             answer query ctx (user_context_of user_info) items s1 = (Raise e, s2) →
             is_fallback r ∧ s' = s2)
  ∧ (Forall (λ item, SearchSpec.searchable item ∧ renderable item) (knowledge_base s) →
     (∃ r s', process_query query user_info s = (Return r, s'))
     ∨ SearchSpec.overflows (process_query query user_info) s).

End QuerySpec.
End QuerySpec.

Module StoreSpec.
Section StoreSpec.
Context `{Number num, Provider num, PyLib num}.
Import KnowledgeManager.

(** The calls a client can make on a [KnowledgeManager] that change it. *)
Inductive op :=
| Create (item_data : dict num)
| Update (item_id : Z) (updates : list (string * value num))
| Delete (item_id : Z)
| Reembed.

Definition run_op (o : op) (s : KnowledgeManager.t num) : KnowledgeManager.t num :=
  match o with
  | Create item_data => (create_item item_data s).2
  | Update item_id updates => (update_item item_id updates s).2
  | Delete item_id => (delete_item item_id s).2
  | Reembed => (bulk_update_embeddings s).2
  end.

(** The state after a sequence of calls, whatever each returned or raised. *)
Definition run (ops : list op) (s : KnowledgeManager.t num) : KnowledgeManager.t num :=
  foldl (λ s o, run_op o s) s ops.

(** The integer id of an item. *)
Definition id_of (item : dict num) : option Z :=
  match item !! "id" with
  | Some v => match as_int v with Return z => Some z | Raise _ => None end
  | None => None
  end.

(** [updates[k]]: the value a patch binds to [k]; of two entries for one
    key the later counts. *)
Fixpoint patch_get (k : string) (updates : list (string * value num)) : option (value num) :=
  match updates with
  | [] => None
  | kv :: rest =>
      match patch_get k rest with
      | Some w => Some w
      | None => if String.eqb kv.1 k then Some kv.2 else None
      end
  end.

(** What [get_embedding] returns for [text] when [n] provider calls were
    made before: the provider's vector, or the zero vector when that call
    fails. *)
Definition embedding_at (n : nat) (text : value num) : list num :=
  default zero_embedding (embeddings_create n text).

(** [item'] is [item] after the patch [updates] was applied when [n]
    provider calls had been made: a key that is not one of the four
    recognized fields keeps its value (the embedding apart), a recognized
    key gets the value of the patch if the patch has it and keeps its
    value otherwise; the embedding is unchanged when the patch has no
    content, and is the result of [get_embedding] on the new content when
    it has. *)
Definition patched (updates : list (string * value num)) (n : nat)
    (item item' : dict num) : Prop :=
  (∀ k, recognized k = false → k ≠ "embedding" → item' !! k = item !! k)
  ∧ (∀ k, recognized k = true →
       item' !! k = match patch_get k updates with
                    | Some v => Some v
                    | None => item !! k
                    end)
  ∧ (has_key "content" updates = false → item' !! "embedding" = item !! "embedding")
  ∧ (has_key "content" updates = true →
     ∃ c, patch_get "content" updates = Some c
          ∧ item' !! "content" = Some c
          ∧ item' !! "embedding" = Some (of_vector (embedding_at n c))).

(** The effect of [update_item item_id updates] in state [s] on the item
    [item] found at position [i]. *)
Definition updates_item (item_id : Z) (updates : list (string * value num))
    (s : KnowledgeManager.t num) (i : nat) (item : dict num) : Prop :=
  ∃ item' s',
    update_item item_id updates s = (Return (Some (without_embedding item')), s')
    ∧ knowledge_base s' = <[i := item']> (knowledge_base s)
    ∧ saved s' = knowledge_base s'
    ∧ next_id s' = next_id s
    ∧ api_calls s' = (if has_key "content" updates
                      then Datatypes.S (api_calls s) else api_calls s)
    ∧ patched updates (api_calls s) item item'.

(** The ids of the stored items, in collection order. *)
Definition ids (s : KnowledgeManager.t num) : list (option Z) :=
  id_of <$> knowledge_base s.

(** What a call can do to the ids and to the counter: nothing, append the
    counter's value as a new id and advance the counter by one, or remove
    one id. *)
Definition id_step (s s' : KnowledgeManager.t num) : Prop :=
  (ids s' = ids s ∧ next_id s' = next_id s)
  ∨ (ids s' = ids s ++ [Some (next_id s)] ∧ next_id s' = next_id s + 1)
  ∨ (∃ i, ids s' = delete i (ids s) ∧ next_id s' = next_id s).

(** Every stored item has an integer id below the counter. *)
Definition ids_below (s : KnowledgeManager.t num) : Prop :=
  Forall (λ o, ∃ z : Z, o = Some z ∧ z < next_id s) (ids s).

Definition ids_positive (s : KnowledgeManager.t num) : Prop :=
  Forall (λ o, ∀ z : Z, o = Some z → 0 < z) (ids s).

(** A draft [create_item] accepts. *)
Definition complete (item_data : dict num) : Prop :=
  is_Some (item_data !! "title") ∧ is_Some (item_data !! "content")
  ∧ is_Some (item_data !! "category").

(** Id allocation on a store built from [file] and then used by the calls
    [ops]. The counter starts at the largest loaded id plus 1, or at 1 for
    an empty store, and never decreases; every stored id is below it; a
    create assigns the counter's value, which is therefore new, and
    advances the counter by one; ids stay distinct if the loaded ones are,
    and positive if the loaded ones are; no call of any kind, a delete
    included, lowers the counter. *)
Definition allocates_fresh_ids (file : option (list (dict num))) (ops : list op)
    (s0 : KnowledgeManager.t num) : Prop :=
  let s := run ops s0 in
  (∃ zs, item_ids (default [] file) = Return zs ∧ next_id s0 = max_default zs 0 + 1)
  ∧ next_id s0 ≤ next_id s
  ∧ ids_below s
  ∧ (NoDup (ids s0) → NoDup (ids s))
  ∧ (ids_positive s0 → 0 < next_id s ∧ ids_positive s)
  ∧ (∀ item_data, complete item_data →
       ∃ item s', create_item item_data s = (Return item, s')
         ∧ item !! "id" = Some (VInt (next_id s))
         ∧ (Some (next_id s) ∉ ids s)
         ∧ ids s' = ids s ++ [Some (next_id s)]
         ∧ next_id s' = next_id s + 1)
  ∧ (∀ o, next_id s ≤ next_id (run_op o s)).

End StoreSpec.
End StoreSpec.

(** An empty store, and a store holding the small knowledge base. *)
Definition km_empty : KnowledgeManager.t Z :=
  {| KnowledgeManager.knowledge_base := [];
     KnowledgeManager.next_id := 1;
     KnowledgeManager.saved := [];
     KnowledgeManager.api_calls := 0 |}.

Definition km_small : KnowledgeManager.t Z :=
  {| KnowledgeManager.knowledge_base := small_kb;
     KnowledgeManager.next_id := 4;
     KnowledgeManager.saved := small_kb;
     KnowledgeManager.api_calls := 0 |}.

Definition draft : dict Z :=
  {[ "title" := VStr "d"; "content" := VStr "About d"; "category" := VStr "General" ]}.

Module EmbeddingSpec.
Section EmbeddingSpec.
Context `{Number num, Provider num, PyLib num}.

(** The provider computes a function [E] of the text whenever it answers. *)
Definition deterministic (E : value num → list num) : Prop :=
  ∀ n text e, embeddings_create n text = Some e → e = E text.

(** The embedding of an item as the specification has it: absent or null,
    or the provider's embedding of the item's content. *)
Definition matches_content (E : value num → list num) (item : dict num) : Prop :=
  dict_get item "embedding" = VNone
  ∨ ∃ c, item !! "content" = Some c ∧ item !! "embedding" = Some (of_vector (E c)).

(** The embedding of an item as the code keeps it: absent or null, the
    provider's embedding of the item's content, or the zero vector that
    [get_embedding] returned when the provider call failed. *)
Definition matches_content_or_fallback (E : value num → list num) (item : dict num) : Prop :=
  dict_get item "embedding" = VNone
  ∨ ∃ c, item !! "content" = Some c
       ∧ (item !! "embedding" = Some (of_vector (E c))
          ∨ item !! "embedding" = Some (of_vector zero_embedding)).

(** The invariant of the engine: the cache is sound and the embeddings
    match. *)
Definition sound_and_ok (E : value num → list num) (s : AISentinel.t num) : Prop :=
  SentinelSpec.cache_sound s
  ∧ Forall (matches_content_or_fallback E) (AISentinel.knowledge_base s).

(** The invariant holds after every sequence of calls on a store and on
    an engine in which it held before. *)
Definition invariant_of_both_stores (E : value num → list num) : Prop :=
  (∀ ops s,
     Forall (matches_content_or_fallback E) (KnowledgeManager.knowledge_base s) →
     Forall (matches_content_or_fallback E)
       (KnowledgeManager.knowledge_base (StoreSpec.run ops s)))
  ∧ (∀ calls s,
       SentinelSpec.cache_sound s →
       Forall (matches_content_or_fallback E) (AISentinel.knowledge_base s) →
       Forall (matches_content_or_fallback E)
         (AISentinel.knowledge_base (SentinelSpec.run calls s))).

End EmbeddingSpec.
End EmbeddingSpec.

Module CrudSpec.
Section CrudSpec.
Context `{Number num, Provider num, PyLib num}.
Import KnowledgeManager StoreSpec.

(** No item of [l] has the id [item_id]; every item has an integer id. *)
Definition other_ids (item_id : Z) (l : list (dict num)) : Prop :=
  Forall (λ item, ∃ z : Z, id_of item = Some z ∧ z ≠ item_id) l.

(** The visible item that [create_item] builds from a draft in state [s]:
    the fields of the draft under the next id, and no embedding. *)
Definition visible_item (s : KnowledgeManager.t num) (item_data : dict num)
    (title content category : value num) : dict num :=
  {[ "id" := VInt (next_id s);
     "title" := title;
     "content" := content;
     "category" := category;
     "tags" := dict_get_default item_data "tags" (VList []) ]}.

(** [create_item] returns the visible item, and a lookup of its id
    directly afterwards returns the same item and changes nothing. *)
Definition created_then_found (item_data : dict num) (s : KnowledgeManager.t num)
    (title content category : value num) : Prop :=
  ∃ s',
    create_item item_data s
    = (Return (visible_item s item_data title content category), s')
    ∧ get_item_by_id (next_id s) s'
      = (Return (Some (visible_item s item_data title content category)), s').

(** The three calls that take an id treat an id that no item has alike:
    a value says so, and nothing is changed. *)
Definition reports_not_found (item_id : Z) (s : KnowledgeManager.t num) : Prop :=
  get_item_by_id item_id s = (Return None, s)
  ∧ (∀ updates, update_item item_id updates s = (Return None, s))
  ∧ delete_item item_id s = (Return false, s).

(** [delete_item] on a collection [before ++ item :: after] whose first
    item with the id is [item]: that item alone is removed, the file is
    written, the counter is kept. *)
Definition deletes_first (item_id : Z) (s : KnowledgeManager.t num)
    (before after : list (dict num)) : Prop :=
  ∃ s',
    delete_item item_id s = (Return true, s')
    ∧ knowledge_base s' = before ++ after
    ∧ saved s' = before ++ after
    ∧ next_id s' = next_id s
    ∧ api_calls s' = api_calls s
    ∧ (other_ids item_id after → reports_not_found item_id s').

(** The file holds the collection that is in memory. *)
Definition persisted (s : KnowledgeManager.t num) : Prop :=
  saved s = knowledge_base s.

(** A create, an update or a delete leaves the file equal to the
    collection in memory, and so does a re-embedding that returns. *)
Definition keeps_persisted (s : KnowledgeManager.t num) : Prop :=
  (∀ item_data, persisted (create_item item_data s).2)
  ∧ (∀ item_id updates, persisted (update_item item_id updates s).2)
  ∧ (∀ item_id, persisted (delete_item item_id s).2)
  ∧ (∀ n s', bulk_update_embeddings s = (Return n, s') → persisted s').

(** The effect of [bulk_update_embeddings] on a store whose items all
    have a content: one provider call per item, in collection order; item
    [i] gets the embedding that [get_embedding] returns for its content at
    its call, and keeps its other fields; the count returned is the number
    of items; the file is written. *)
Definition reembeds_all (s : KnowledgeManager.t num) : Prop :=
  ∃ s',
    bulk_update_embeddings s = (Return (Z.of_nat (length (knowledge_base s))), s')
    ∧ api_calls s' = (api_calls s + length (knowledge_base s))%nat
    ∧ next_id s' = next_id s
    ∧ saved s' = knowledge_base s'
    ∧ length (knowledge_base s') = length (knowledge_base s)
    ∧ ∀ i item, knowledge_base s !! i = Some item →
        ∃ c, item !! "content" = Some c
          ∧ knowledge_base s' !! i
            = Some (<["embedding" := of_vector (embedding_at (api_calls s + i) c)]> item).

End CrudSpec.
End CrudSpec.

Module EngineSpec.
Section EngineSpec.
Context `{Number num, Provider num, PyLib num}.
Import AISentinel.

(** [item'] is [item] after a backfill: an item that had an embedding is
    as it was, and any item differs at most in its embedding. *)
Definition only_embedding_added (item item' : dict num) : Prop :=
  (truthy (dict_get item "embedding") = true → item' = item)
  ∧ ∀ k, k ≠ "embedding" → item' !! k = item !! k.

(** The item has an embedding in the sense of the backfill test. *)
Definition embedded (item : dict num) : Prop :=
  truthy (dict_get item "embedding") = true.

(** A successful embedding call is cached: the call returns the
    provider's vector, and the same call repeated in the state it leaves
    returns that vector again and leaves the state, with its count of
    provider calls, as it is. *)
Definition cached_after_success (txt : string) (e : list num) (s : AISentinel.t num) : Prop :=
  ∃ s1,
    get_embedding (VStr txt) s = (Return e, s1)
    ∧ api_calls s1 = Datatypes.S (api_calls s)
    ∧ get_embedding (VStr txt) s1 = (Return e, s1).

(** The request that [process_query] sends to the chat provider. *)
Definition request_of (query knowledge_context user_context : string) : ChatRequest :=
  {| model := "gpt-4o";
     messages :=
       [("system", system_prompt +:+ user_context);
        ("user", "Question: " +:+ query +:+ NL +:+ NL +:+
                 "Relevant Knowledge:" +:+ NL +:+ knowledge_context)];
     temperature := QArith_base.Qmake 7 10;
     response_format_json := true;
     max_tokens := None |}.

(** The answer object after the repair: the provider's object if it names
    its sources, and otherwise that object with the ids of the retrieved
    items as sources. *)
Definition with_source_ids (d : dict num) (ids : list (value num)) : dict num :=
  match d !! "sourceKnowledgeIds" with
  | Some _ => d
  | None => <["sourceKnowledgeIds" := VList ids]> d
  end.

End EngineSpec.
End EngineSpec.

Module GapsSpec.
Section GapsSpec.
Context `{Number num, Provider num, PyLib num}.
Import AISentinel.

(** The request that [generate_knowledge_gaps] sends for [queries]. *)
Definition request_of (queries : list string) : ChatRequest :=
  {| model := "gpt-4o";
     messages :=
       [("system", gaps_system_prompt);
        ("user", "Here is a list of recent user queries to our ERP support chatbot:" +:+
                 NL +:+ NL +:+ join NL ((λ query, "- " +:+ query) <$> queries) +:+
                 NL +:+ NL +:+
                 "What knowledge base articles should we create to fill gaps in our knowledge base?")];
     temperature := QArith_base.Qmake 8 10;
     response_format_json := false;
     max_tokens := None |}.

(** What the suggestions parsed from a reply look like: each has more
    than 10 characters, or there is exactly one, the whole reply stripped;
    and there is at least one unless the reply is blank. *)
Definition well_parsed (reply : string) (suggestions : list string) : Prop :=
  (Forall (λ sg, (10 < len sg)%nat) suggestions ∨ suggestions = [strip reply])
  ∧ (suggestions = [] → strip reply = EmptyString).

(** The contract of [generate_knowledge_gaps] in state [s]: it returns,
    after one provider call that is its only effect; when the provider
    fails the result is the fixed list of three topics, and otherwise it is
    parsed from the reply. *)
Definition gaps_contract (queries : list string) (s : AISentinel.t num) : Prop :=
  ∃ suggestions,
    generate_knowledge_gaps queries s = (Return suggestions, tick s)
    ∧ match chat_completions_create (api_calls s) (request_of queries) with
      | None => suggestions = fallback_suggestions
      | Some reply => suggestions = parse_suggestions reply ∧ well_parsed reply suggestions
      end.

(** A keyword as [extract_keywords] returns it: a run of at least two
    word characters, in lower case, that is not a stop word. *)
Definition keyword (w : string) : Prop :=
  (w ∉ stopwords) ∧ (1 < len w)%nat
  ∧ Forall (λ c, is_word_char c = true) (chars w)
  ∧ lower w = w.

End GapsSpec.
End GapsSpec.

Module FilterSpec.
Section FilterSpec.
Context `{Number num, Provider num, PyLib num}.
Import KnowledgeManager.

(** The category of the item is a string equal to [category] up to case. *)
Definition category_is (category : string) (item : dict num) : bool :=
  match item !! "category" with
  | Some (VStr g) => String.eqb (lower g) (lower category)
  | _ => false
  end.

(** The tags of the item are a list of strings one of which equals one of
    [tags] up to case. *)
Definition shares_tag (tags : list string) (item : dict num) : bool :=
  match item !! "tags" with
  | Some (VList l) =>
      existsb (λ t, existsb (λ v, match v with
                                  | VStr u => String.eqb (lower u) (lower t)
                                  | _ => false
                                  end) l) tags
  | _ => false
  end.

(** The tags of the item are absent or a list of strings. *)
Definition tags_well_formed (item : dict num) : Prop :=
  item !! "tags" = None ∨ ∃ l : list string, item !! "tags" = Some (VList (VStr <$> l)).

(** The category filter: on a store whose categories are strings it
    returns, in collection order and without embeddings, exactly the items
    whose category is the given one up to case; an item without a category
    makes it raise [KeyError], a category that is not a string
    [AttributeError]. *)
Definition category_filter_contract (category : string) (s : KnowledgeManager.t num) : Prop :=
  (Forall (λ item, ∃ g, item !! "category" = Some (VStr g)) (knowledge_base s) →
   get_items_by_category category s
   = Ok (without_embedding <$>
           filter (λ item, category_is category item = true) (knowledge_base s)))
  ∧ (∀ before item after,
       knowledge_base s = before ++ item :: after →
       Forall (λ item, ∃ g, item !! "category" = Some (VStr g)) before →
       (item !! "category" = None →
        get_items_by_category category s = Err (Builtin (KeyError "category")))
       ∧ (∀ v, item !! "category" = Some v → (∀ g, v ≠ VStr g) →
          get_items_by_category category s = Err AttributeError)).

End FilterSpec.
End FilterSpec.

(** The first element of [l], if any, is not one that [p] drops. *)
Definition starts_clean {A} (p : A → bool) (l : list A) : Prop :=
  match l with
  | [] => True
  | x :: _ => p x = false
  end.

Module CurationSpec.
Section CurationSpec.
Context `{Number num, Provider num, PyLib num}.
Import KnowledgeManager.

(** The number of times [w] occurs in [l]. *)
Definition occurrences (w : string) (l : list string) : nat :=
  length (filter (λ x, x = w) l).

(** The table of counts after the words [seen]: one entry per word seen,
    with the number of times it was seen. *)
Definition counts_of (seen : list string) (counts : list (string * nat)) : Prop :=
  NoDup counts.*1
  ∧ (∀ k n, (k, n) ∈ counts → k ∈ seen ∧ n = occurrences k seen)
  ∧ (∀ k, k ∈ seen → k ∈ counts.*1).

(** The keywords of the fallback of [suggest_tags]: the words of the
    lower-cased text that are longer than 3 characters and no stop words. *)
Definition keywords_of (text : string) : list string :=
  filter (λ word, (word ∉ stop_words) ∧ (3 < len word)%nat) (split_whitespace (lower text)).

(** [tags] are the most frequent of the keywords [kws]: at most five,
    distinct, each a keyword, in descending order of frequency, and no
    keyword left out is more frequent than one that is listed. *)
Definition most_frequent (kws tags : list string) : Prop :=
  (length tags ≤ 5)%nat
  ∧ NoDup tags
  ∧ (∀ t, t ∈ tags → t ∈ kws)
  ∧ StronglySorted (λ a b, (occurrences b kws ≤ occurrences a kws)%nat) tags
  ∧ (∀ w t, w ∈ kws → w ∉ tags → t ∈ tags → (occurrences w kws ≤ occurrences t kws)%nat)
  ∧ (length tags < 5 → ∀ w, w ∈ kws → w ∈ tags)%nat.

(** What [suggest_tags] does when the provider call fails: it returns the
    most frequent keywords of the text. *)
Definition falls_back_to_keywords (text : string) (s : KnowledgeManager.t num) : Prop :=
  ∃ tags,
    suggest_tags text s = (Return tags, tick s)
    ∧ most_frequent (keywords_of text) tags.

(** The categories of the stored items, in the order of the store. *)
Definition stored_categories (s : KnowledgeManager.t num) : list string :=
  omap (λ item : dict num,
          match item !! "category" with Some (VStr c) => Some c | _ => None end)
       (knowledge_base s).

(** Every stored item has a category, and it is a string. *)
Definition categorised (s : KnowledgeManager.t num) : Prop :=
  Forall (λ item : dict num, ∃ c, item !! "category" = Some (VStr c)) (knowledge_base s).

(** What [suggest_categories] does when the provider call fails: it
    returns up to three of the categories in use, each once. *)
Definition suggests_stored_categories (text : string) (s : KnowledgeManager.t num) : Prop :=
  ∃ l,
    suggest_categories text s = (Return l, tick s)
    ∧ l ≠ []
    ∧ NoDup l
    ∧ (∀ c, c ∈ l → c ∈ stored_categories s)
    ∧ length l = (3 `min` size (list_to_set (stored_categories s) : gset string))%nat.

(** A name as the parsing of a reply leaves it: not empty, and without
    white space at either end. *)
Definition well_named (c : string) : Prop :=
  c ≠ EmptyString ∧ strip c = c.

End CurationSpec.
End CurationSpec.

(** * The HTTP handlers of the knowledge base (src/api.py) *)

Module Api.
Section Api.
Context `{Number num, Provider num, PyLib num}.

(** [class KnowledgeItem(BaseModel)] *)
Record KnowledgeItem := {
  title : string;
  content : string;
  category : string;
  tags : list string
}.

(** [item.model_dump()]: the fields, in the order of the class. *)
Definition model_dump (item : KnowledgeItem) : list (string * value num) :=
  [("title", VStr (title item));
   ("content", VStr (content item));
   ("category", VStr (category item));
   ("tags", VList (VStr <$> tags item))].

(** What outlives a request: the collection that the file at
    [KNOWLEDGE_BASE_PATH] holds (the empty one when the file is missing or
    is not valid JSON), and the number of provider calls made so far. *)
Record world := {
  stored : list (dict num);
  calls : nat
}.

(** [get_knowledge_manager]: a new [KnowledgeManager], loaded from the
    file, for every request. *)
Definition get_knowledge_manager (w : world) : outcome (KnowledgeManager.t num) :=
  match KnowledgeManager.init (Some (stored w)) with
  | Return km =>
      Return {| KnowledgeManager.knowledge_base := KnowledgeManager.knowledge_base km;
                KnowledgeManager.next_id := KnowledgeManager.next_id km;
                KnowledgeManager.saved := KnowledgeManager.saved km;
                KnowledgeManager.api_calls := calls w |}
  | Raise e => Raise e
  end.

(** The [detail] of an [HTTPException]:
    [f"Knowledge item with ID {item_id} not found"], and
    [f"{what}: {str(e)}"] for the exception [e]. *)
Inductive detail :=
| NotFound (item_id : Z)
| Failed (what : string) (e : exn).

(** The body [{"message": f"Knowledge item with ID {item_id} deleted
    successfully"}]. *)
Inductive message :=
| Deleted (item_id : Z).

(** What a request ends in: the value the handler returns, the
    [HTTPException] it raises, or the exception its dependency raises. *)
Inductive response (A : Type) :=
| OK (body : A)
| HTTPException (status_code : Z) (d : detail)
| Unhandled (e : exn).
Arguments OK {A} body.
Arguments HTTPException {A} status_code d.
Arguments Unhandled {A} e.

Definition handler (A : Type) : Type :=
  KnowledgeManager.t num → response A * KnowledgeManager.t num.

(** [GET /api/knowledge] *)
Definition get_knowledge_items : handler (list (dict num)) :=
  λ km,
    match KnowledgeManager.get_all_items km with
    | (Return items, km') => (OK items, km')
    | (Raise e, km') =>
        (HTTPException 500 (Failed "Error getting knowledge items" e), km')
    end.

(** [GET /api/knowledge/{item_id}]; [if not item] holds of [None] and of
    an empty dict. *)
Definition get_knowledge_item (item_id : Z) : handler (dict num) :=
  λ km,
    match KnowledgeManager.get_item_by_id item_id km with
    | (Return item, km') =>
        match item with
        | Some d =>
            if truthy (VDict d) then (OK d, km')
            else (HTTPException 404 (NotFound item_id), km')
        | None => (HTTPException 404 (NotFound item_id), km')
        end
    | (Raise e, km') =>
        (HTTPException 500 (Failed "Error getting knowledge item" e), km')
    end.

(** [POST /api/knowledge] *)
Definition create_knowledge_item (item : KnowledgeItem) : handler (dict num) :=
  λ km,
    match KnowledgeManager.create_item (list_to_map (model_dump item)) km with
    | (Return created_item, km') => (OK created_item, km')
    | (Raise e, km') =>
        (HTTPException 500 (Failed "Error creating knowledge item" e), km')
    end.

(** [PUT /api/knowledge/{item_id}] *)
Definition update_knowledge_item (item_id : Z) (item : KnowledgeItem) : handler (dict num) :=
  λ km,
    match KnowledgeManager.update_item item_id (model_dump item) km with
    | (Return updated_item, km') =>
        match updated_item with
        | Some d =>
            if truthy (VDict d) then (OK d, km')
            else (HTTPException 404 (NotFound item_id), km')
        | None => (HTTPException 404 (NotFound item_id), km')
        end
    | (Raise e, km') =>
        (HTTPException 500 (Failed "Error updating knowledge item" e), km')
    end.

(** [DELETE /api/knowledge/{item_id}] *)
Definition delete_knowledge_item (item_id : Z) : handler message :=
  λ km,
    match KnowledgeManager.delete_item item_id km with
    | (Return success, km') =>
        if negb success then (HTTPException 404 (NotFound item_id), km')
        else (OK (Deleted item_id), km')
    | (Raise e, km') =>
        (HTTPException 500 (Failed "Error deleting knowledge item" e), km')
    end.

(** [POST /api/knowledge/suggest-categories] *)
Definition suggest_categories (text : string) : handler (list string) :=
  λ km,
    match KnowledgeManager.suggest_categories text km with
    | (Return categories, km') => (OK categories, km')
    | (Raise e, km') =>
        (HTTPException 500 (Failed "Error suggesting categories" e), km')
    end.

(** [POST /api/knowledge/suggest-tags] *)
Definition suggest_tags (text : string) : handler (list string) :=
  λ km,
    match KnowledgeManager.suggest_tags text km with
    | (Return tags, km') => (OK tags, km')
    | (Raise e, km') =>
        (HTTPException 500 (Failed "Error suggesting tags" e), km')
    end.

(** A request to a handler with [km = Depends(get_knowledge_manager)]: the
    dependency builds the manager, the handler runs on it, and what the
    manager wrote to the file and the provider calls it made remain. *)
Definition request {A} (h : handler A) (w : world) : response A * world :=
  match get_knowledge_manager w with
  | Return km =>
      let (r, km') := h km in
      (r, {| stored := KnowledgeManager.saved km';
             calls := KnowledgeManager.api_calls km' |})
  | Raise e => (Unhandled e, w)
  end.

End Api.
Arguments KnowledgeItem : clear implicits.
Arguments world : clear implicits.
Arguments OK {A} body.
Arguments HTTPException {A} status_code d.
Arguments Unhandled {A} e.
End Api.

Module ApiSpec.
Section ApiSpec.
Context `{Number num, Provider num, PyLib num}.
Import KnowledgeManager StoreSpec CrudSpec.

(** Every stored item has an integer id: a manager can be built on the
    file. *)
Definition loadable (w : Api.world num) : Prop :=
  Forall (λ item, is_Some (id_of item)) (Api.stored w).

(** The largest stored id plus one, 1 for an empty file. *)
Definition next_free_id (w : Api.world num) : Z :=
  max_default (omap id_of (Api.stored w)) 0 + 1.

(** The three requests that take an id answer 404 and change nothing. *)
Definition not_found (item_id : Z) (w : Api.world num) : Prop :=
  Api.request (Api.get_knowledge_item item_id) w
  = (Api.HTTPException 404 (Api.NotFound item_id), w)
  ∧ (∀ item, Api.request (Api.update_knowledge_item item_id item) w
             = (Api.HTTPException 404 (Api.NotFound item_id), w))
  ∧ Api.request (Api.delete_knowledge_item item_id) w
    = (Api.HTTPException 404 (Api.NotFound item_id), w).

(** The item a client sees for [item] stored under [item_id]. *)
Definition visible (item_id : Z) (item : Api.KnowledgeItem) : dict num :=
  {[ "id" := VInt item_id;
     "title" := VStr (Api.title item);
     "content" := VStr (Api.content item);
     "category" := VStr (Api.category item);
     "tags" := VList (VStr <$> Api.tags item) ]}.

(** The item the file holds for it, embedded at the provider call [n]. *)
Definition embedded_at (n : nat) (item_id : Z) (item : Api.KnowledgeItem) : dict num :=
  <["embedding" := of_vector (embedding_at n (VStr (Api.content item)))]>
    (visible item_id item).

(** A POST stores the item under the next free id, with one provider
    call, and a GET of that id afterwards serves it. *)
Definition creates_and_serves (item : Api.KnowledgeItem) (w : Api.world num) : Prop :=
  let w' := {| Api.stored := Api.stored w ++ [embedded_at (Api.calls w) (next_free_id w) item];
               Api.calls := Datatypes.S (Api.calls w) |} in
  Api.request (Api.create_knowledge_item item) w
  = (Api.OK (visible (next_free_id w) item), w')
  ∧ Api.request (Api.get_knowledge_item (next_free_id w)) w'
    = (Api.OK (visible (next_free_id w) item), w').

(** [item'] is the stored [item] after a PUT of [new] at the provider call
    [n]: the four fields are those of [new], the embedding is that of the
    new content, every other key is kept. *)
Definition replaced (new : Api.KnowledgeItem) (n : nat) (item item' : dict num) : Prop :=
  item' !! "title" = Some (VStr (Api.title new))
  ∧ item' !! "content" = Some (VStr (Api.content new))
  ∧ item' !! "category" = Some (VStr (Api.category new))
  ∧ item' !! "tags" = Some (VList (VStr <$> Api.tags new))
  ∧ item' !! "embedding" = Some (of_vector (embedding_at n (VStr (Api.content new))))
  ∧ (∀ k, k ∉ ["title"; "content"; "category"; "tags"; "embedding"] →
       item' !! k = item !! k).

(** A PUT on the first item with the id replaces it in place, with one
    provider call, and serves it without its embedding. *)
Definition replaces_first (item_id : Z) (new : Api.KnowledgeItem) (w : Api.world num)
    (before after : list (dict num)) (item : dict num) : Prop :=
  ∃ item',
    Api.request (Api.update_knowledge_item item_id new) w
    = (Api.OK (KnowledgeManager.without_embedding item'),
       {| Api.stored := before ++ item' :: after;
          Api.calls := Datatypes.S (Api.calls w) |})
    ∧ replaced new (Api.calls w) item item'.

(** A DELETE removes the first item with the id; if no other item has the
    id, the id is not found afterwards. *)
Definition deletes_and_forgets (item_id : Z) (w : Api.world num)
    (before after : list (dict num)) : Prop :=
  let w' := {| Api.stored := before ++ after; Api.calls := Api.calls w |} in
  Api.request (Api.delete_knowledge_item item_id) w = (Api.OK (Api.Deleted item_id), w')
  ∧ (other_ids item_id after → not_found item_id w').

(** POST, DELETE of the new item, POST: the second item gets the id of
    the first. *)
Definition reuses_deleted_id (first second : Api.KnowledgeItem) (w : Api.world num) : Prop :=
  ∃ w1 w3,
    Api.request (Api.create_knowledge_item first) w
    = (Api.OK (visible (next_free_id w) first), w1)
    ∧ Api.request (Api.delete_knowledge_item (next_free_id w)) w1
      = (Api.OK (Api.Deleted (next_free_id w)),
         {| Api.stored := Api.stored w; Api.calls := Api.calls w1 |})
    ∧ Api.request (Api.create_knowledge_item second)
        {| Api.stored := Api.stored w; Api.calls := Api.calls w1 |}
      = (Api.OK (visible (next_free_id w) second), w3).

(** The tag suggestion answers, writes nothing and makes one provider
    call. *)
Definition suggests_tags (text : string) (w : Api.world num) : Prop :=
  ∃ tags,
    Api.request (Api.suggest_tags text) w
    = (Api.OK tags, {| Api.stored := Api.stored w; Api.calls := Datatypes.S (Api.calls w) |}).

(** No request reaches its handler: each ends in the exception [e] of the
    dependency, and changes nothing. *)
Definition unreachable (e : exn) (w : Api.world num) : Prop :=
  ∀ A (h : Api.handler A), Api.request h w = (Api.Unhandled e, w).

(** The manager that a request builds in the world [w]. *)
Definition manager_of (w : Api.world num) : KnowledgeManager.t num :=
  {| knowledge_base := Api.stored w;
     next_id := next_free_id w;
     saved := Api.stored w;
     api_calls := Api.calls w |}.

End ApiSpec.
End ApiSpec.

(** The small knowledge base as the file, before any provider call. *)
Definition world_small : Api.world Z :=
  {| Api.stored := small_kb; Api.calls := 0 |}.

Definition invoice_note : Api.KnowledgeItem :=
  {| Api.title := "Invoices";
     Api.content := "How to post an invoice";
     Api.category := "Finance";
     Api.tags := ["invoice"; "posting"] |}.

Definition leave_note : Api.KnowledgeItem :=
  {| Api.title := "Leave";
     Api.content := "How to request leave";
     Api.category := "HR";
     Api.tags := [] |}.

(** A file in which the second item has no id. *)
Definition world_broken : Api.world Z :=
  {| Api.stored := [article 1 "a" (of_vector [3; 4]); {[ "title" := VStr "b" ]}];
     Api.calls := 0 |}.

(** ** Python floats

    IEEE doubles as an instance of [Number]. [+], [*], [/], [==] and [<]
    are the operations of the processor; a sum, product or quotient out of
    range is an infinity, not an exception. [x ** 2] and [x ** 0.5] are
    powers of the C library, which CPython turns into [OverflowError] when
    the result for a finite operand is infinite; they are taken here as the
    correctly rounded product and square root, which is exact at zeros,
    infinities and NaN and wherever the result is out of range. The
    operand of [** 0.5] is a sum of squares and never negative. An int in a
    vector is read as the float it converts to. *)
Module PythonFloat.
Import PrimFloat.

(** [x ** 2]: the square, and [OverflowError] when it is infinite and [x]
    is not. *)
Definition square (x : float) : option float :=
  let r := mul x x in
  if is_infinity r && negb (is_infinity x) then None else Some r.

(** [x ** 0.5] for a sum of squares [x], which is 0, positive, infinite or
    NaN: the square root, never out of range. A negative operand, which a
    sum of squares is not, has no float as its result. *)
Definition root (x : float) : option float :=
  if ltb x zero then None
  else Some (if eqb x zero then zero else sqrt x).

(** [float(z)], rounded to nearest. *)
Definition of_Z (z : Z) : float :=
  FloatOps.SF2Prim (SpecFloat.binary_normalize FloatOps.prec FloatOps.emax z 0 false).

End PythonFloat.

#[export] Instance float_number : Number PrimFloat.float := {|
  nzero := PrimFloat.zero;
  of_int := PythonFloat.of_Z;
  nadd := λ x y, Some (PrimFloat.add x y);
  nmul := λ x y, Some (PrimFloat.mul x y);
  ndiv := λ x y, Some (PrimFloat.div x y);
  nsquare := PythonFloat.square;
  nroot := PythonFloat.root;
  neqb := PrimFloat.eqb;
  nltb := PrimFloat.ltb
|}.

(** A provider whose embedding of every text is [embedding], and whose
    chat is down. *)
Definition provider_embedding (embedding : list PrimFloat.float) : Provider PrimFloat.float := {|
  embeddings_create := λ _ _, Some embedding;
  chat_completions_create := λ _ _, None
|}.

Definition lib_float : PyLib PrimFloat.float := {|
  json_loads := λ _, None;
  repr := λ _, "?";
  findall_list_items := λ _, [];
  findall_quoted := λ _, [];
  findall_after_category := λ _, []
|}.

Module FloatStore.
Import PrimFloat.

(** An item as the knowledge-base file holds it, with its embedding. *)
Definition embedded_article (id : Z) (embedding : list PrimFloat.float)
  : dict PrimFloat.float :=
  {[ "id" := VInt id;
     "title" := VStr "t";
     "content" := VStr "c";
     "category" := VStr "General";
     "embedding" := of_vector embedding ]}.

(** Seven items: for the query vector [[3.0, 4.0]] the scores are
    [0.96, 0.96, NaN, 0.96, 0.96, 0.96, 1.0]. *)
Definition nan_kb : list (dict PrimFloat.float) :=
  [embedded_article 1 [4; 3]%float;
   embedded_article 2 [4; 3]%float;
   embedded_article 3 [PrimFloat.nan];
   embedded_article 4 [4; 3]%float;
   embedded_article 5 [4; 3]%float;
   embedded_article 6 [4; 3]%float;
   embedded_article 7 [3; 4]%float].

(** One item whose embedding has a square out of range. *)
Definition huge_kb : list (dict PrimFloat.float) :=
  [embedded_article 1 [1e200]%float].

End FloatStore.

(** The ids of a result. *)
Definition ids_of {num} (r : option (list (dict num))) : list (option (value num)) :=
  (λ item : dict num, item !! "id") <$> default [] r.

(** * Properties *)

(** ** Cosine similarity *)

Section Cosine.
Context `{Number num}.

Lemma arith_raises (o : option num) (e : exn) : arith o = Raise e → e = OverflowError.
Proof. destruct o; [done|]. by intros [= <-]. Qed.

Lemma sum_from_raises {A} (f : A → outcome num) (l : list A) (acc : num) (e : exn) :
  (∀ x e, f x = Raise e → e = OverflowError) →
  sum_from acc f l = Raise e → e = OverflowError.
Proof.
  intros Hf. revert acc. induction l as [|x l IH]; intros acc; simpl; [done|].
  destruct (f x) as [term|e'] eqn:Hx; [|intros [= <-]; by eapply Hf].
  destruct (nadd acc term) as [acc'|]; simpl; [apply IH|by intros [= <-]].
Qed.

Lemma dot_product_raises (a b : list num) (e : exn) :
  AISentinel.dot_product a b = Raise e → e = OverflowError.
Proof. apply sum_from_raises. intros p e'. apply arith_raises. Qed.

Lemma magnitude_raises (a : list num) (e : exn) :
  AISentinel.magnitude a = Raise e → e = OverflowError.
Proof.
  unfold AISentinel.magnitude.
  destruct (sum _ a) as [squares|e'] eqn:Hsum.
  - apply arith_raises.
  - intros [= <-]. revert Hsum. apply sum_from_raises. intros x e''. apply arith_raises.
Qed.

(** The only exception of [cosine_similarity] is [OverflowError]: the
    division is not reached with a zero divisor. *)
Lemma cosine_similarity_raises (a b : list num) (e : exn) :
  AISentinel.cosine_similarity a b = Raise e → e = OverflowError.
Proof.
  unfold AISentinel.cosine_similarity.
  destruct (AISentinel.dot_product a b) as [dot|e1] eqn:Hdot;
    [|intros [= <-]; by eapply dot_product_raises].
  destruct (AISentinel.magnitude a) as [ma|e2] eqn:Hma;
    [|intros [= <-]; by eapply magnitude_raises].
  destruct (AISentinel.magnitude b) as [mb|e3] eqn:Hmb;
    [|intros [= <-]; by eapply magnitude_raises].
  destruct (nmul ma mb) as [product|]; simpl; [|by intros [= <-]].
  unfold true_div. destruct (neqb product nzero); [done|]. apply arith_raises.
Qed.

Lemma cosine_similarity_returns_or_overflows (a b : list num) :
  (∃ r, AISentinel.cosine_similarity a b = Return r)
  ∨ AISentinel.cosine_similarity a b = Raise OverflowError.
Proof.
  destruct (AISentinel.cosine_similarity a b) as [r|e] eqn:Hcos; [left; by eexists|].
  right. by rewrite (cosine_similarity_raises a b e Hcos).
Qed.




End Cosine.


(** ** Invariants of monadic code *)

Section Preserves.
Context {S : Type} (P : S → Prop).
#[local] Abbreviation preserves := (preserves P).

Lemma preserves_ret {A} (a : A) : preserves (mret a).
Proof. by intros s Hs. Qed.

Lemma preserves_raise {A} (e : exn) : preserves (raise e : M S A).
Proof. by intros s Hs. Qed.

Lemma preserves_lift {A} (o : outcome A) : preserves (lift o).
Proof. by intros s Hs. Qed.

Lemma preserves_get_state : preserves get_state.
Proof. by intros s Hs. Qed.

Lemma preserves_modify (f : S → S) : (∀ s, P s → P (f s)) → preserves (modify f).
Proof. intros Hf s Hs. by apply Hf. Qed.

Lemma preserves_bind {A B} (m : M S A) (f : A → M S B) :
  preserves m → (∀ a, preserves (f a)) → preserves (m ≫= f).
Proof.
  intros Hm Hf s Hs. unfold mbind, M_bind.
  specialize (Hm s Hs). destruct (m s) as [[a|e] s']; simpl in *; [|done].
  by apply Hf.
Qed.

(** With the state at hand: the continuation of [get_state] may use that
    the state it is given satisfies [P]. *)
Lemma preserves_bind_state {B} (f : S → M S B) :
  (∀ s, P s → P (f s s).2) → preserves (get_state ≫= f).
Proof. intros Hf s Hs. unfold mbind, M_bind, get_state. by apply Hf. Qed.

Lemma preserves_try_except {A} (body : M S A) (handler : exn → M S A) :
  preserves body → (∀ e, preserves (handler e)) → preserves (try_except body handler).
Proof.
  intros Hb Hh s Hs. unfold try_except.
  specialize (Hb s Hs). destruct (body s) as [[a|e] s']; simpl in *; [done|].
  by apply Hh.
Qed.

Lemma preserves_mapM {A B} (f : A → M S B) (l : list A) :
  (∀ x, preserves (f x)) → preserves (mapM f l).
Proof.
  intros Hf. induction l as [|x l IH]; simpl.
  - apply preserves_ret.
  - apply preserves_bind; [apply Hf|]. intros y.
    apply preserves_bind; [apply IH|]. intros ys. apply preserves_ret.
Qed.

Lemma preserves_for_each {A} (f : A → M S unit) (l : list A) :
  (∀ x, preserves (f x)) → preserves (for_each f l).
Proof.
  intros Hf. induction l as [|x l IH]; simpl.
  - apply preserves_ret.
  - apply preserves_bind; [apply Hf|]. intros _. apply IH.
Qed.

End Preserves.

(** ** What a search and a query keep

    A property of the engine's state that [get_embedding], the backfill of
    one item and the chat call keep is kept by a search and by
    [process_query]. *)

Section Frames.
Context `{Number num, Provider num, PyLib num}.
Import AISentinel SearchSpec.

Lemma score_item_run (qe : list num) (item : dict num) (s : AISentinel.t num) :
  score_item qe item s
  = (match item_score qe item with
     | Return c => Return (item, c)
     | Raise e => Raise e
     end, s).
Proof.
  unfold score_item, item_score, mbind, M_bind, lift, mret, M_ret.
  destruct (getitem item "embedding") as [e|x]; [|done].
  destruct (as_vector e) as [v|x]; [|done].
  by destruct (cosine_similarity qe v).
Qed.

Lemma mapM_score_item_state (qe : list num) (l : list (dict num)) (s : AISentinel.t num) :
  (mapM (score_item qe) l s).2 = s.
Proof.
  induction l as [|item l IH]; [done|].
  simpl. unfold mbind, M_bind. rewrite score_item_run.
  destruct (item_score qe item); [|done].
  destruct (mapM (score_item qe) l s) as [[ys|e] s1]; simpl in *; by subst.
Qed.

Lemma search_knowledge_base_preserves (P : AISentinel.t num → Prop)
    (query : string) (top_k : Z) :
  (∀ text, preserves P (AISentinel.get_embedding text)) →
  (∀ i, preserves P (AISentinel.ensure_embedding i)) →
  preserves P (AISentinel.search_knowledge_base query top_k).
Proof.
  intros Hget Hensure. unfold AISentinel.search_knowledge_base.
  apply preserves_bind; [apply Hget|]. intros qe.
  apply preserves_bind; [apply preserves_get_state|]. intros s0.
  apply preserves_bind; [by apply preserves_for_each|].
  intros _. apply preserves_bind; [apply preserves_get_state|]. intros s1.
  apply preserves_bind; [|intros; apply preserves_ret].
  intros s Hs. by rewrite mapM_score_item_state.
Qed.

Lemma process_query_preserves (P : AISentinel.t num → Prop)
    (query : string) (user_info : option (dict num)) :
  (∀ text, preserves P (AISentinel.get_embedding text)) →
  (∀ i, preserves P (AISentinel.ensure_embedding i)) →
  (∀ req, preserves P (AISentinel.call_chat req)) →
  preserves P (AISentinel.process_query query user_info).
Proof.
  intros Hget Hensure Hchat. unfold AISentinel.process_query.
  apply preserves_bind; [by apply search_knowledge_base_preserves|]. intros items.
  apply preserves_bind.
  { unfold AISentinel.knowledge_context_of.
    apply preserves_bind; [|intros; apply preserves_ret].
    apply preserves_mapM. intros item. unfold AISentinel.render_item.
    repeat (apply preserves_bind; [apply preserves_lift|]; intros ?).
    apply preserves_ret. }
  intros ctx. apply preserves_try_except; [|intros; apply preserves_ret].
  unfold AISentinel.answer.
  apply preserves_bind; [apply Hchat|]. intros content.
  apply preserves_bind; [apply preserves_lift|]. intros json.
  apply preserves_bind.
  { apply preserves_mapM. intros item. apply preserves_lift. }
  intros ids. apply preserves_bind; [apply preserves_lift|]. intros present.
  destruct (negb present); [apply preserves_lift|apply preserves_ret].
Qed.

End Frames.

(** ** The embedding cache *)

Section Cache.
Context `{Number num, Provider num, PyLib num}.

Import AISentinel SentinelSpec.

Lemma cache_sound_tick s : cache_sound s → cache_sound (tick s).
Proof.
  intros Hs txt v Hv. destruct (Hs txt v Hv) as (n & Hn & He).
  exists n. simpl. split; [lia|done].
Qed.

Lemma cache_sound_set_knowledge_base f s :
  cache_sound s → cache_sound (set_knowledge_base f s).
Proof. done. Qed.

(** The four ways [get_embedding] can go. *)
Lemma get_embedding_hit s txt v :
  embedding_cache s !! txt = Some v →
  get_embedding (VStr txt) s = (Return v, s).
Proof.
  intros Hv. unfold get_embedding, mbind, M_bind, get_state. by rewrite Hv.
Qed.

Lemma get_embedding_miss_success s txt e :
  embedding_cache s !! txt = None →
  embeddings_create (api_calls s) (VStr txt) = Some e →
  get_embedding (VStr txt) s
  = (Return e, set_embedding_cache (<[txt := e]>) (tick s)).
Proof.
  intros Hc He.
  unfold get_embedding, mbind, M_bind, get_state, try_except, call_embeddings.
  rewrite Hc. simpl. by rewrite He.
Qed.

Lemma get_embedding_miss_failure s txt :
  embedding_cache s !! txt = None →
  embeddings_create (api_calls s) (VStr txt) = None →
  get_embedding (VStr txt) s = (Return zero_embedding, tick s).
Proof.
  intros Hc He.
  unfold get_embedding, mbind, M_bind, get_state, try_except, call_embeddings.
  rewrite Hc. simpl. by rewrite He.
Qed.

Lemma get_embedding_cache_sound text : preserves cache_sound (get_embedding text).
Proof.
  intros s Hs. destruct text as [| | | |txt| |]; try done.
  destruct (embedding_cache s !! txt) as [v|] eqn:Hc.
  { by rewrite (get_embedding_hit _ _ _ Hc). }
  destruct (embeddings_create (api_calls s) (VStr txt)) as [e|] eqn:He.
  - rewrite (get_embedding_miss_success _ _ _ Hc He). simpl.
    intros txt' v' Hv'. simpl in Hv'.
    destruct (decide (txt = txt')) as [->|Hne].
    + rewrite lookup_insert_eq in Hv'. injection Hv' as <-.
      exists (api_calls s). split; [simpl; lia|done].
    + rewrite lookup_insert_ne in Hv' by done.
      destruct (Hs txt' v' Hv') as (n & Hn & Hen).
      exists n. split; [simpl; lia|done].
  - rewrite (get_embedding_miss_failure _ _ Hc He). simpl.
    by apply cache_sound_tick.
Qed.

Lemma call_chat_cache_sound req : preserves cache_sound (call_chat req).
Proof.
  intros s Hs. unfold call_chat.
  destruct (chat_completions_create _ _); simpl; by apply cache_sound_tick.
Qed.

Lemma ensure_embedding_cache_sound i : preserves cache_sound (ensure_embedding i).
Proof.
  unfold ensure_embedding. apply preserves_bind_state. intros s Hs.
  destruct (knowledge_base s !! i) as [item|]; [|done].
  destruct (truthy _); [done|].
  revert s Hs. apply preserves_bind; [apply preserves_lift|]. intros content.
  apply preserves_bind; [apply get_embedding_cache_sound|]. intros e.
  by apply preserves_modify.
Qed.

Lemma search_knowledge_base_cache_sound query top_k :
  preserves cache_sound (search_knowledge_base query top_k).
Proof.
  apply search_knowledge_base_preserves.
  - apply get_embedding_cache_sound.
  - apply ensure_embedding_cache_sound.
Qed.

Lemma process_query_cache_sound query user_info :
  preserves cache_sound (process_query query user_info).
Proof.
  apply process_query_preserves.
  - apply get_embedding_cache_sound.
  - apply ensure_embedding_cache_sound.
  - apply call_chat_cache_sound.
Qed.

Lemma run_cache_sound calls s : cache_sound s → cache_sound (run calls s).
Proof.
  revert s. induction calls as [|c calls IH]; intros s Hs; [done|].
  simpl. apply IH. destruct c; simpl.
  - by apply get_embedding_cache_sound.
  - by apply search_knowledge_base_cache_sound.
  - by apply process_query_cache_sound.
Qed.

(** C10. The embedding cache only ever holds vectors returned by a
    successful provider call: that holds after any sequence of calls on a
    freshly built engine. When the provider call fails on a text that is
    not cached, [get_embedding] returns the zero vector of length 1536 and
    leaves the cache as it was, so the text is still not cached; the next
    call with the same text asks the provider again: its result is the
    provider's answer to that new call, which is then cached, or the zero
    vector once more, and either way one more provider call is counted. *)
Theorem embedding_cache_holds_only_provider_vectors
    (file : option (list (dict num))) (calls : list call) (txt : string) :
  let s := run calls (init file) in
  cache_sound s
  ∧ (embedding_cache s !! txt = None →
     embeddings_create (api_calls s) (VStr txt) = None →
     fails_then_retries txt s).
Proof.
  intros s. split.
  - apply run_cache_sound. intros k v Hv. simpl in Hv. by rewrite lookup_empty in Hv.
  - intros Hc He. exists (tick s).
    split; [by apply get_embedding_miss_failure|].
    split; [apply length_replicate|]. split; [done|]. split; [done|].
    destruct (embeddings_create (api_calls (tick s)) (VStr txt)) as [e|] eqn:He'.
    + exists (set_embedding_cache (<[txt := e]>) (tick (tick s))).
      split; [done|]. split; [|done].
      by apply get_embedding_miss_success.
    + exists (tick (tick s)). split; [done|]. split; [|done].
      by apply get_embedding_miss_failure.
Qed.

End Cache.

(** The provider fails on the first call and answers the second. *)
Lemma embedding_cache_retry_example :
  @SentinelSpec.fails_then_retries Z Z_number (provider_flaky "{}") "reset"
    (AISentinel.init (Some [])).
Proof.
  apply (proj2 (@embedding_cache_holds_only_provider_vectors
                  Z Z_number (provider_flaky "{}") lib_plain (Some []) [] "reset")).
  - reflexivity.
  - reflexivity.
Defined.

(** ** The stable descending sort *)

Section Sorting.
Context {A K : Type} (ltb : K → K → bool) (key : A → K).

Lemma insert_desc_perm (x : A) (l : list A) : insert_desc ltb key x l ≡ₚ x :: l.
Proof.
  induction l as [|y l IH]; simpl; [done|].
  destruct (ltb (key x) (key y)); [|done].
  rewrite IH. apply Permutation_swap.
Qed.

Lemma sort_reverse_perm (l : list A) : sort_reverse ltb key l ≡ₚ l.
Proof.
  induction l as [|x l IH]; simpl; [done|].
  rewrite insert_desc_perm. by f_equiv.
Qed.

Lemma sort_reverse_length (l : list A) : length (sort_reverse ltb key l) = length l.
Proof. by rewrite sort_reverse_perm. Qed.

(** With an asymmetric [<] whose complement is transitive, the result is in
    descending key order: no element is smaller than a later one. *)
Lemma insert_desc_sorted (x : A) (l : list A) :
  (∀ a b, ltb a b = true → ltb b a = false) →
  (∀ a b c, ltb a b = false → ltb b c = false → ltb a c = false) →
  StronglySorted (λ a b, ltb (key a) (key b) = false) l →
  StronglySorted (λ a b, ltb (key a) (key b) = false) (insert_desc ltb key x l).
Proof.
  intros Hasym Htrans. induction l as [|y l IH]; intros Hl; simpl.
  - by repeat constructor.
  - apply StronglySorted_cons in Hl as [Hy Hl].
    destruct (ltb (key x) (key y)) eqn:Hxy.
    + apply StronglySorted_cons. split; [|by apply IH].
      rewrite insert_desc_perm. constructor; [by apply Hasym|done].
    + apply StronglySorted_cons. split; [|by apply StronglySorted_cons].
      constructor; [done|].
      eapply Forall_impl; [exact Hy|]. intros z Hz. simpl in Hz. by eapply Htrans.
Qed.

Lemma sort_reverse_sorted (l : list A) :
  (∀ a b, ltb a b = true → ltb b a = false) →
  (∀ a b c, ltb a b = false → ltb b c = false → ltb a c = false) →
  StronglySorted (λ a b, ltb (key a) (key b) = false) (sort_reverse ltb key l).
Proof.
  intros Hasym Htrans. induction l as [|x l IH]; simpl.
  - constructor.
  - by apply insert_desc_sorted.
Qed.

End Sorting.

(** Stability, on a list whose elements carry their original position. No
    property of [<] is needed. *)
Section Stability.
Context {A K : Type} (ltb : K → K → bool) (key : A → K).
#[local] Abbreviation overtaken := (overtaken ltb key).

Lemma insert_desc_overtaken (x : nat * A) (l : list (nat * A)) :
  Forall (λ q, (x.1 < q.1)%nat) l →
  StronglySorted overtaken l →
  StronglySorted overtaken (insert_desc ltb (key ∘ snd) x l).
Proof.
  induction l as [|y l IH]; intros Hx Hl; simpl.
  - by repeat constructor.
  - apply Forall_cons in Hx as [Hxy Hx].
    apply StronglySorted_cons in Hl as [Hy Hl].
    destruct (ltb (key x.2) (key y.2)) eqn:Hlt.
    + apply StronglySorted_cons. split; [|by apply IH].
      rewrite insert_desc_perm. constructor; [|done].
      by intros _.
    + apply StronglySorted_cons. split; [|by apply StronglySorted_cons].
      constructor.
      * intros Hlt'. simpl in *. lia.
      * eapply Forall_impl; [exact Hx|]. intros z Hz Hlt'. simpl in *. lia.
Qed.

Lemma sort_reverse_overtaken (l : list (nat * A)) :
  StronglySorted (λ p q, (p.1 < q.1)%nat) l →
  StronglySorted overtaken (sort_reverse ltb (key ∘ snd) l).
Proof.
  induction l as [|x l IH]; intros Hl; simpl.
  - constructor.
  - apply StronglySorted_cons in Hl as [Hx Hl].
    apply insert_desc_overtaken; [|by apply IH].
    by rewrite sort_reverse_perm.
Qed.

Lemma insert_desc_tagged (x : nat * A) (l : list (nat * A)) :
  (insert_desc ltb (key ∘ snd) x l).*2 = insert_desc ltb key x.2 (l.*2).
Proof.
  induction l as [|y l IH]; [done|].
  rewrite fmap_cons. cbn [insert_desc compose].
  destruct (ltb (key x.2) (key y.2)); [|done].
  by rewrite fmap_cons, IH.
Qed.

Lemma sort_reverse_tagged (l : list (nat * A)) :
  (sort_reverse ltb (key ∘ snd) l).*2 = sort_reverse ltb key (l.*2).
Proof.
  unfold sort_reverse. induction l as [|x l IH]; [done|].
  cbn [foldr]. by rewrite insert_desc_tagged, IH, fmap_cons.
Qed.

End Stability.

(** ** The library sort

    The sort of the library permutes its list whatever [<] is, and on keys
    that [<] orders it is the stable descending sort. *)
Section ListSort.
Context {A K : Type} (ltb : K → K → bool) (key : A → K).

#[local] Abbreviation inserted := (foldl (λ acc x, insert_desc ltb key x acc)).

Lemma binary_insert_perm (sorted : list A) (pivot : A) :
  binary_insert ltb key sorted pivot ≡ₚ pivot :: sorted.
Proof.
  unfold binary_insert. rewrite <- Permutation_middle. by rewrite take_drop.
Qed.

Lemma binarysort_perm (sorted rest : list A) :
  binarysort ltb key sorted rest ≡ₚ sorted ++ rest.
Proof.
  unfold binarysort. revert sorted.
  induction rest as [|x rest IH]; intros sorted; simpl; [by rewrite app_nil_r|].
  rewrite IH, binary_insert_perm. by rewrite <- Permutation_middle.
Qed.

Lemma list_sort_perm (l : list A) : list_sort ltb key l ≡ₚ l.
Proof.
  unfold list_sort. destruct (count_run ltb key l) as [n descending].
  rewrite binarysort_perm.
  destruct descending; [rewrite reverse_Permutation|]; by rewrite take_drop.
Qed.

Lemma list_sort_reverse_perm (l : list A) : list_sort_reverse ltb key l ≡ₚ l.
Proof.
  unfold list_sort_reverse.
  by rewrite reverse_Permutation, list_sort_perm, reverse_Permutation.
Qed.

Lemma list_sort_reverse_length (l : list A) :
  length (list_sort_reverse ltb key l) = length l.
Proof. by rewrite list_sort_reverse_perm. Qed.

Lemma sort_reverse_inserted (l : list A) :
  sort_reverse ltb key l = inserted [] (reverse l).
Proof.
  unfold sort_reverse. induction l as [|x l IH]; [done|].
  rewrite reverse_cons, foldl_app. simpl. by rewrite IH.
Qed.

(** An element passes the elements greater than it. *)
Lemma insert_desc_pass (x : A) (l1 l2 : list A) :
  Forall (λ y, ltb (key x) (key y) = true) l1 →
  insert_desc ltb key x (l1 ++ l2) = l1 ++ insert_desc ltb key x l2.
Proof.
  induction 1 as [|y l1 Hy _ IH]; [done|]. simpl. by rewrite Hy, IH.
Qed.

Lemma insert_desc_stop (x : A) (l : list A) :
  Forall (λ y, ltb (key x) (key y) = false) l →
  insert_desc ltb key x l = x :: l.
Proof. destruct 1 as [|y l Hy _]; [done|]. simpl. by rewrite Hy. Qed.

(** The binary search finds the border between the elements that the
    pivot is not smaller than and those it is smaller than. *)
Lemma bisect_border (pivot : A) (s1 s2 : list A) (fuel l r : nat) :
  Forall (λ y, ltb (key pivot) (key y) = false) s1 →
  Forall (λ y, ltb (key pivot) (key y) = true) s2 →
  (l ≤ length s1)%nat → (length s1 ≤ r)%nat → (r ≤ length (s1 ++ s2))%nat →
  (r - l ≤ fuel)%nat →
  bisect ltb key fuel pivot (s1 ++ s2) l r = length s1.
Proof.
  intros Hs1 Hs2. revert l r.
  induction fuel as [|fuel IH]; intros l r Hl Hr Hlen Hfuel; cbn [bisect]; [lia|].
  destruct (Nat.ltb_spec l r) as [Hlt|Hge]; [|lia].
  assert ((r - l) / 2 < r - l)%nat as Hhalf by (apply Nat.div_lt; lia).
  generalize dependent ((r - l) / 2)%nat. intros h Hhalf.
  destruct (decide (l + h < length s1)%nat) as [Hp|Hp].
  - destruct (lookup_lt_is_Some_2 s1 (l + h) Hp) as [y Hy].
    rewrite (lookup_app_l_Some _ _ _ _ Hy).
    rewrite Forall_forall in Hs1.
    rewrite (Hs1 y (list_elem_of_lookup_2 _ _ _ Hy)).
    apply IH; lia.
  - rewrite length_app in Hlen.
    destruct (lookup_lt_is_Some_2 s2 (l + h - length s1)) as [y Hy]; [lia|].
    rewrite lookup_app_r by lia. rewrite Hy.
    rewrite Forall_forall in Hs2.
    rewrite (Hs2 y (list_elem_of_lookup_2 _ _ _ Hy)).
    apply IH; rewrite ?length_app; lia.
Qed.

Lemma binary_insert_border (pivot : A) (s1 s2 : list A) :
  Forall (λ y, ltb (key pivot) (key y) = false) s1 →
  Forall (λ y, ltb (key pivot) (key y) = true) s2 →
  binary_insert ltb key (s1 ++ s2) pivot = s1 ++ pivot :: s2.
Proof.
  intros Hs1 Hs2. unfold binary_insert.
  rewrite (bisect_border pivot s1 s2) by (done || rewrite ?length_app; lia).
  by rewrite take_app_length, drop_app_length.
Qed.

Section Ordered.
Context (dom : K → Prop).
Context (ltb_asym : ∀ a b, dom a → dom b → ltb a b = true → ltb b a = false).
Context (ltb_neg_trans : ∀ a b c, dom a → dom b → dom c →
                           ltb a b = false → ltb b c = false → ltb a c = false).

#[local] Abbreviation descending := (StronglySorted (λ a b, ltb (key a) (key b) = false)).
#[local] Abbreviation within := (Forall (λ x, dom (key x))).

Lemma ltb_trans (a b c : K) :
  dom a → dom b → dom c → ltb a b = true → ltb b c = true → ltb a c = true.
Proof.
  intros Ha Hb Hc Hab Hbc. destruct (ltb a c) eqn:Hac; [done|].
  pose proof (ltb_asym b c Hb Hc Hbc) as Hcb.
  by rewrite (ltb_neg_trans a c b Ha Hc Hb Hac Hcb) in Hab.
Qed.

(** A descending list splits, for each element, into the elements
    greater than it and the others. *)
Lemma descending_split (x : A) (l : list A) :
  dom (key x) → within l → descending l →
  ∃ l1 l2, l = l1 ++ l2
    ∧ Forall (λ y, ltb (key x) (key y) = true) l1
    ∧ Forall (λ y, ltb (key x) (key y) = false) l2.
Proof.
  intros Hx Hin Hl. induction Hl as [|y l Hl IH Hy]; [by exists [], []|].
  apply Forall_cons in Hin as [Hdy Hin].
  destruct (ltb (key x) (key y)) eqn:Hxy.
  - destruct (IH Hin) as (l1 & l2 & -> & H1 & H2).
    exists (y :: l1), l2. split; [done|]. split; [by constructor|done].
  - exists [], (y :: l). split; [done|]. split; [constructor|].
    constructor; [done|]. rewrite Forall_forall in Hy, Hin |- *.
    intros z Hz. apply (ltb_neg_trans _ (key y)); auto.
Qed.

Lemma insert_desc_descending (x : A) (l : list A) :
  dom (key x) → within l → descending l → descending (insert_desc ltb key x l).
Proof.
  intros Hx Hin Hl.
  destruct (descending_split x l Hx Hin Hl) as (l1 & l2 & -> & H1 & H2).
  rewrite (insert_desc_pass x l1 l2 H1), (insert_desc_stop x l2 H2).
  apply Forall_app in Hin as [Hin1 Hin2].
  apply StronglySorted_app in Hl as (Hcross & Hl1 & Hl2).
  apply StronglySorted_app. split; [|split; [done|]].
  - intros y Hy z Hz. apply elem_of_cons in Hz as [->|Hz]; [|by apply Hcross].
    rewrite Forall_forall in H1, Hin1.
    apply ltb_asym; auto.
  - constructor; [done|]. done.
Qed.

Lemma insert_desc_within (x : A) (l : list A) :
  dom (key x) → within l → within (insert_desc ltb key x l).
Proof. intros Hx Hl. rewrite insert_desc_perm. by constructor. Qed.

(** The binary insertion into an ascending list is the insertion into
    its descending mirror. *)
Lemma binary_insert_reverse (x : A) (l : list A) :
  dom (key x) → within l → descending l →
  binary_insert ltb key (reverse l) x = reverse (insert_desc ltb key x l).
Proof.
  intros Hx Hin Hl.
  destruct (descending_split x l Hx Hin Hl) as (l1 & l2 & -> & H1 & H2).
  rewrite (insert_desc_pass x l1 l2 H1), (insert_desc_stop x l2 H2).
  rewrite !reverse_app, reverse_cons, <- app_assoc. simpl.
  apply binary_insert_border; by apply Forall_reverse.
Qed.

Lemma binarysort_reverse (rest l : list A) :
  within rest → within l → descending l →
  binarysort ltb key (reverse l) rest = reverse (inserted l rest).
Proof.
  unfold binarysort. revert l.
  induction rest as [|x rest IH]; intros l Hrest Hin Hl; [done|].
  apply Forall_cons in Hrest as [Hx Hrest]. simpl.
  rewrite binary_insert_reverse by done.
  apply IH; [done|by apply insert_desc_within|by apply insert_desc_descending].
Qed.

Lemma inserted_descending (rest l : list A) :
  within rest → within l → descending l →
  within (inserted l rest) ∧ descending (inserted l rest).
Proof.
  revert l. induction rest as [|x rest IH]; intros l Hrest Hin Hl; [done|].
  apply Forall_cons in Hrest as [Hx Hrest]. simpl.
  apply IH; [done|by apply insert_desc_within|by apply insert_desc_descending].
Qed.

(** An ascending run is inserted in front, element by element. *)
Lemma inserted_run_ascending (prev : A) (acc l : list A) :
  inserted (prev :: acc) (take (run_ascending ltb key prev l) l)
  = reverse (take (run_ascending ltb key prev l) l) ++ prev :: acc.
Proof.
  revert prev acc. induction l as [|x l IH]; intros prev acc; [done|].
  simpl. destruct (ltb (key x) (key prev)) eqn:Hx; [done|].
  simpl. rewrite Hx, IH, reverse_cons, <- app_assoc. done.
Qed.

(** A strictly descending run is inserted at the end, element by
    element. *)
Lemma inserted_run_descending (prev : A) (acc l : list A) :
  dom (key prev) → within acc → within l →
  Forall (λ y, ltb (key prev) (key y) = true) acc →
  inserted (acc ++ [prev]) (take (run_descending ltb key prev l) l)
  = acc ++ prev :: take (run_descending ltb key prev l) l.
Proof.
  revert prev acc. induction l as [|x l IH]; intros prev acc Hprev Hacc Hl Hlt; [done|].
  apply Forall_cons in Hl as [Hx Hl].
  simpl. destruct (ltb (key x) (key prev)) eqn:Hxp; [|done].
  simpl.
  assert (Forall (λ y, ltb (key x) (key y) = true) (acc ++ [prev])) as Hpass.
  { apply Forall_app. split; [|by constructor].
    rewrite Forall_forall in Hlt, Hacc |- *. intros y Hy.
    apply (ltb_trans _ (key prev)); auto. }
  rewrite <- (app_nil_r (acc ++ [prev])) at 1.
  rewrite (insert_desc_pass x _ [] Hpass). simpl.
  rewrite IH; [by rewrite <- app_assoc|done| |done|done].
  apply Forall_app. split; [done|by constructor].
Qed.

(** The run found at the start of the list, made ascending, is the
    mirror of its elements inserted one by one. *)
Lemma count_run_inserted (l : list A) :
  within l →
  let (n, descending) := count_run ltb key l in
  reverse (if descending then reverse (take n l) else take n l) = inserted [] (take n l).
Proof.
  intros Hl. destruct l as [|x [|y l]]; [done|done|].
  apply Forall_cons in Hl as [Hx Hl]. apply Forall_cons in Hl as [Hy Hl].
  unfold count_run. destruct (ltb (key y) (key x)) eqn:Hyx.
  - rewrite reverse_involutive. cbn [plus take foldl insert_desc]. rewrite Hyx.
    cbn [insert_desc]. change [x; y] with ([x] ++ [y]).
    rewrite (inserted_run_descending y [x] l); [done|done|by constructor|done|].
    by constructor.
  - cbn [plus take foldl insert_desc]. rewrite Hyx.
    rewrite (inserted_run_ascending y [x] l).
    by rewrite !reverse_cons, <- app_assoc.
Qed.

Lemma list_sort_inserted (l : list A) :
  within l → list_sort ltb key l = reverse (inserted [] l).
Proof.
  intros Hl. unfold list_sort.
  pose proof (count_run_inserted l Hl) as Hrun.
  destruct (count_run ltb key l) as [n descending].
  assert (within (take n l) ∧ within (drop n l)) as [Htake Hdrop].
  { rewrite <- (take_drop n l) in Hl. by apply Forall_app in Hl. }
  destruct (inserted_descending (take n l) [] Htake) as [Hin Hdesc];
    [constructor|constructor|].
  assert (inserted [] l = inserted (inserted [] (take n l)) (drop n l)) as ->.
  { by rewrite <- foldl_app, take_drop. }
  rewrite <- (binarysort_reverse (drop n l) _ Hdrop Hin Hdesc).
  by rewrite <- Hrun, reverse_involutive.
Qed.

End Ordered.

(** On keys that [<] orders, the library sort is the stable descending
    sort. *)
Lemma list_sort_reverse_stable (l : list A) :
  strict_weak_order ltb (key <$> l) →
  list_sort_reverse ltb key l = sort_reverse ltb key l.
Proof.
  intros [Hasym Hneg]. unfold list_sort_reverse.
  rewrite (list_sort_inserted (λ k, k ∈ key <$> l) Hasym Hneg).
  - by rewrite reverse_involutive, sort_reverse_inserted.
  - apply Forall_forall. intros x Hx. apply list_elem_of_fmap_2.
    by apply elem_of_reverse.
Qed.

(** Descending order on such keys. *)
Lemma sort_reverse_descending (l : list A) :
  strict_weak_order ltb (key <$> l) →
  StronglySorted (λ a b, ltb (key a) (key b) = false) (sort_reverse ltb key l).
Proof.
  intros [Hasym Hneg]. rewrite sort_reverse_inserted.
  apply (inserted_descending (λ k, k ∈ key <$> l) Hasym Hneg); [|constructor..].
  apply Forall_forall. intros x Hx. apply list_elem_of_fmap_2.
  by apply elem_of_reverse.
Qed.

End ListSort.

Lemma StronglySorted_lookup_lt {A} (R : relation A) (l : list A) (a b : nat) (x y : A) :
  StronglySorted R l → l !! a = Some x → l !! b = Some y → (a < b)%nat → R x y.
Proof.
  intros Hl. revert a b. induction Hl as [|z l Hl IH Hz]; intros a b Ha Hb Hab.
  - done.
  - destruct b as [|b]; [lia|]. simpl in Hb.
    destruct a as [|a]; simpl in Ha.
    + injection Ha as <-. rewrite Forall_forall in Hz.
      apply Hz. by eapply list_elem_of_lookup_2.
    + eapply IH; [done..|lia].
Qed.

Lemma seq_tags_sorted {A} (l : list A) (i : nat) :
  StronglySorted (λ p q : nat * A, (p.1 < q.1)%nat) (zip (seq i (length l)) l).
Proof.
  revert i. induction l as [|x l IH]; intros i; simpl.
  - constructor.
  - constructor; [apply IH|].
    apply Forall_forall. intros [j y] Hin.
    apply elem_of_zip_l in Hin. apply elem_of_seq in Hin. simpl. lia.
Qed.

(** ** Retrieval *)

Lemma bind_inv {S A B} (m : M S A) (f : A → M S B) (s s' : S) (b : B) :
  (m ≫= f) s = (Return b, s') →
  ∃ a s1, m s = (Return a, s1) ∧ f a s1 = (Return b, s').
Proof.
  unfold mbind, M_bind. destruct (m s) as [[a|e] s1]; [|done].
  intros Hf. by exists a, s1.
Qed.

Lemma bind_run {S A B} (m : M S A) (f : A → M S B) (s s1 : S) (a : A) :
  m s = (Return a, s1) → (m ≫= f) s = f a s1.
Proof. intros Hm. unfold mbind, M_bind. by rewrite Hm. Qed.

Section Retrieval.
Context `{Number num, Provider num, PyLib num}.
Import AISentinel SearchSpec.

Lemma mapM_score_item_result (qe : list num) (l : list (dict num)) (s : AISentinel.t num)
    (scored : list (dict num * num)) :
  (mapM (score_item qe) l s).1 = Return scored →
  scored.*1 = l ∧ Forall (λ p, item_score qe p.1 = Return p.2) scored.
Proof.
  revert scored. induction l as [|item l IH]; intros scored.
  - simpl. intros [= <-]. by split.
  - simpl. unfold mbind, M_bind. rewrite score_item_run.
    destruct (item_score qe item) as [c|] eqn:Hc; [|done].
    destruct (mapM (score_item qe) l s) as [[ys|e] s1]; simpl in *; [|done].
    intros [= <-]. destruct (IH ys eq_refl) as [Hl Hys].
    split; [by rewrite fmap_cons, Hl|]. by constructor.
Qed.

Lemma mapM_score_item_total (qe : list num) (l : list (dict num)) (s : AISentinel.t num) :
  Forall (λ item, ∃ c, item_score qe item = Return c) l →
  ∃ scored, mapM (score_item qe) l s = (Return scored, s).
Proof.
  induction 1 as [|item l [c Hc] Hl [ys IH]].
  - by exists [].
  - exists ((item, c) :: ys). simpl. unfold mbind, M_bind.
    rewrite score_item_run, Hc, IH. done.
Qed.

(** [get_embedding] and the chat call do not touch the collection. *)
Lemma get_embedding_knowledge_base (kb : list (dict num)) (text : value num) :
  preserves (λ s, knowledge_base s = kb) (get_embedding text).
Proof.
  intros s Hs. destruct text as [| | | |txt| |]; try done.
  unfold get_embedding, mbind, M_bind, get_state, try_except, call_embeddings.
  destruct (embedding_cache s !! txt); [done|]. simpl.
  by destruct (embeddings_create _ _).
Qed.

Lemma ensure_embedding_length (n i : nat) :
  preserves (λ s, length (knowledge_base s) = n) (ensure_embedding i).
Proof.
  unfold ensure_embedding. apply preserves_bind_state. intros s Hs.
  destruct (knowledge_base s !! i) as [item|]; [|done].
  destruct (truthy _); [done|].
  unfold mbind, M_bind, lift. destruct (getitem item "content") as [c|]; [|done].
  pose proof (get_embedding_knowledge_base (knowledge_base s) c s eq_refl) as Hkb.
  destruct (get_embedding c s) as [[e|x] s1]; simpl in *; [|by rewrite Hkb].
  by rewrite Hkb, length_insert.
Qed.

(** What a search that returns has done. *)
Lemma search_knowledge_base_inv (query : string) (top_k : Z) (s s' : AISentinel.t num)
    (res : list (dict num)) :
  search_knowledge_base query top_k s = (Return res, s') →
  ∃ qe scored,
    (get_embedding (VStr query) s).1 = Return qe
    ∧ length (knowledge_base s') = length (knowledge_base s)
    ∧ scored.*1 = knowledge_base s'
    ∧ Forall (λ p, item_score qe p.1 = Return p.2) scored
    ∧ res = (slice_to top_k (list_sort_reverse nltb snd scored)).*1.
Proof.
  unfold search_knowledge_base. intros Hrun.
  apply bind_inv in Hrun as (qe & s1 & Hqe & Hrun).
  apply bind_inv in Hrun as (s1' & s1'' & [= <- <-] & Hrun).
  apply bind_inv in Hrun as ([] & s2 & Hloop & Hrun).
  apply bind_inv in Hrun as (s2' & s2'' & [= <- <-] & Hrun).
  apply bind_inv in Hrun as (scored & s3 & Hscored & [= <- <-]).
  pose proof (mapM_score_item_state qe (knowledge_base s2) s2) as Hst.
  rewrite Hscored in Hst. simpl in Hst. subst s3.
  destruct (mapM_score_item_result qe (knowledge_base s2) s2 scored) as [Hl Hsc].
  { by rewrite Hscored. }
  exists qe, scored. split; [by rewrite Hqe|]. split; [|done].
  pose proof (get_embedding_knowledge_base (knowledge_base s) (VStr query) s eq_refl) as Hkb.
  rewrite Hqe in Hkb. simpl in Hkb.
  pose proof (preserves_for_each (λ s, length (knowledge_base s) = length (knowledge_base s1))
                ensure_embedding (seq 0 (length (knowledge_base s1)))
                (ensure_embedding_length _) s1 eq_refl) as Hlen.
  rewrite Hloop in Hlen. simpl in Hlen. by rewrite Hlen, Hkb.
Qed.

Lemma as_numbers_floats (v : list num) : as_numbers (VFloat <$> v) = Return v.
Proof.
  induction v as [|x v IH]; [done|].
  rewrite fmap_cons. cbn [as_numbers as_number]. by rewrite IH.
Qed.

Lemma as_vector_of_vector (v : list num) : as_vector (of_vector v) = Return v.
Proof. apply as_numbers_floats. Qed.

Lemma scorable_item_score (qe : list num) (item : dict num) :
  scorable item →
  (∃ c, item_score qe item = Return c) ∨ item_score qe item = Raise OverflowError.
Proof.
  intros (e & v & He & Hv). unfold item_score, getitem. rewrite He, Hv.
  apply cosine_similarity_returns_or_overflows.
Qed.

Lemma mapM_score_item_scorable (qe : list num) (l : list (dict num)) (s : AISentinel.t num) :
  Forall scorable l →
  (∃ scored, mapM (score_item qe) l s = (Return scored, s))
  ∨ mapM (score_item qe) l s = (Raise OverflowError, s).
Proof.
  induction 1 as [|item l Hitem _ IH]; [left; by exists []|].
  simpl. unfold mbind, M_bind. rewrite score_item_run.
  destruct (scorable_item_score qe item Hitem) as [[c ->]| ->]; [|by right].
  destruct IH as [[ys ->]| ->]; [left; by eexists|by right].
Qed.

Lemma get_embedding_str_returns (txt : string) (s : AISentinel.t num) :
  ∃ e s1, get_embedding (VStr txt) s = (Return e, s1)
          ∧ knowledge_base s1 = knowledge_base s.
Proof.
  unfold get_embedding, mbind, M_bind, get_state, try_except, call_embeddings.
  destruct (embedding_cache s !! txt); [by eexists _, _|]. simpl.
  destruct (embeddings_create _ _); by eexists _, _.
Qed.

Lemma ensure_embedding_step (n i : nat) (s : AISentinel.t num) :
  (i < n)%nat → backfilled n i s →
  ∃ s1, ensure_embedding i s = (Return tt, s1) ∧ backfilled n (Datatypes.S i) s1.
Proof.
  intros Hi [Hlen Hitems].
  destruct (lookup_lt_is_Some_2 (knowledge_base s) i) as [item Hitem]; [lia|].
  unfold ensure_embedding, mbind at 1, M_bind at 1, get_state. rewrite Hitem.
  destruct (Hitems i item Hitem) as [_ Hsearch]. specialize (Hsearch (le_n _)).
  unfold searchable in Hsearch.
  destruct (truthy (dict_get item "embedding")) eqn:Htruthy.
  - exists s. split; [done|]. split; [done|].
    intros j item' Hj. split; [|intros; apply (Hitems j item' Hj); lia].
    intros Hlt. destruct (decide (j = i)) as [->|Hne].
    + assert (item' = item) as -> by congruence.
      destruct Hsearch as [v Hv]. unfold dict_get in Hv, Htruthy.
      destruct (item !! "embedding") as [e|] eqn:He; [|done].
      by exists e, v.
    + apply (Hitems j item' Hj). lia.
  - destruct Hsearch as [c Hc].
    destruct (get_embedding_str_returns c s) as (e & s1 & Hrun & Hkb).
    exists (set_knowledge_base (<[i := <["embedding" := of_vector e]> item]>) s1).
    split.
    { unfold mbind, M_bind, lift, getitem. rewrite Hc, Hrun. done. }
    split; [simpl; by rewrite length_insert, Hkb|].
    intros j item' Hj. simpl in Hj. rewrite Hkb in Hj.
    destruct (decide (j = i)) as [->|Hne].
    + rewrite list_lookup_insert_eq in Hj by lia. injection Hj as <-.
      split; [|lia]. intros _. exists (of_vector e), e.
      split; [apply lookup_insert_eq|apply as_vector_of_vector].
    + rewrite list_lookup_insert_ne in Hj by done.
      split; [intros; apply (Hitems j item' Hj); lia|].
      intros; apply (Hitems j item' Hj); lia.
Qed.

Lemma ensure_embeddings_loop (n m i : nat) (s : AISentinel.t num) :
  (i + m = n)%nat → backfilled n i s →
  ∃ s', for_each ensure_embedding (seq i m) s = (Return tt, s') ∧ backfilled n n s'.
Proof.
  revert i s. induction m as [|m IH]; intros i s Him Hs.
  - exists s. split; [done|]. assert (n = i) as -> by lia. done.
  - destruct (ensure_embedding_step n i s) as (s1 & Hstep & Hs1); [lia|done|].
    destruct (IH (Datatypes.S i) s1) as (s' & Hloop & Hs'); [lia|done|].
    exists s'. split; [|done].
    simpl. unfold mbind, M_bind. by rewrite Hstep.
Qed.

(** On a store of searchable items, a search returns unless the
    arithmetic of a score overflows. *)
Lemma search_knowledge_base_total (query : string) (top_k : Z) (s : AISentinel.t num) :
  Forall searchable (knowledge_base s) →
  (∃ res s', search_knowledge_base query top_k s = (Return res, s'))
  ∨ overflows (search_knowledge_base query top_k) s.
Proof.
  intros Hs.
  destruct (get_embedding_str_returns query s) as (qe & s1 & Hqe & Hkb).
  destruct (ensure_embeddings_loop (length (knowledge_base s1))
              (length (knowledge_base s1)) 0 s1) as (s2 & Hloop & Hlen & Hs2); [done| |].
  { split; [done|]. intros j item Hj. split; [lia|]. intros _.
    rewrite Forall_forall in Hs. apply Hs. rewrite Hkb in Hj.
    by eapply list_elem_of_lookup_2. }
  unfold overflows.
  assert (search_knowledge_base query top_k s
          = match mapM (score_item qe) (knowledge_base s2) s2 with
            | (Return scored, s3) =>
                (Return (slice_to top_k (list_sort_reverse nltb snd scored)).*1, s3)
            | (Raise e, s3) => (Raise e, s3)
            end) as ->.
  { unfold search_knowledge_base.
    rewrite (bind_run _ _ _ _ _ Hqe). unfold mbind at 1, M_bind at 1, get_state.
    rewrite (bind_run _ _ _ _ _ Hloop). unfold mbind at 1, M_bind at 1, get_state.
    unfold mbind, M_bind.
    by destruct (mapM (score_item qe) (knowledge_base s2) s2) as [[scored|e] s3]. }
  destruct (mapM_score_item_scorable qe (knowledge_base s2) s2) as [[scored ->]| ->].
  { apply Forall_forall. intros item Hitem.
    apply list_elem_of_lookup_1 in Hitem as [j Hj].
    apply (Hs2 j item Hj). apply lookup_lt_Some in Hj. lia. }
  - left. by eexists _, _.
  - right. by eexists.
Qed.

(** On an empty store a search returns the empty sequence. *)
Lemma search_knowledge_base_empty (query : string) (top_k : Z) (s : AISentinel.t num) :
  knowledge_base s = [] →
  ∃ s', search_knowledge_base query top_k s = (Return [], s').
Proof.
  intros Hempty. unfold search_knowledge_base.
  destruct (get_embedding_str_returns query s) as (qe & s1 & Hqe & Hkb).
  rewrite (bind_run _ _ _ _ _ Hqe). unfold mbind, M_bind, get_state.
  rewrite Hkb, Hempty. simpl. rewrite Hkb, Hempty. simpl. unfold mret, M_ret.
  exists s1. change (list_sort_reverse nltb snd []) with (@nil (dict num * num)).
  unfold slice_to. destruct (0 <=? top_k); by rewrite ?take_nil.
Qed.

End Retrieval.

Lemma slice_to_take {A} (k : Z) (l : list A) : ∃ m, slice_to k l = take m l.
Proof. unfold slice_to. destruct (0 <=? k); by eexists. Qed.

Lemma slice_to_length {A} (k : Z) (l : list A) :
  (length (slice_to k l) ≤ length l)%nat.
Proof.
  destruct (slice_to_take k l) as [m ->]. rewrite length_take. lia.
Qed.

Lemma slice_to_length_nonneg {A} (k : Z) (l : list A) :
  0 ≤ k → Z.of_nat (length (slice_to k l)) ≤ k.
Proof.
  intros Hk. unfold slice_to.
  destruct (0 <=? k) eqn:Hle; [|lia].
  rewrite length_take. lia.
Qed.

Lemma slice_to_all {A} (k : Z) (l : list A) :
  Z.of_nat (length l) ≤ k → slice_to k l = l.
Proof.
  intros Hk. unfold slice_to.
  destruct (0 <=? k) eqn:Hle; [|lia].
  apply take_ge. lia.
Qed.

Lemma Forall_pairs_Forall2 {A B} (P : A → B → Prop) (l : list (A * B)) :
  Forall (λ p, P p.1 p.2) l → Forall2 P (l.*1) (l.*2).
Proof. induction 1; by constructor. Qed.

Lemma Forall_Forall2_fmap {A B C} (P : B → C → Prop) (f : A → B) (g : A → C) (l : list A) :
  Forall (λ t, P (f t) (g t)) l → Forall2 P (f <$> l) (g <$> l).
Proof. induction 1; by constructor. Qed.

Lemma tagged_elem_of {A} (l : list A) (i : nat) (p : A) :
  (i, p) ∈ zip (seq 0 (length l)) l ↔ l !! i = Some p.
Proof.
  split.
  - intros Hin. apply list_elem_of_lookup_1 in Hin as [pos Hpos].
    apply lookup_zip_Some in Hpos as [Hseq Hl].
    apply lookup_seq in Hseq as [-> _]. done.
  - intros Hl. apply (list_elem_of_lookup_2 _ i).
    apply lookup_zip_Some. split; [|done].
    apply lookup_seq. split; [done|]. by eapply lookup_lt_Some.
Qed.

Section RetrievalClaims.
Context `{Number num, Provider num, PyLib num}.
Import AISentinel SearchSpec.

(** The scores of the scored items are the scores of the collection. *)
Lemma scored_ordered (qe : list num) (kb : list (dict num))
    (scored : list (dict num * num)) :
  scored.*1 = kb →
  Forall (λ p, item_score qe p.1 = Return p.2) scored →
  ordered_scores qe kb →
  strict_weak_order nltb (snd <$> scored).
Proof.
  intros Hfst Hsc Hord. apply Hord. rewrite <- Hfst.
  by apply (Forall_pairs_Forall2 (λ item c, item_score qe item = Return c)).
Qed.

(** C5 (as amended). For every store, query and [top_k] that is not
    negative, a search that returns yields at most [top_k] items and at
    most as many as the store holds; when [top_k] is at least the size of
    the collection the result is the whole collection (as it stands after
    the embeddings were filled in), and it is in descending order of
    similarity if [<] orders the scores, that is if no score is NaN. On an
    empty store the search returns the empty sequence, and on a store of
    searchable items it returns unless the arithmetic of a score
    overflows, in which case it raises [OverflowError]. *)
Theorem search_knowledge_base_bounds (query : string) (top_k : Z) (s : AISentinel.t num) :
  0 ≤ top_k → within_bounds query top_k s.
Proof.
  intros Hk. unfold within_bounds.
  split; [|split].
  - intros res s' Hrun.
    apply search_knowledge_base_inv in Hrun as (qe & scored & Hqe & Hlen & Hfst & Hsc & ->).
    rewrite length_fmap. split; [by apply slice_to_length_nonneg|]. split.
    { etrans; [apply slice_to_length|].
      by rewrite list_sort_reverse_length, <- Hlen, <- Hfst, length_fmap. }
    intros Hall. rewrite slice_to_all.
    2:{ by rewrite list_sort_reverse_length, <- (length_fmap fst), Hfst, Hlen. }
    split; [by rewrite list_sort_reverse_perm, Hfst|].
    exists qe. split; [done|]. intros Hord.
    pose proof (scored_ordered qe _ scored Hfst Hsc Hord) as Hswo.
    rewrite (list_sort_reverse_stable nltb snd scored Hswo).
    exists ((sort_reverse nltb snd scored).*2). split.
    + apply (Forall_pairs_Forall2 (λ r c, item_score qe r = Return c)).
      by rewrite sort_reverse_perm.
    + pose proof (sort_reverse_descending nltb snd scored Hswo) as Hsorted.
      clear -Hsorted. induction Hsorted as [|p l Hl IH Hp]; [constructor|].
      rewrite fmap_cons. constructor; [done|]. by apply Forall_fmap.
  - apply search_knowledge_base_empty.
  - apply search_knowledge_base_total.
Qed.

(** C6 (as amended). Retrieval ordering is stable where [<] orders the
    scores, that is where no score is NaN. The result of a search lists
    the items of the store at distinct positions [idx] of the collection;
    if the scores of two items are equal, or tie in that neither is smaller
    than the other, and the later item is in the result, then the earlier
    one is in the result too and stands before it. *)
Theorem search_knowledge_base_stable
    (query : string) (top_k : Z) (s s' : AISentinel.t num) (res : list (dict num)) :
  search_knowledge_base query top_k s = (Return res, s') →
  stably_ranked query s s' res.
Proof.
  intros Hrun. unfold stably_ranked.
  apply search_knowledge_base_inv in Hrun as (qe & scored & Hqe & Hlen & Hfst & Hsc & ->).
  exists qe. split; [done|]. intros Hord.
  pose proof (scored_ordered qe _ scored Hfst Hsc Hord) as Hswo.
  rewrite (list_sort_reverse_stable nltb snd scored Hswo).
  set (tagged := zip (seq 0 (length scored)) scored).
  set (ST := sort_reverse nltb (snd ∘ snd) tagged).
  assert (ST.*2 = sort_reverse nltb snd scored) as HST2.
  { unfold ST. rewrite sort_reverse_tagged. unfold tagged.
    rewrite snd_zip; [done|]. by rewrite length_seq. }
  assert (∀ t, t ∈ ST → scored !! t.1 = Some t.2) as HSTin.
  { intros [i p] Hin. apply tagged_elem_of.
    unfold ST in Hin. by rewrite sort_reverse_perm in Hin. }
  destruct (slice_to_take top_k (sort_reverse nltb snd scored)) as [m ->].
  rewrite <- HST2, <- fmap_take.
  exists ((take m ST).*1). split; [split|].
  - rewrite fmap_take. eapply sublist_NoDup; [|apply sublist_take].
    unfold ST. rewrite sort_reverse_perm. unfold tagged.
    rewrite fst_zip; [apply NoDup_seq|]. by rewrite length_seq.
  - rewrite <- list_fmap_compose.
    apply (Forall_Forall2_fmap (λ i r, knowledge_base s' !! i = Some r)).
    apply Forall_forall. intros t Ht.
    assert (t ∈ ST) as HtST.
    { apply elem_of_take in Ht as (pos & Hpos & _). by eapply list_elem_of_lookup_2. }
    rewrite <- Hfst, list_lookup_fmap, (HSTin t HtST). done.
  - intros i j x y c d Hij Hx Hy Hcx Hcy Htie Hj.
    apply list_elem_of_fmap in Hj as (tb & Htb & Hin).
    apply list_elem_of_lookup_1 in Hin as [b Hb].
    pose proof Hb as Hb'. apply lookup_take_Some in Hb' as [HbST Hbm].
    assert (scored !! j = Some tb.2) as Hsj.
    { rewrite Htb. apply HSTin. by eapply list_elem_of_lookup_2. }
    assert (tb.2.2 = d) as Hcb.
    { rewrite <- Hfst, list_lookup_fmap, Hsj in Hy. injection Hy as Hy.
      rewrite Forall_forall in Hsc.
      pose proof (Hsc tb.2 (list_elem_of_lookup_2 _ _ _ Hsj)) as Hscore.
      rewrite Hy in Hscore. congruence. }
    rewrite <- Hfst, list_lookup_fmap in Hx.
    destruct (scored !! i) as [px|] eqn:Hsi; [|done]. injection Hx as Hx.
    assert (px.2 = c) as Hca.
    { rewrite Forall_forall in Hsc.
      pose proof (Hsc px (list_elem_of_lookup_2 _ _ _ Hsi)) as Hscore.
      rewrite Hx in Hscore. congruence. }
    assert (nltb c d = false) as Hnlt.
    { destruct Htie as [<-|[Hcd _]]; [|done].
      destruct (nltb c c) eqn:Hcc; [|done].
      assert (c ∈ snd <$> scored) as Hc.
      { rewrite <- Hca. apply list_elem_of_fmap_2. by eapply list_elem_of_lookup_2. }
      by rewrite (proj1 Hswo c c Hc Hc Hcc) in Hcc. }
    assert ((i, px) ∈ ST) as HiST.
    { unfold ST. rewrite sort_reverse_perm. by apply tagged_elem_of. }
    apply list_elem_of_lookup_1 in HiST as [a Ha].
    assert (a < b)%nat as Hab.
    { destruct (decide (a < b)%nat) as [|Hnlt']; [done|]. exfalso.
      destruct (decide (a = b)) as [->|Hne].
      - rewrite Ha in HbST. injection HbST as <-. simpl in Htb. lia.
      - pose proof (sort_reverse_overtaken nltb snd tagged (seq_tags_sorted scored 0)) as Hov.
        pose proof (StronglySorted_lookup_lt _ _ b a _ _ Hov HbST Ha ltac:(lia)) as Hlt.
        unfold overtaken in Hlt. simpl in Hlt. rewrite <- Htb in Hlt.
        specialize (Hlt Hij). rewrite Hca, Hcb, Hnlt in Hlt. done. }
    exists a, b. split; [done|]. split.
    + rewrite list_lookup_fmap, lookup_take_lt by lia. by rewrite Ha.
    + rewrite list_lookup_fmap, Hb. simpl. by rewrite Htb.
Qed.

End RetrievalClaims.

(** *** Retrieval on the sample knowledge base *)

Lemma search_knowledge_base_bounds_example :
  @SearchSpec.within_bounds Z Z_number (provider_up "{}") "reset" 3
    (AISentinel.init None).
Proof.
  apply (@search_knowledge_base_bounds Z Z_number (provider_up "{}")). lia.
Defined.

(** C5 as stated fails for a negative [top_k]: [l[:-1]] drops the last
    item only, so a search with [top_k = -1] on the three sample items
    returns two of them. *)
Lemma search_knowledge_base_negative_top_k :
  ∃ n,
    length <$> returned
      (@AISentinel.search_knowledge_base Z Z_number (provider_up "{}") "reset" (-1)
         (AISentinel.init None)) = Some n
    ∧ ¬ (Z.of_nat n ≤ -1).
Proof.
  exists 2%nat. split; [vm_compute; reflexivity|]. lia.
Qed.

(** With a provider that embeds every text alike all scores are equal, and
    a search for two items returns the first two of the collection. *)
Lemma search_knowledge_base_stable_example :
  @SearchSpec.stably_ranked Z Z_number (provider_up "{}") "q"
    (AISentinel.init (Some small_kb))
    {| AISentinel.knowledge_base := small_kb;
       AISentinel.embedding_cache := {[ "q" := [3; 4] ]};
       AISentinel.api_calls := 1 |}
    [article 1 "a" (of_vector [3; 4]); article 2 "b" (of_vector [3; 4])].
Proof.
  apply (@search_knowledge_base_stable Z Z_number (provider_up "{}") "q" 2).
  reflexivity.
Defined.

(** Integers are ordered by [<], so the scores of every store of the
    integer instance are: there the ranking is stable without condition. *)
Lemma integer_keys_ordered (ks : list Z) : strict_weak_order (nltb : Z → Z → bool) ks.
Proof.
  split.
  - intros a b _ _ Hab. apply Z.ltb_lt in Hab. apply Z.ltb_ge. lia.
  - intros a b c _ _ _ Hab Hbc. apply Z.ltb_ge in Hab, Hbc. apply Z.ltb_ge. lia.
Qed.

Example integer_scores_ordered (qe : list Z) (kb : list (dict Z)) :
  @SearchSpec.ordered_scores Z Z_number qe kb.
Proof. intros scores _. apply integer_keys_ordered. Qed.

(** ** Answer synthesis *)

Section Synthesis.
Context `{Number num, Provider num, PyLib num}.
Import AISentinel SearchSpec QuerySpec.

Lemma fallback_response_is_fallback : is_fallback (VDict fallback_response).
Proof.
  exists fallback_response. split; [done|]. split.
  - unfold fallback_response. rewrite !dom_insert_L, dom_singleton_L. set_solver.
  - repeat split; reflexivity.
Qed.

(** Properties of the collection alone survive [get_embedding]. *)
Lemma get_embedding_collection (P : list (dict num) → Prop) (text : value num) :
  preserves (λ s, P (knowledge_base s)) (get_embedding text).
Proof.
  intros s Hs.
  by rewrite (get_embedding_knowledge_base (knowledge_base s) text s eq_refl).
Qed.

Lemma ensure_embedding_renderable (i : nat) :
  preserves (λ s, Forall renderable (knowledge_base s)) (ensure_embedding i).
Proof.
  unfold ensure_embedding. apply preserves_bind_state. intros s Hs.
  destruct (knowledge_base s !! i) as [item|] eqn:Hitem; [|done].
  destruct (truthy _); [done|].
  unfold mbind, M_bind, lift. destruct (getitem item "content") as [c|]; [|done].
  pose proof (get_embedding_knowledge_base (knowledge_base s) c s eq_refl) as Hkb.
  destruct (get_embedding c s) as [[e|x] s1]; simpl in *; [|by rewrite Hkb].
  rewrite Hkb. apply Forall_insert; [done|].
  rewrite Forall_forall in Hs.
  destruct (Hs item (list_elem_of_lookup_2 _ _ _ Hitem)) as (Ht & Hc & Hg).
  unfold renderable. by rewrite !lookup_insert_ne.
Qed.

Lemma search_knowledge_base_renderable (query : string) (top_k : Z) :
  preserves (λ s, Forall renderable (knowledge_base s)) (search_knowledge_base query top_k).
Proof.
  apply search_knowledge_base_preserves.
  - apply (get_embedding_collection (Forall renderable)).
  - apply ensure_embedding_renderable.
Qed.

(** The items a search returns are items of the store. *)
Lemma search_knowledge_base_subset (query : string) (top_k : Z) (s s' : AISentinel.t num)
    (res : list (dict num)) :
  search_knowledge_base query top_k s = (Return res, s') →
  ∀ item, item ∈ res → item ∈ knowledge_base s'.
Proof.
  intros Hrun item Hitem.
  apply search_knowledge_base_inv in Hrun as (qe & scored & _ & _ & Hfst & _ & ->).
  destruct (slice_to_take top_k (list_sort_reverse nltb snd scored)) as [m Hm].
  rewrite Hm, fmap_take in Hitem.
  apply elem_of_take in Hitem as (pos & Hpos & _).
  apply list_elem_of_lookup_2 in Hpos.
  by rewrite list_sort_reverse_perm, Hfst in Hpos.
Qed.

Lemma knowledge_context_of_total (items : list (dict num)) (s : AISentinel.t num) :
  Forall renderable items →
  ∃ ctx, knowledge_context_of items s = (Return ctx, s).
Proof.
  intros Hitems. unfold knowledge_context_of.
  assert (∃ rendered, mapM render_item items s = (Return rendered, s)) as [rendered Hr].
  { induction Hitems as [|item items ([t Ht] & [c Hc] & [g Hg]) _ [rendered IH]].
    - by exists [].
    - eexists. simpl. unfold mbind at 1, M_bind at 1.
      unfold render_item at 1, mbind, M_bind, lift, getitem. rewrite Ht, Hc, Hg.
      fold (@mbind (M (AISentinel.t num)) _). unfold mret at 1, M_ret at 1.
      rewrite IH. done. }
  rewrite (bind_run _ _ _ _ _ Hr). by eexists.
Qed.

(** C1 (as amended). [process_query] returns the fixed fallback result
    (apology, [shouldEscalate = true], no related questions, category
    "Error", confidence 0.0, no source ids) for any failure of the provider
    call, of the parsing or of the repair, the steps inside its [try]
    block, and never lets such a failure reach the caller. A failure of the
    embedding provider during retrieval is absorbed by [get_embedding].
    Any other failure of retrieval or of context rendering, which run
    before the [try] block, is raised to the caller. On a store whose items
    are searchable and renderable the one such failure is an
    [OverflowError] of the similarity arithmetic: [process_query] returns
    or raises [OverflowError]. *)
Theorem process_query_fallback (query : string) (user_info : option (dict num))
    (s : AISentinel.t num) :
  never_raises_past_preparation query user_info s.
Proof.
  unfold never_raises_past_preparation, process_query, prepare.
  split; [|split].
  - intros e s'. unfold mbind, M_bind, try_except, mret, M_ret.
    destruct (search_knowledge_base query 3 s) as [[items|e1] s1];
      [|by intros [= -> ->]].
    destruct (knowledge_context_of items s1) as [[ctx|e2] s2];
      [|by intros [= -> ->]].
    destruct (answer query ctx (user_context_of user_info) items s2) as [[r|e3] s3];
      by intros ?.
  - intros items ctx s1. unfold mbind, M_bind, try_except, mret, M_ret.
    destruct (search_knowledge_base query 3 s) as [[items'|e1] s1']; [|done].
    destruct (knowledge_context_of items' s1') as [[ctx'|e2] s2]; [|done].
    intros [= -> -> ->].
    destruct (answer query ctx (user_context_of user_info) items s1) as [[r|e3] s3] eqn:Hans.
    + exists r, s3. split; [done|]. intros e s2 [=].
    + exists (VDict fallback_response), s3. split; [done|].
      intros e s2 [= _ ->]. split; [apply fallback_response_is_fallback|done].
  - intros Hkb. unfold SearchSpec.overflows.
    destruct (search_knowledge_base_total query 3 s)
      as [(items & s1 & Hsearch)|[s1 Hsearch]].
    { eapply Forall_impl; [exact Hkb|]. by intros item [Hs _]. }
    2:{ right. exists s1. unfold mbind, M_bind. by rewrite Hsearch. }
    left.
    pose proof (search_knowledge_base_renderable query 3 s) as Hrend.
    rewrite Hsearch in Hrend. simpl in Hrend.
    destruct (knowledge_context_of_total items s1) as [ctx Hctx].
    { apply Forall_forall. intros item Hitem.
      apply (search_knowledge_base_subset _ _ _ _ _ Hsearch) in Hitem.
      assert (Forall renderable (knowledge_base s1)) as Hall.
      { apply Hrend. eapply Forall_impl; [exact Hkb|]. by intros it [_ Hr]. }
      rewrite Forall_forall in Hall. by apply Hall. }
    rewrite (bind_run _ _ _ _ _ Hsearch), (bind_run _ _ _ _ _ Hctx).
    unfold try_except, mret, M_ret.
    destruct (answer query ctx (user_context_of user_info) items s1) as [[r|e3] s3];
      by eexists _, _.
Qed.

End Synthesis.

(** C1 as stated fails: a failure of context rendering is not caught. With
    a stored item that has no title, rendering raises [KeyError] before the
    [try] block is entered, and the caller receives it. *)
Lemma process_query_raises_before_try :
  (@AISentinel.process_query Z Z_number (provider_up "{}") lib_plain "q" None
     (AISentinel.init (Some [untitled]))).1
  = Raise (KeyError "title").
Proof. reflexivity. Qed.

(** With the provider down, [process_query] on the small knowledge base
    returns the fallback. *)
Lemma process_query_fallback_example :
  ∃ r s',
    @AISentinel.process_query Z Z_number provider_down lib_plain "q" None
      (AISentinel.init (Some small_kb)) = (Return r, s')
    ∧ QuerySpec.is_fallback r.
Proof.
  destruct (@process_query_fallback Z Z_number provider_down lib_plain "q" None
              (AISentinel.init (Some small_kb))) as (_ & Hreturns & _).
  destruct (Hreturns (take 3 small_kb)
              (join (NL +:+ NL)
                 (fmap (M := list)
                    (λ t, "Title: " +:+ t +:+ NL +:+ "Content: About " +:+ t +:+ NL +:+
                          "Category: General") ["a"; "b"; "c"]))
              {| AISentinel.knowledge_base := small_kb;
                 AISentinel.embedding_cache := ∅;
                 AISentinel.api_calls := 1 |} eq_refl)
    as (r & s' & Hrun & Hfallback).
  exists r, s'. split; [exact Hrun|].
  exact (proj1 (Hfallback ProviderError
                  {| AISentinel.knowledge_base := small_kb;
                     AISentinel.embedding_cache := ∅;
                     AISentinel.api_calls := 2 |} eq_refl)).
Defined.

(** A reply that is not JSON leads to the fallback as well. *)
Example process_query_bad_json :
  (@AISentinel.process_query Z Z_number (provider_up "{}") lib_plain "q" None
     (AISentinel.init (Some small_kb))).1
  = Return (VDict AISentinel.fallback_response).
Proof. reflexivity. Qed.

(** ** Curation *)

Lemma gather_length {A B} (f : A → outcome B) (l : list A) (ys : list B) :
  KnowledgeManager.gather f l = Return ys → length ys = length l.
Proof.
  revert ys. induction l as [|x l IH]; intros ys; simpl.
  - by intros [= <-].
  - destruct (f x) as [y|]; [|done].
    destruct (KnowledgeManager.gather f l) as [ys'|]; [|done].
    intros [= <-]. simpl. by rewrite (IH ys').
Qed.

Lemma gather_total {A B} (f : A → outcome B) (l : list A) :
  Forall (λ x, ∃ y, f x = Return y) l → ∃ ys, KnowledgeManager.gather f l = Return ys.
Proof.
  induction 1 as [|x l [y Hy] _ [ys IH]]; simpl.
  - by eexists.
  - rewrite Hy, IH. by eexists.
Qed.

Lemma slice_to_3_length {A} (l : list A) : (length (slice_to 3 l) ≤ 3)%nat.
Proof. pose proof (slice_to_length_nonneg 3 l). lia. Qed.

Section Curation.
Context `{Number num, Provider num, PyLib num}.
Import KnowledgeManager.

(** C8 (as amended). On a store that holds at least one item,
    [suggest_categories] returns at most 3 category names, whatever the
    provider answers and also when it fails; on an empty store it returns
    the six default names without calling the provider. It returns
    whenever every stored category is a string. *)
Theorem suggest_categories_at_most_three (text : string) (s : KnowledgeManager.t num) :
  (knowledge_base s = [] →
   suggest_categories text s = (Return default_categories, s)
   ∧ length default_categories = 6%nat)
  ∧ (knowledge_base s ≠ [] →
     ∀ l s', suggest_categories text s = (Return l, s') → (length l ≤ 3)%nat)
  ∧ (Forall (λ item, ∃ c, item !! "category" = Some (VStr c)) (knowledge_base s) →
     ∃ l s', suggest_categories text s = (Return l, s')).
Proof.
  split; [|split].
  - intros Hkb. unfold suggest_categories, mbind, M_bind, get_state, lift.
    rewrite Hkb. done.
  - intros Hkb l s'. unfold suggest_categories, mbind, M_bind, get_state, lift.
    destruct (gather _ (knowledge_base s)) as [members|] eqn:Hg; [|done].
    apply gather_length in Hg.
    destruct members as [|m members].
    { destruct (knowledge_base s); [done|simpl in Hg; lia]. }
    destruct (gather as_str (m :: members)) as [names|]; [|done].
    unfold try_except, call_chat.
    destruct (chat_completions_create _ _) as [response_text|]; simpl.
    + destruct (unique (extract_categories response_text)) as [|c cs]; simpl;
        intros [= <- <-]; apply slice_to_3_length.
    + destruct (distinct names); intros [= <- <-]; [simpl; lia|apply slice_to_3_length].
  - intros Hkb. unfold suggest_categories, mbind, M_bind, get_state, lift.
    destruct (gather_total
                (λ item : dict num,
                   match getitem item "category" with
                   | Return c => if hashable c then Return c else Raise TypeError
                   | Raise e => Raise e
                   end) (knowledge_base s)) as [members Hg].
    { eapply Forall_impl; [exact Hkb|]. intros item [c Hc].
      exists (VStr c). unfold getitem. by rewrite Hc. }
    rewrite Hg.
    destruct members as [|m members]; [by eexists _, _|].
    assert (∃ names, gather as_str (m :: members) = Return names) as [names ->].
    { clear -Hg Hkb. revert Hg. generalize (m :: members). clear m members.
      induction Hkb as [|item kb [c Hc] _ IH]; intros ms; simpl.
      - intros [= <-]. by eexists.
      - unfold getitem at 1. rewrite Hc. simpl.
        destruct (gather _ kb) as [ms'|]; [|done]. intros [= <-].
        destruct (IH ms' eq_refl) as [names Hn]. simpl. rewrite Hn. by eexists. }
    unfold try_except, call_chat.
    destruct (chat_completions_create _ _) as [response_text|]; simpl.
    + destruct (unique (extract_categories response_text)); by eexists _, _.
    + by eexists _, _.
Qed.

End Curation.

(** On the small knowledge base a suggestion is returned and has at most
    three names. *)
Lemma suggest_categories_at_most_three_example :
  ∃ l s',
    @KnowledgeManager.suggest_categories Z (provider_up "1. Sales") lib_plain
      "How to post an invoice" km_small = (Return l, s')
    ∧ (length l ≤ 3)%nat.
Proof.
  destruct (@suggest_categories_at_most_three Z (provider_up "1. Sales") lib_plain
              "How to post an invoice" km_small) as (_ & Hmost & Htotal).
  destruct Htotal as (l & s' & Hrun).
  { repeat constructor; by exists "General". }
  exists l, s'. split; [exact Hrun|].
  apply (Hmost ltac:(discriminate) l s' Hrun).
Defined.

(** C8 as stated fails on the empty store: six names are returned. *)
Lemma suggest_categories_empty_store_six :
  ∃ n,
    length <$> returned
      (@KnowledgeManager.suggest_categories Z (provider_up "1. Sales") lib_plain
         "How to post an invoice" km_empty) = Some n
    ∧ ¬ (n ≤ 3)%nat.
Proof. exists 6%nat. split; [reflexivity|lia]. Qed.

(** C9. Every tag returned by the parsing path of [suggest_tags] should
    have at least 2 characters after normalization. The code does not
    ensure it: the reply [tag:a] passes the length test as a text of five
    characters and loses its prefix only afterwards, so the tag returned
    is [a], of length 1. *)
Lemma suggest_tags_returns_short_tag :
  returned
    (@KnowledgeManager.suggest_tags Z (provider_up "tag:a") "How to post an invoice" km_empty)
  = Some ["a"]
  ∧ (len "a" < 2)%nat.
Proof. split; [reflexivity|simpl; lia]. Qed.

(** ** The knowledge store *)

Section Store.
Context `{Number num, Provider num, PyLib num}.
Import KnowledgeManager StoreSpec.

Lemma get_embedding_run (text : value num) (s : KnowledgeManager.t num) :
  get_embedding text s = (Return (embedding_at (api_calls s) text), tick s).
Proof.
  unfold get_embedding, try_except, call_embeddings, embedding_at.
  by destruct (embeddings_create _ _).
Qed.

Lemma find_by_id_lookup (item_id : Z) (l : list (dict num)) (k i : nat) (item : dict num) :
  find_by_id item_id l k = Return (Some (i, item)) →
  (k ≤ i)%nat ∧ l !! (i - k)%nat = Some item.
Proof.
  revert k. induction l as [|x l IH]; intros k; simpl; [done|].
  destruct (getitem x "id") as [v|]; [|done].
  destruct (eq_int v item_id).
  - intros [= <- <-]. split; [lia|]. by rewrite Nat.sub_diag.
  - intros Hfind. destruct (IH _ Hfind) as [Hle Hl]. split; [lia|].
    replace (i - k)%nat with (Datatypes.S (i - Datatypes.S k)) by lia. done.
Qed.

Lemma apply_updates_lookup (updates : list (string * value num)) (item : dict num)
    (k : string) :
  apply_updates item updates !! k
  = if recognized k
    then match patch_get k updates with Some v => Some v | None => item !! k end
    else item !! k.
Proof.
  unfold apply_updates. revert item.
  induction updates as [|[k' v] rest IH]; intros item; simpl.
  - by destruct (recognized k).
  - rewrite IH. destruct (recognized k) eqn:Hk.
    + destruct (patch_get k rest); [done|].
      destruct (String.eqb_spec k' k) as [->|Hne].
      * rewrite Hk. apply lookup_insert_eq.
      * destruct (recognized k'); [|done]. by rewrite lookup_insert_ne.
    + destruct (recognized k') eqn:Hk'; [|done].
      rewrite lookup_insert_ne; [done|]. intros ->. congruence.
Qed.

Lemma has_key_patch_get (k : string) (updates : list (string * value num)) :
  has_key k updates = true → ∃ v, patch_get k updates = Some v.
Proof.
  unfold has_key. induction updates as [|[k' v] rest IH]; simpl; [done|].
  intros Hk. destruct (patch_get k rest) as [w|]; [by eexists|].
  destruct (String.eqb k' k); [by eexists|]. simpl in Hk. by apply IH.
Qed.

(** What [update_item] does to the first item with the given id. *)
Lemma update_item_run (item_id : Z) (updates : list (string * value num))
    (s : KnowledgeManager.t num) (i : nat) (item : dict num) :
  find_by_id item_id (knowledge_base s) 0 = Return (Some (i, item)) →
  updates_item item_id updates s i item.
Proof.
  intros Hfind. unfold updates_item, update_item.
  unfold mbind at 1, M_bind at 1, get_state.
  unfold mbind at 1, M_bind at 1, lift. rewrite Hfind.
  destruct (has_key "content" updates) eqn:Hcontent.
  - destruct (has_key_patch_get _ _ Hcontent) as [c Hc].
    assert (apply_updates item updates !! "content" = Some c) as Hlook.
    { rewrite apply_updates_lookup. simpl. by rewrite Hc. }
    exists (<["embedding" := of_vector (embedding_at (api_calls s) c)]> (apply_updates item updates)).
    eexists. split.
    { unfold mbind, M_bind, modify, lift, getitem, _save_knowledge_base, mret, M_ret.
      rewrite Hlook, get_embedding_run. reflexivity. }
    simpl. split; [by rewrite list_insert_insert_eq|].
    split; [done|]. split; [done|]. split; [done|].
    split; [|split; [|split]].
    + intros k Hk Hne. rewrite lookup_insert_ne by done.
      by rewrite apply_updates_lookup, Hk.
    + intros k Hk. rewrite lookup_insert_ne.
      * by rewrite apply_updates_lookup, Hk.
      * intros <-. done.
    + intros Hno. congruence.
    + intros _. exists c. split; [done|]. split.
      * by rewrite lookup_insert_ne.
      * apply lookup_insert_eq.
  - exists (apply_updates item updates). eexists. split; [reflexivity|].
    simpl. split; [done|]. split; [done|]. split; [done|]. split; [done|].
    split; [|split; [|split]].
    + intros k Hk Hne. by rewrite apply_updates_lookup, Hk.
    + intros k Hk. by rewrite apply_updates_lookup, Hk.
    + intros _. by rewrite apply_updates_lookup.
    + intros Hyes. congruence.
Qed.

(** C7. For every item id that exists and every patch, [update_item]
    replaces the first item with that id by the patched item: only the
    recognized fields title, content, category and tags take the values of
    the patch, every other stored field keeps its value; when content is
    not a key of the patch the embedding is unchanged and the provider is
    not called, and when it is, the embedding is recomputed by
    [get_embedding] from the new content. *)
Theorem update_item_frame (item_id : Z) (updates : list (string * value num))
    (s : KnowledgeManager.t num) (i : nat) (item : dict num) :
  find_by_id item_id (knowledge_base s) 0 = Return (Some (i, item)) →
  updates_item item_id updates s i item.
Proof. apply update_item_run. Qed.

(** *** Id allocation *)

Lemma create_item_run (item_data : dict num) (s : KnowledgeManager.t num) :
  complete item_data →
  ∃ item s', create_item item_data s = (Return item, s')
    ∧ item !! "id" = Some (VInt (next_id s))
    ∧ ids s' = ids s ++ [Some (next_id s)]
    ∧ next_id s' = next_id s + 1.
Proof.
  intros ([t Ht] & [c Hc] & [g Hg]).
  unfold create_item, mbind, M_bind, get_state, lift, getitem.
  rewrite Ht, Hc, Hg, get_embedding_run. simpl.
  eexists _, _. split; [reflexivity|]. split; [|split; [|done]].
  - unfold without_embedding. rewrite lookup_delete_ne by done.
    rewrite lookup_insert_ne by done. apply lookup_insert_eq.
  - unfold ids. simpl. by rewrite fmap_app.
Qed.

Lemma create_item_id_step (item_data : dict num) (s : KnowledgeManager.t num) :
  id_step s (create_item item_data s).2.
Proof.
  destruct (item_data !! "title") as [t|] eqn:Ht;
    [|left; unfold create_item, mbind, M_bind, get_state, lift, getitem; by rewrite Ht].
  destruct (item_data !! "content") as [c|] eqn:Hc;
    [|left; unfold create_item, mbind, M_bind, get_state, lift, getitem; by rewrite Ht, Hc].
  destruct (item_data !! "category") as [g|] eqn:Hg;
    [|left; unfold create_item, mbind, M_bind, get_state, lift, getitem;
      by rewrite Ht, Hc, Hg].
  destruct (create_item_run item_data s) as (item & s' & Hrun & _ & Hids & Hnext).
  { unfold complete. rewrite Ht, Hc, Hg. eauto. }
  rewrite Hrun. right. left. done.
Qed.

Lemma insert_same_id (l : list (dict num)) (i : nat) (old new : dict num) :
  l !! i = Some old → id_of new = id_of old →
  id_of <$> <[i := new]> l = id_of <$> l.
Proof.
  intros Hl Hid. rewrite list_fmap_insert, Hid.
  apply list_insert_id. by rewrite list_lookup_fmap, Hl.
Qed.

Lemma update_item_id_step (item_id : Z) (updates : list (string * value num))
    (s : KnowledgeManager.t num) :
  id_step s (update_item item_id updates s).2.
Proof.
  destruct (find_by_id item_id (knowledge_base s) 0) as [[[i item]|]|e] eqn:Hfind.
  - destruct (update_item_run item_id updates s i item Hfind)
      as (item' & s' & Hrun & Hkb & _ & Hnext & _ & Hpatched & _).
    rewrite Hrun. left. split; [|done]. unfold ids. simpl. rewrite Hkb.
    apply find_by_id_lookup in Hfind as [_ Hi]. rewrite Nat.sub_0_r in Hi.
    apply (insert_same_id _ _ item); [done|].
    unfold id_of. by rewrite (Hpatched "id").
  - left. unfold update_item, mbind, M_bind, get_state, lift. by rewrite Hfind.
  - left. unfold update_item, mbind, M_bind, get_state, lift. by rewrite Hfind.
Qed.

Lemma delete_item_id_step (item_id : Z) (s : KnowledgeManager.t num) :
  id_step s (delete_item item_id s).2.
Proof.
  unfold delete_item, mbind, M_bind, get_state, lift.
  destruct (find_by_id item_id (knowledge_base s) 0) as [[[i item]|]|e]; simpl.
  - right. right. exists i. split; [|done]. unfold ids. simpl. apply list_fmap_delete.
  - by left.
  - by left.
Qed.

Lemma reembed_ids (v : list (option Z)) (n : Z) (i : nat) :
  preserves (λ s, ids s = v ∧ next_id s = n) (reembed i).
Proof.
  unfold reembed. apply preserves_bind_state. intros s [Hv Hn].
  destruct (knowledge_base s !! i) as [item|] eqn:Hitem; [|done].
  unfold mbind, M_bind, lift. destruct (getitem item "content") as [c|]; [|done].
  rewrite get_embedding_run. simpl. split; [|done].
  unfold ids. simpl. rewrite <- Hv. apply (insert_same_id _ _ item); [done|].
  unfold id_of. by rewrite lookup_insert_ne.
Qed.

Lemma bulk_update_embeddings_id_step (s : KnowledgeManager.t num) :
  id_step s (bulk_update_embeddings s).2.
Proof.
  left. unfold bulk_update_embeddings.
  unfold mbind at 1, M_bind at 1, get_state.
  pose proof (preserves_for_each (λ s', ids s' = ids s ∧ next_id s' = next_id s)
                reembed (seq 0 (length (knowledge_base s)))
                (reembed_ids _ _) s (conj eq_refl eq_refl)) as Hloop.
  unfold mbind, M_bind.
  destruct (for_each reembed (seq 0 (length (knowledge_base s))) s) as [[[]|e] s1];
    simpl in *; done.
Qed.

Lemma run_op_id_step (o : op) (s : KnowledgeManager.t num) : id_step s (run_op o s).
Proof.
  destruct o; simpl.
  - apply create_item_id_step.
  - apply update_item_id_step.
  - apply delete_item_id_step.
  - apply bulk_update_embeddings_id_step.
Qed.

Lemma id_step_invariants (s s' : KnowledgeManager.t num) :
  id_step s s' → ids_below s →
  next_id s ≤ next_id s'
  ∧ ids_below s'
  ∧ (NoDup (ids s) → NoDup (ids s'))
  ∧ (0 < next_id s ∧ ids_positive s → 0 < next_id s' ∧ ids_positive s').
Proof.
  unfold ids_below, ids_positive.
  intros [[Hids Hn]|[[Hids Hn]|(i & Hids & Hn)]] Hbelow; rewrite Hids, Hn.
  - done.
  - split; [lia|]. split; [|split].
    + apply Forall_app. split.
      * eapply Forall_impl; [exact Hbelow|]. intros o (z & -> & Hz). exists z. split; [done|lia].
      * repeat constructor. exists (next_id s). split; [done|lia].
    + intros Hnd. apply NoDup_app. split; [done|]. split; [|apply NoDup_singleton].
      intros o Ho Hin. apply list_elem_of_singleton in Hin as ->.
      rewrite Forall_forall in Hbelow.
      destruct (Hbelow _ Ho) as (z & [= <-] & Hz). lia.
    + intros [Hpos Hall]. split; [lia|]. apply Forall_app. split; [done|].
      repeat constructor. intros z [= <-]. done.
  - split; [lia|]. split; [by apply Forall_delete|]. split.
    + intros Hnd. eapply sublist_NoDup; [exact Hnd|apply sublist_delete].
    + intros [Hpos Hall]. split; [done|]. by apply Forall_delete.
Qed.

Lemma run_invariants (ops : list op) (s : KnowledgeManager.t num) :
  ids_below s →
  next_id s ≤ next_id (run ops s)
  ∧ ids_below (run ops s)
  ∧ (NoDup (ids s) → NoDup (ids (run ops s)))
  ∧ (0 < next_id s ∧ ids_positive s → 0 < next_id (run ops s) ∧ ids_positive (run ops s)).
Proof.
  revert s. induction ops as [|o ops IH]; intros s Hs; simpl.
  - done.
  - destruct (id_step_invariants s (run_op o s) (run_op_id_step o s) Hs)
      as (Hle & Hbelow & Hnd & Hpos).
    destruct (IH _ Hbelow) as (Hle' & Hbelow' & Hnd' & Hpos').
    split; [lia|]. split; [done|]. split; [by auto|by auto].
Qed.

Lemma foldl_max_ge (a : Z) (l : list Z) :
  a ≤ foldl Z.max a l ∧ ∀ z, z ∈ l → z ≤ foldl Z.max a l.
Proof.
  revert a. induction l as [|x l IH]; intros a; simpl.
  - split; [lia|]. intros z Hz. by apply elem_of_nil in Hz.
  - destruct (IH (Z.max a x)) as [Ha Hl]. split; [lia|].
    intros z Hz. apply elem_of_cons in Hz as [->|Hz]; [lia|by apply Hl].
Qed.

Lemma max_default_ge (l : list Z) (d z : Z) : z ∈ l → z ≤ max_default l d.
Proof.
  destruct l as [|x l]; simpl; [by intros Hz; apply elem_of_nil in Hz|].
  destruct (foldl_max_ge x l) as [Hx Hl].
  intros Hz. apply elem_of_cons in Hz as [->|Hz]; [done|by apply Hl].
Qed.

Lemma item_ids_ids (kb : list (dict num)) (zs : list Z) :
  item_ids kb = Return zs → id_of <$> kb = Some <$> zs.
Proof.
  revert zs. induction kb as [|item kb IH]; intros zs; simpl.
  - by intros [= <-].
  - unfold id_of at 1, getitem.
    destruct (item !! "id") as [v|]; [|done].
    destruct (as_int v) as [z|]; [|done].
    destruct (item_ids kb) as [zs'|]; [|done].
    intros [= <-]. rewrite fmap_cons. f_equal. by apply IH.
Qed.

(** C3 (as amended). The store allocates ids from a counter: it starts at
    the largest loaded id plus 1 (at 1 for an empty store), every create
    assigns its current value and advances it by one, and a delete does not
    lower it. After any sequence of calls every stored id is below the
    counter, so the id of the next create is new; ids are assigned in
    increasing order, stay distinct when the loaded ids are distinct, and
    positive when the loaded ids are positive. The id of the next create is
    the largest stored id plus 1 only as long as the item with the largest
    id has not been deleted. No single call lowers the counter. *)
Theorem create_item_allocates_fresh_ids (file : option (list (dict num)))
    (ops : list op) (s0 : KnowledgeManager.t num) :
  init file = Return s0 → allocates_fresh_ids file ops s0.
Proof.
  unfold init. destruct (item_ids (default [] file)) as [zs|] eqn:Hzs; [|done].
  intros [= <-]. unfold allocates_fresh_ids.
  set (s0 := {| knowledge_base := default [] file;
                next_id := max_default zs 0 + 1;
                saved := default [] file;
                api_calls := 0 |}).
  assert (ids s0 = Some <$> zs) as Hids0 by (by apply item_ids_ids).
  assert (ids_below s0) as Hbelow0.
  { unfold ids_below. rewrite Hids0. apply Forall_fmap, Forall_forall.
    intros z Hz. exists z. split; [done|]. simpl.
    pose proof (max_default_ge zs 0 z Hz). lia. }
  destruct (run_invariants ops s0 Hbelow0) as (Hle & Hbelow & Hnd & Hpos).
  split; [by exists zs|]. split; [done|]. split; [done|]. split; [done|].
  split; [|split].
  - intros Hpos0. apply Hpos. split; [|done]. simpl.
    destruct zs as [|z zs']; [done|].
    pose proof (max_default_ge (z :: zs') 0 z ltac:(left)) as Hmax.
    unfold ids_positive in Hpos0. rewrite Hids0 in Hpos0.
    apply Forall_cons in Hpos0 as [Hz _]. specialize (Hz z eq_refl). lia.
  - intros item_data Hcomplete.
    destruct (create_item_run item_data (run ops s0) Hcomplete)
      as (item & s' & Hrun & Hid & Hids & Hnext).
    exists item, s'. split; [done|]. split; [done|]. split; [|done].
    intros Hin. unfold ids_below in Hbelow. rewrite Forall_forall in Hbelow.
    destruct (Hbelow _ Hin) as (z & [= <-] & Hz). lia.
  - intros o.
    apply (id_step_invariants _ _ (run_op_id_step o (run ops s0)) Hbelow).
Qed.

End Store.

(** A patch with a content and an unrecognized key, on the second item of
    the small knowledge base. *)
Lemma update_item_frame_example :
  @StoreSpec.updates_item Z Z_number (provider_up "{}") 2
    [("content", VStr "About b, revised"); ("id", VInt 9)]
    km_small 1 (article 2 "b" (of_vector [3; 4])).
Proof.
  apply (@update_item_frame Z Z_number (provider_up "{}")).
  reflexivity.
Defined.

(** Loading the small knowledge base, then create, delete, create. *)
Lemma create_item_allocates_fresh_ids_example :
  @StoreSpec.allocates_fresh_ids Z Z_number (provider_up "{}") (Some small_kb)
    [StoreSpec.Create draft; StoreSpec.Delete 4; StoreSpec.Create draft] km_small.
Proof.
  apply (@create_item_allocates_fresh_ids Z Z_number (provider_up "{}")).
  reflexivity.
Defined.

(** C3 as stated fails after a delete: on a store emptied by deleting its
    only item, the next create is given id 2, not 1. *)
Lemma create_item_after_delete_not_max_plus_one :
  let s := @StoreSpec.run Z Z_number (provider_up "{}")
             [StoreSpec.Create draft; StoreSpec.Delete 1] km_empty in
  KnowledgeManager.knowledge_base s = []
  ∧ (λ item : dict Z, item !! "id") <$>
      returned (@KnowledgeManager.create_item Z Z_number (provider_up "{}") draft s)
    = Some (Some (VInt 2))
  ∧ VInt (num := Z) 2 ≠ VInt 1.
Proof. split; [reflexivity|]. split; [reflexivity|]. intros [=]. Qed.

(** ** Embeddings and content *)

Section Embeddings.
Context `{Number num, Provider num, PyLib num}.
Context (E : value num → list num) (det : EmbeddingSpec.deterministic E).
Import EmbeddingSpec.

#[local] Abbreviation ok := (matches_content_or_fallback E).

Lemma embedding_at_value (n : nat) (c : value num) :
  StoreSpec.embedding_at n c = E c ∨ StoreSpec.embedding_at n c = zero_embedding.
Proof.
  unfold StoreSpec.embedding_at.
  destruct (embeddings_create n c) as [e|] eqn:He; [left|by right].
  simpl. by eapply det.
Qed.

(** An item whose embedding was just computed from its content. *)
Lemma embedded_ok (item : dict num) (c : value num) (e : list num) :
  item !! "content" = Some c →
  e = E c ∨ e = zero_embedding →
  ok (<["embedding" := of_vector e]> item).
Proof.
  intros Hc He. right. exists c. split; [by rewrite lookup_insert_ne|].
  rewrite lookup_insert_eq. destruct He as [->| ->]; auto.
Qed.

(** *** The knowledge manager *)

Lemma has_key_false_patch_get (k : string) (updates : list (string * value num)) :
  KnowledgeManager.has_key k updates = false → StoreSpec.patch_get k updates = None.
Proof.
  unfold KnowledgeManager.has_key.
  induction updates as [|[k' v] rest IH]; simpl; [done|].
  intros Hk. apply orb_false_iff in Hk as [Hk' Hrest].
  rewrite (IH Hrest). simpl. by rewrite Hk'.
Qed.

Lemma create_item_ok (item_data : dict num) :
  preserves (λ s, Forall ok (KnowledgeManager.knowledge_base s))
    (KnowledgeManager.create_item item_data).
Proof.
  intros s Hs.
  unfold KnowledgeManager.create_item, mbind, M_bind, get_state, lift, getitem.
  destruct (item_data !! "title") as [t|]; [|done].
  destruct (item_data !! "content") as [c|]; [|done].
  destruct (item_data !! "category") as [g|]; [|done].
  rewrite get_embedding_run. simpl.
  apply Forall_app. split; [done|]. constructor; [|done].
  apply (embedded_ok _ c); [done|apply embedding_at_value].
Qed.

Lemma update_item_ok (item_id : Z) (updates : list (string * value num)) :
  preserves (λ s, Forall ok (KnowledgeManager.knowledge_base s))
    (KnowledgeManager.update_item item_id updates).
Proof.
  intros s Hs.
  destruct (KnowledgeManager.find_by_id item_id (KnowledgeManager.knowledge_base s) 0)
    as [[[i item]|]|e] eqn:Hfind.
  - destruct (update_item_run item_id updates s i item Hfind)
      as (item' & s' & Hrun & Hkb & _ & _ & _ & Hother & Hrec & Hsame & Hnew).
    rewrite Hrun. simpl. rewrite Hkb. apply Forall_insert; [done|].
    apply find_by_id_lookup in Hfind as [_ Hi]. rewrite Nat.sub_0_r in Hi.
    rewrite Forall_forall in Hs.
    pose proof (Hs item (list_elem_of_lookup_2 _ _ _ Hi)) as Hitem.
    destruct (KnowledgeManager.has_key "content" updates) eqn:Hcontent.
    + destruct (Hnew eq_refl) as (c & _ & Hc & He).
      right. exists c. split; [done|]. rewrite He.
      destruct (embedding_at_value (KnowledgeManager.api_calls s) c) as [->| ->]; auto.
    + specialize (Hsame eq_refl).
      pose proof (Hrec "content" eq_refl) as Hc.
      rewrite (has_key_false_patch_get _ _ Hcontent) in Hc.
      destruct Hitem as [Hnone|(c & Hic & He)].
      * left. unfold dict_get in *. by rewrite Hsame.
      * right. exists c. rewrite Hc, Hsame. done.
  - unfold KnowledgeManager.update_item, mbind, M_bind, get_state, lift. by rewrite Hfind.
  - unfold KnowledgeManager.update_item, mbind, M_bind, get_state, lift. by rewrite Hfind.
Qed.

Lemma delete_item_ok (item_id : Z) :
  preserves (λ s, Forall ok (KnowledgeManager.knowledge_base s))
    (KnowledgeManager.delete_item item_id).
Proof.
  intros s Hs. unfold KnowledgeManager.delete_item, mbind, M_bind, get_state, lift.
  destruct (KnowledgeManager.find_by_id _ _ _) as [[[i item]|]|e]; simpl; [|done..].
  by apply Forall_delete.
Qed.

Lemma reembed_ok (i : nat) :
  preserves (λ s, Forall ok (KnowledgeManager.knowledge_base s)) (KnowledgeManager.reembed i).
Proof.
  unfold KnowledgeManager.reembed. apply preserves_bind_state. intros s Hs.
  destruct (KnowledgeManager.knowledge_base s !! i) as [item|] eqn:Hitem; [|done].
  unfold mbind, M_bind, lift, getitem.
  destruct (item !! "content") as [c|] eqn:Hc; [|done].
  rewrite get_embedding_run. simpl. apply Forall_insert; [done|].
  apply (embedded_ok _ c); [done|apply embedding_at_value].
Qed.

Lemma bulk_update_embeddings_ok :
  preserves (λ s, Forall ok (KnowledgeManager.knowledge_base s))
    KnowledgeManager.bulk_update_embeddings.
Proof.
  unfold KnowledgeManager.bulk_update_embeddings.
  apply preserves_bind; [apply preserves_get_state|]. intros s0.
  apply preserves_bind; [apply preserves_for_each, reembed_ok|]. intros _.
  apply preserves_bind; [|intros; apply preserves_ret].
  by apply preserves_modify.
Qed.

Lemma store_run_ok (ops : list StoreSpec.op) (s : KnowledgeManager.t num) :
  Forall ok (KnowledgeManager.knowledge_base s) →
  Forall ok (KnowledgeManager.knowledge_base (StoreSpec.run ops s)).
Proof.
  revert s. induction ops as [|o ops IH]; intros s Hs; [done|].
  simpl. apply IH. destruct o; simpl.
  - by apply create_item_ok.
  - by apply update_item_ok.
  - by apply delete_item_ok.
  - by apply bulk_update_embeddings_ok.
Qed.

(** *** The engine *)

Lemma sentinel_get_embedding_value (txt : string) (s : AISentinel.t num) :
  SentinelSpec.cache_sound s →
  ∃ e s1, AISentinel.get_embedding (VStr txt) s = (Return e, s1)
    ∧ AISentinel.knowledge_base s1 = AISentinel.knowledge_base s
    ∧ (e = E (VStr txt) ∨ e = zero_embedding).
Proof.
  intros Hs.
  destruct (AISentinel.embedding_cache s !! txt) as [v|] eqn:Hc.
  { rewrite (get_embedding_hit _ _ _ Hc). exists v, s. split; [done|]. split; [done|].
    destruct (Hs txt v Hc) as (n & _ & Hn). left. by eapply det. }
  destruct (embeddings_create (AISentinel.api_calls s) (VStr txt)) as [e|] eqn:He.
  - rewrite (get_embedding_miss_success _ _ _ Hc He).
    eexists _, _. split; [done|]. split; [done|]. left. by eapply det.
  - rewrite (get_embedding_miss_failure _ _ Hc He).
    eexists _, _. split; [done|]. split; [done|]. by right.
Qed.

#[local] Abbreviation sound_and_ok := (sound_and_ok E).

Lemma sentinel_get_embedding_ok (text : value num) :
  preserves sound_and_ok (AISentinel.get_embedding text).
Proof.
  intros s [Hsound Hok]. split; [by apply get_embedding_cache_sound|].
  by apply (get_embedding_collection (Forall ok)).
Qed.

Lemma ensure_embedding_ok (i : nat) :
  preserves sound_and_ok (AISentinel.ensure_embedding i).
Proof.
  intros s [Hsound Hok]. split; [by apply ensure_embedding_cache_sound|].
  unfold AISentinel.ensure_embedding, mbind at 1, M_bind at 1, get_state.
  destruct (AISentinel.knowledge_base s !! i) as [item|] eqn:Hitem; [|done].
  destruct (truthy _); [done|].
  unfold mbind, M_bind, lift, getitem.
  destruct (item !! "content") as [c|] eqn:Hc; [|done].
  destruct c as [| | | |txt| |]; try done.
  destruct (sentinel_get_embedding_value txt s Hsound) as (e & s1 & Hrun & Hkb & He).
  rewrite Hrun. simpl. rewrite Hkb. apply Forall_insert; [done|].
  by apply (embedded_ok _ (VStr txt)).
Qed.

Lemma call_chat_ok (req : ChatRequest) : preserves sound_and_ok (AISentinel.call_chat req).
Proof.
  intros s [Hsound Hok]. split; [by apply call_chat_cache_sound|].
  unfold AISentinel.call_chat. by destruct (chat_completions_create _ _).
Qed.

Lemma sentinel_run_ok (calls : list SentinelSpec.call) (s : AISentinel.t num) :
  sound_and_ok s → sound_and_ok (SentinelSpec.run calls s).
Proof.
  revert s. induction calls as [|c calls IH]; intros s Hs; [done|].
  simpl. apply IH. destruct c; simpl.
  - by apply sentinel_get_embedding_ok.
  - apply search_knowledge_base_preserves;
      auto using sentinel_get_embedding_ok, ensure_embedding_ok.
  - apply process_query_preserves;
      auto using sentinel_get_embedding_ok, ensure_embedding_ok, call_chat_ok.
Qed.

(** C2 (as amended). With a provider that computes a function of the text
    whenever it answers, in every state reached from a store or an engine
    in which it holds, each item's embedding is absent or null, or the
    provider's embedding of the item's current content, or the zero vector
    of length 1536 that was stored because the provider call failed when
    the embedding was computed. Content updates recompute the embedding,
    the backfill of a search fills in the missing ones. A stored zero
    vector is kept: nothing in the code recognizes it as stale. *)
Theorem embedding_matches_content_or_fallback : invariant_of_both_stores E.
Proof.
  split.
  - intros ops s. apply store_run_ok.
  - intros calls s Hsound Hok. by apply (sentinel_run_ok calls s).
Qed.

End Embeddings.

Lemma embedding_matches_content_or_fallback_example :
  @EmbeddingSpec.invariant_of_both_stores Z Z_number (provider_flaky "{}") lib_plain
    (λ _, [3; 4]).
Proof.
  apply (@embedding_matches_content_or_fallback Z Z_number (provider_flaky "{}") lib_plain).
  intros n text e. simpl. destruct (n =? 0)%nat; [done|]. by intros [= <-].
Defined.

(** C2 as stated fails when the provider is down while an item is created:
    the zero vector is stored, which is neither null nor the provider's
    embedding of the content, and a later search with the provider up
    again leaves it in place. *)
Lemma zero_vector_stored_and_kept :
  let E : value Z → list Z := λ _, [3; 4] in
  let kb := KnowledgeManager.knowledge_base
              (@KnowledgeManager.create_item Z Z_number provider_down draft km_empty).2 in
  ¬ Forall (EmbeddingSpec.matches_content E) kb
  ∧ AISentinel.knowledge_base
      (@AISentinel.search_knowledge_base Z Z_number (provider_up "{}") "q" 3
         (AISentinel.init (Some kb))).2 = kb.
Proof.
  intros E kb. split.
  - intros Hall. apply Forall_cons in Hall as [[Hnone|(c & Hc & He)] _].
    + discriminate Hnone.
    + apply (f_equal (λ o, match o with
                           | Some (VList l) => length l
                           | _ => 0%nat
                           end)) in He.
      discriminate He.
  - reflexivity.
Qed.

(** * Further properties of the knowledge store *)

Section Crud.
Context `{Number num, Provider num, PyLib num}.
Import KnowledgeManager StoreSpec CrudSpec.

Lemma id_of_eq_int (item : dict num) (z : Z) :
  id_of item = Some z →
  ∃ v, getitem item "id" = Return v ∧ ∀ item_id, eq_int v item_id = (z =? item_id).
Proof.
  unfold id_of, getitem. destruct (item !! "id") as [v|]; [|done].
  destruct v as [|b|z'|x|str|l|d]; simpl; try done.
  - intros [= <-]. by exists (VBool b).
  - intros [= <-]. by exists (VInt z').
Qed.

Lemma find_by_id_skip (item_id : Z) (l l2 : list (dict num)) (k : nat) :
  other_ids item_id l →
  find_by_id item_id (l ++ l2) k = find_by_id item_id l2 (k + length l).
Proof.
  intros Hl. revert k. induction Hl as [|item l (z & Hz & Hne) _ IH]; intros k.
  - simpl. by rewrite Nat.add_0_r.
  - simpl. destruct (id_of_eq_int item z Hz) as (v & -> & Heq).
    rewrite Heq. destruct (Z.eqb_spec z item_id) as [|_]; [done|].
    rewrite IH. f_equal. lia.
Qed.

Lemma find_by_id_none (item_id : Z) (l : list (dict num)) (k : nat) :
  other_ids item_id l → find_by_id item_id l k = Return None.
Proof.
  intros Hl. rewrite <- (app_nil_r l). by rewrite find_by_id_skip.
Qed.

Lemma find_by_id_here (item_id : Z) (item : dict num) (l : list (dict num)) (k : nat) :
  id_of item = Some item_id →
  find_by_id item_id (item :: l) k = Return (Some (k, item)).
Proof.
  intros Hid. simpl. destruct (id_of_eq_int item item_id Hid) as (v & -> & Heq).
  by rewrite Heq, Z.eqb_refl.
Qed.

Lemma ids_below_other_ids (s : KnowledgeManager.t num) :
  ids_below s → other_ids (next_id s) (knowledge_base s).
Proof.
  unfold ids_below, ids, other_ids. rewrite Forall_fmap. intros Hbelow.
  eapply Forall_impl; [exact Hbelow|].
  intros item (z & Hz & Hlt). exists z. split; [done|lia].
Qed.

Lemma other_ids_not_found (item_id : Z) (s : KnowledgeManager.t num) :
  other_ids item_id (knowledge_base s) → reports_not_found item_id s.
Proof.
  intros Hother. pose proof (find_by_id_none item_id _ 0%nat Hother) as Hfind.
  unfold reports_not_found, get_item_by_id, update_item, delete_item.
  unfold mbind, M_bind, get_state, lift. rewrite Hfind. done.
Qed.

(** X2. An id that no item has is reported as not found by lookup, update and
    delete, without an exception and without any change of the store. *)
Theorem absent_id_reports_not_found (item_id : Z) (s : KnowledgeManager.t num) :
  other_ids item_id (knowledge_base s) → reports_not_found item_id s.
Proof. apply other_ids_not_found. Qed.

(** X1. A create followed by a lookup of the new id returns the item just
    created: the fields of the draft under the new id, without the
    embedding. *)
Theorem create_then_get_item (item_data : dict num) (s : KnowledgeManager.t num)
    (title content category : value num) :
  item_data !! "title" = Some title →
  item_data !! "content" = Some content →
  item_data !! "category" = Some category →
  ids_below s →
  created_then_found item_data s title content category.
Proof.
  intros Ht Hc Hg Hbelow. unfold created_then_found.
  assert (∀ e : value num,
            without_embedding
              (<["embedding" := e]>
                 ({[ "id" := VInt (next_id s); "title" := title; "content" := content;
                     "category" := category;
                     "tags" := dict_get_default item_data "tags" (VList []);
                     "embedding" := VNone ]} : dict num))
            = visible_item s item_data title content category) as Hvisible.
  { intros e. unfold without_embedding, visible_item.
    rewrite delete_insert_eq. rewrite !delete_insert_ne by done.
    by rewrite delete_singleton_eq, insert_empty. }
  eexists. split.
  - unfold create_item, mbind, M_bind, get_state, lift, getitem.
    rewrite Ht, Hc, Hg, get_embedding_run. simpl. rewrite Hvisible. reflexivity.
  - unfold get_item_by_id, mbind, M_bind, get_state, lift. simpl.
    rewrite find_by_id_skip by (by apply ids_below_other_ids).
    rewrite find_by_id_here; [by rewrite Hvisible|].
    unfold id_of. rewrite lookup_insert_ne by done. by rewrite lookup_insert_eq.
Qed.

(** X3. A delete removes the first item that has the id, and only that item;
    if no later item has the id either, the id is not found afterwards. *)
Theorem delete_item_removes_first (item_id : Z) (s : KnowledgeManager.t num)
    (before after : list (dict num)) (item : dict num) :
  knowledge_base s = before ++ item :: after →
  other_ids item_id before →
  id_of item = Some item_id →
  deletes_first item_id s before after.
Proof.
  intros Hkb Hbefore Hitem. unfold deletes_first.
  assert (find_by_id item_id (knowledge_base s) 0
          = Return (Some (length before, item))) as Hfind.
  { rewrite Hkb, find_by_id_skip by done. by apply find_by_id_here. }
  assert (delete (length before) (before ++ item :: after) = before ++ after) as Hdel.
  { clear. induction before as [|x before IH]; [done|]. simpl. by rewrite IH. }
  eexists. split.
  { unfold delete_item, mbind, M_bind, get_state, lift. rewrite Hfind. reflexivity. }
  simpl. rewrite Hkb, Hdel. repeat (split; [done|]).
  intros Hafter. apply other_ids_not_found.
  simpl. by apply Forall_app.
Qed.

End Crud.

Section Persistence.
Context `{Number num, Provider num, PyLib num}.
Import KnowledgeManager StoreSpec CrudSpec.

(** X4. Every call that changes the collection and returns has written the
    file: after a create, an update, a delete, and after a re-embedding
    that returns, the file holds the collection in memory. *)
Theorem mutations_are_persisted (s : KnowledgeManager.t num) :
  persisted s → keeps_persisted s.
Proof.
  intros Hs. unfold keeps_persisted, persisted. split; [|split; [|split]].
  - intros item_data.
    unfold create_item, mbind, M_bind, get_state, lift, getitem.
    destruct (item_data !! "title"); [|done].
    destruct (item_data !! "content"); [|done].
    destruct (item_data !! "category"); [|done].
    by rewrite get_embedding_run.
  - intros item_id updates.
    destruct (find_by_id item_id (knowledge_base s) 0) as [[[i item]|]|e] eqn:Hfind.
    + destruct (update_item_run item_id updates s i item Hfind)
        as (item' & s' & Hrun & _ & Hsaved & _).
      by rewrite Hrun.
    + unfold update_item, mbind, M_bind, get_state, lift. by rewrite Hfind.
    + unfold update_item, mbind, M_bind, get_state, lift. by rewrite Hfind.
  - intros item_id. unfold delete_item, mbind, M_bind, get_state, lift.
    by destruct (find_by_id item_id (knowledge_base s) 0) as [[[i item]|]|e].
  - intros n s'. unfold bulk_update_embeddings.
    unfold mbind, M_bind, get_state, _save_knowledge_base, modify, mret, M_ret.
    destruct (for_each reembed _ s) as [[[]|e] s1]; [|done].
    by intros [= _ <-].
Qed.

(** The loop invariant of the re-embedding, relative to the collection
    [kb0] and the call count [n0] at its start. *)
Lemma reembed_step (kb0 : list (dict num)) (n0 i : nat) (s : KnowledgeManager.t num) :
  (i < length kb0)%nat →
  Forall (λ item, is_Some (item !! "content")) kb0 →
  api_calls s = (n0 + i)%nat →
  length (knowledge_base s) = length kb0 →
  (∀ j item, (i ≤ j)%nat → kb0 !! j = Some item → knowledge_base s !! j = Some item) →
  ∃ item c,
    kb0 !! i = Some item ∧ item !! "content" = Some c
    ∧ reembed i s
      = (Return tt,
         set_knowledge_base
           (<[i := <["embedding" := of_vector (embedding_at (n0 + i) c)]> item]>) (tick s)).
Proof.
  intros Hi Hcontent Hcalls Hlen Hrest.
  destruct (lookup_lt_is_Some_2 kb0 i Hi) as [item Hitem].
  rewrite Forall_forall in Hcontent.
  destruct (Hcontent item (list_elem_of_lookup_2 _ _ _ Hitem)) as [c Hc].
  exists item, c. split; [done|]. split; [done|].
  unfold reembed, mbind, M_bind, get_state, lift, getitem.
  rewrite (Hrest i item (le_n _) Hitem), Hc, get_embedding_run, Hcalls. done.
Qed.

Lemma reembed_loop (kb0 : list (dict num)) (n0 m i : nat) (s : KnowledgeManager.t num) :
  (i + m = length kb0)%nat →
  Forall (λ item, is_Some (item !! "content")) kb0 →
  api_calls s = (n0 + i)%nat →
  length (knowledge_base s) = length kb0 →
  (∀ j item, (i ≤ j)%nat → kb0 !! j = Some item → knowledge_base s !! j = Some item) →
  (∀ j item, (j < i)%nat → kb0 !! j = Some item →
     ∃ c, item !! "content" = Some c
       ∧ knowledge_base s !! j
         = Some (<["embedding" := of_vector (embedding_at (n0 + j) c)]> item)) →
  ∃ s',
    for_each reembed (seq i m) s = (Return tt, s')
    ∧ api_calls s' = (n0 + length kb0)%nat
    ∧ next_id s' = next_id s
    ∧ saved s' = saved s
    ∧ length (knowledge_base s') = length kb0
    ∧ ∀ j item, kb0 !! j = Some item →
        ∃ c, item !! "content" = Some c
          ∧ knowledge_base s' !! j
            = Some (<["embedding" := of_vector (embedding_at (n0 + j) c)]> item).
Proof.
  revert i s. induction m as [|m IH]; intros i s Him Hcontent Hcalls Hlen Hrest Hdone.
  - exists s. split; [done|]. split; [lia|]. split; [done|]. split; [done|].
    split; [done|]. intros j item Hj. apply Hdone; [|done].
    apply lookup_lt_Some in Hj. lia.
  - destruct (reembed_step kb0 n0 i s) as (item & c & Hitem & Hc & Hstep);
      [lia|done..|].
    destruct (IH (Datatypes.S i)
                (set_knowledge_base
                   (<[i := <["embedding" := of_vector (embedding_at (n0 + i) c)]> item]>)
                   (tick s)))
      as (s' & Hloop & Hcalls' & Hnext & Hsaved & Hlen' & Hall).
    + lia.
    + done.
    + simpl. lia.
    + simpl. by rewrite length_insert.
    + intros j item' Hj Hitem'. simpl.
      rewrite list_lookup_insert_ne by lia. apply Hrest; [lia|done].
    + intros j item' Hj Hitem'. simpl.
      destruct (decide (j = i)) as [->|Hne].
      * assert (item' = item) as -> by congruence.
        exists c. split; [done|]. by rewrite list_lookup_insert_eq by lia.
      * rewrite list_lookup_insert_ne by done. apply Hdone; [lia|done].
    + exists s'. split; [|done].
      simpl. unfold mbind, M_bind. by rewrite Hstep.
Qed.

(** X5. On a store whose items all have a content, [bulk_update_embeddings]
    calls the provider once per item, in collection order, gives every
    item the embedding computed from its content at its call and keeps its
    other fields, returns the number of items and writes the file. *)
Theorem bulk_update_embeddings_reembeds_all (s : KnowledgeManager.t num) :
  Forall (λ item, is_Some (item !! "content")) (knowledge_base s) →
  reembeds_all s.
Proof.
  intros Hcontent. unfold reembeds_all.
  destruct (reembed_loop (knowledge_base s) (api_calls s)
              (length (knowledge_base s)) 0 s)
    as (s1 & Hloop & Hcalls & Hnext & Hsaved & Hlen & Hall);
    try done; try lia; try (intros j item Hj; lia).
  eexists. split.
  { unfold bulk_update_embeddings, mbind, M_bind, get_state.
    rewrite Hloop. reflexivity. }
  simpl. repeat (split; [done|]). done.
Qed.

End Persistence.

(** *** The knowledge store on the small knowledge base *)

Lemma small_kb_other_ids (item_id : Z) :
  3 < item_id → @CrudSpec.other_ids Z item_id small_kb.
Proof.
  intros Hid. repeat constructor.
  - exists 1. split; [reflexivity|lia].
  - exists 2. split; [reflexivity|lia].
  - exists 3. split; [reflexivity|lia].
Defined.

Lemma absent_id_reports_not_found_example :
  @CrudSpec.reports_not_found Z Z_number (provider_up "{}") 7 km_small.
Proof.
  apply (@absent_id_reports_not_found Z Z_number (provider_up "{}")).
  apply small_kb_other_ids. lia.
Defined.

Lemma create_then_get_item_example :
  @CrudSpec.created_then_found Z Z_number (provider_up "{}") draft km_small
    (VStr "d") (VStr "About d") (VStr "General").
Proof.
  apply (@create_then_get_item Z Z_number (provider_up "{}")).
  - reflexivity.
  - reflexivity.
  - reflexivity.
  - repeat constructor.
    + exists 1. split; [reflexivity|simpl; lia].
    + exists 2. split; [reflexivity|simpl; lia].
    + exists 3. split; [reflexivity|simpl; lia].
Defined.

Lemma delete_item_removes_first_example :
  @CrudSpec.deletes_first Z Z_number (provider_up "{}") 2 km_small
    [article 1 "a" (of_vector [3; 4])] [article 3 "c" (of_vector [3; 4])].
Proof.
  apply (@delete_item_removes_first Z Z_number (provider_up "{}") 2 km_small
           _ _ (article 2 "b" (of_vector [3; 4]))).
  - reflexivity.
  - repeat constructor. exists 1. split; [reflexivity|lia].
  - reflexivity.
Defined.

Lemma mutations_are_persisted_example :
  @CrudSpec.keeps_persisted Z Z_number (provider_up "{}") km_small.
Proof.
  apply (@mutations_are_persisted Z Z_number (provider_up "{}")).
  reflexivity.
Defined.

Lemma bulk_update_embeddings_reembeds_all_example :
  @CrudSpec.reembeds_all Z Z_number (provider_up "{}") km_small.
Proof.
  apply (@bulk_update_embeddings_reembeds_all Z Z_number (provider_up "{}")).
  repeat constructor; by eexists.
Defined.

(** * Further properties of the engine *)

Section Engine.
Context `{Number num, Provider num, PyLib num}.
Import AISentinel SearchSpec QuerySpec EngineSpec.

Lemma only_embedding_added_refl (item : dict num) : only_embedding_added item item.
Proof. by split. Qed.

Lemma ensure_embedding_backfill (kb0 : list (dict num)) (i : nat) :
  preserves (λ s, Forall2 only_embedding_added kb0 (knowledge_base s)) (ensure_embedding i).
Proof.
  unfold ensure_embedding. apply preserves_bind_state. intros s Hs.
  destruct (knowledge_base s !! i) as [item|] eqn:Hitem; [|done].
  destruct (truthy (dict_get item "embedding")) eqn:Htruthy; [done|].
  unfold mbind, M_bind, lift. destruct (getitem item "content") as [c|]; [|done].
  pose proof (get_embedding_knowledge_base (knowledge_base s) c s eq_refl) as Hkb.
  destruct (get_embedding c s) as [[e|x] s1]; simpl in *; [|by rewrite Hkb].
  rewrite Hkb.
  destruct (Forall2_lookup_r _ _ _ i item Hs Hitem) as (item0 & Hitem0 & [Hsame Hkeys]).
  rewrite <- (list_insert_id kb0 i item0 Hitem0).
  apply Forall2_insert; [done|]. split.
  - intros Htruthy0. rewrite (Hsame Htruthy0) in Htruthy. congruence.
  - intros k Hk. rewrite lookup_insert_ne by done. by apply Hkeys.
Qed.

(** X6. A search, whether it returns or raises, changes the collection only
    by adding embeddings: the collection keeps its length and order, an
    item that had an embedding is untouched, and every other item keeps
    the value of each key except the embedding. *)
Theorem search_only_adds_embeddings (query : string) (top_k : Z) (s : AISentinel.t num) :
  Forall2 only_embedding_added (knowledge_base s)
    (knowledge_base (search_knowledge_base query top_k s).2).
Proof.
  apply (search_knowledge_base_preserves
           (λ s', Forall2 only_embedding_added (knowledge_base s) (knowledge_base s'))).
  - intros text.
    apply (get_embedding_collection (Forall2 only_embedding_added (knowledge_base s))).
  - apply ensure_embedding_backfill.
  - apply Forall_Forall2_diag, Forall_forall. intros item _.
    apply only_embedding_added_refl.
Qed.

Lemma ensure_embeddings_warm (l : list nat) (s : AISentinel.t num) :
  Forall embedded (knowledge_base s) →
  for_each ensure_embedding l s = (Return tt, s).
Proof.
  intros Hs. induction l as [|i l IH]; [done|].
  simpl. unfold mbind at 1, M_bind at 1.
  assert (ensure_embedding i s = (Return tt, s)) as ->; [|done].
  unfold ensure_embedding, mbind, M_bind, get_state.
  destruct (knowledge_base s !! i) as [item|] eqn:Hitem; [|done].
  rewrite Forall_forall in Hs.
  by rewrite (Hs item (list_elem_of_lookup_2 _ _ _ Hitem)).
Qed.

(** X7. When the query is cached and every item has an embedding, a search
    changes nothing: no provider call is made, the cache and the
    collection are as before. *)
Theorem search_warm_changes_nothing (query : string) (top_k : Z) (s : AISentinel.t num) :
  is_Some (embedding_cache s !! query) →
  Forall embedded (knowledge_base s) →
  (search_knowledge_base query top_k s).2 = s.
Proof.
  intros [qe Hqe] Hs. unfold search_knowledge_base.
  rewrite (bind_run _ _ _ _ _ (get_embedding_hit _ _ _ Hqe)).
  unfold mbind at 1, M_bind at 1, get_state.
  rewrite (bind_run _ _ _ _ _ (ensure_embeddings_warm _ _ Hs)).
  unfold mbind at 1, M_bind at 1, get_state.
  pose proof (mapM_score_item_state qe (knowledge_base s) s) as Hstate.
  unfold mbind, M_bind.
  by destruct (mapM (score_item qe) (knowledge_base s) s) as [[scored|e] s1].
Qed.

(** X8. A vector obtained from the provider is served from the cache
    afterwards: the same call repeated returns the same vector without a
    provider call. *)
Theorem get_embedding_cached_after_success (txt : string) (e : list num)
    (s : AISentinel.t num) :
  embedding_cache s !! txt = None →
  embeddings_create (api_calls s) (VStr txt) = Some e →
  cached_after_success txt e s.
Proof.
  intros Hmiss He. exists (set_embedding_cache (<[txt := e]>) (tick s)).
  split; [by apply get_embedding_miss_success|]. split; [done|].
  apply get_embedding_hit. simpl. apply lookup_insert_eq.
Qed.

Lemma source_ids_run (items : list (dict num)) (ids : list (value num))
    (s : AISentinel.t num) :
  Forall2 (λ item id, item !! "id" = Some id) items ids →
  mapM (λ item : dict num, lift (getitem item "id")) items s = (Return ids, s).
Proof.
  induction 1 as [|item id items ids Hid _ IH]; [done|].
  simpl. unfold mbind at 1, M_bind at 1, lift at 1, getitem at 1. rewrite Hid.
  unfold mbind at 1, M_bind at 1. by rewrite IH.
Qed.

(** X9. When retrieval and rendering have returned, every retrieved item
    has an id, the provider answers and its answer parses to an object,
    [process_query] returns that object; if the object does not name its
    sources, the ids of the retrieved items, in retrieval order, are
    entered as its sources. *)
Theorem process_query_repairs_source_ids (query : string) (user_info : option (dict num))
    (s s1 : AISentinel.t num) (items : list (dict num)) (ctx content : string)
    (d : dict num) (ids : list (value num)) :
  prepare query s = (Return (items, ctx), s1) →
  chat_completions_create (api_calls s1)
    (request_of query ctx (user_context_of user_info)) = Some content →
  json_loads content = Some (VDict d) →
  Forall2 (λ item id, item !! "id" = Some id) items ids →
  process_query query user_info s = (Return (VDict (with_source_ids d ids)), tick s1).
Proof.
  intros Hprepare Hchat Hjson Hids. unfold prepare, process_query in *.
  unfold mbind at 1, M_bind at 1 in Hprepare. unfold mbind at 1, M_bind at 1.
  destruct (search_knowledge_base query 3 s) as [[items'|e1] s1']; [|done].
  unfold mbind at 1, M_bind at 1 in Hprepare. unfold mbind at 1, M_bind at 1.
  destruct (knowledge_context_of items' s1') as [[ctx'|e2] s2]; [|done].
  injection Hprepare as -> -> ->.
  unfold try_except, answer.
  unfold mbind at 1, M_bind at 1, call_chat. unfold request_of in Hchat. rewrite Hchat.
  unfold mbind at 1, M_bind at 1, lift at 1. rewrite Hjson.
  rewrite (bind_run _ _ _ _ _ (source_ids_run _ _ _ Hids)).
  unfold mbind, M_bind, lift, contains_key, setitem, with_source_ids, mret, M_ret.
  destruct (d !! "sourceKnowledgeIds") as [v|] eqn:Hd.
  - rewrite bool_decide_eq_true_2 by eauto. done.
  - rewrite bool_decide_eq_false_2; [done|]. by intros [v Hv].
Qed.

End Engine.

(** *** The engine on the small knowledge base *)

Lemma search_warm_changes_nothing_example :
  (@AISentinel.search_knowledge_base Z Z_number (provider_up "{}") "q" 2 sentinel_warm).2
  = sentinel_warm.
Proof.
  apply (@search_warm_changes_nothing Z Z_number (provider_up "{}")).
  - by exists [3; 4].
  - repeat constructor.
Defined.

Lemma get_embedding_cached_after_success_example :
  @EngineSpec.cached_after_success Z Z_number (provider_up "{}") "q" [3; 4]
    (AISentinel.init (Some small_kb)).
Proof.
  apply (@get_embedding_cached_after_success Z Z_number (provider_up "{}")).
  - reflexivity.
  - reflexivity.
Defined.

Lemma process_query_repairs_source_ids_example :
  @AISentinel.process_query Z Z_number (provider_up "{}")
    (lib_object {[ "answer" := VStr "Use the login page." ]}) "q" None
    (AISentinel.init (Some small_kb))
  = (Return (VDict (EngineSpec.with_source_ids
                      {[ "answer" := VStr "Use the login page." ]}
                      [VInt 1; VInt 2; VInt 3])),
     AISentinel.tick sentinel_warm).
Proof.
  apply (@process_query_repairs_source_ids Z Z_number (provider_up "{}")
           (lib_object {[ "answer" := VStr "Use the login page." ]})
           "q" None (AISentinel.init (Some small_kb)) sentinel_warm
           small_kb small_context "{}").
  - reflexivity.
  - reflexivity.
  - reflexivity.
  - repeat constructor.
Defined.

(** * Knowledge gaps and keywords *)

Lemma chars_str (l : list ascii) : chars (str l) = l.
Proof. apply list_ascii_of_string_of_list_ascii. Qed.

Lemma str_chars (s : string) : str (chars s) = s.
Proof. apply string_of_list_ascii_of_string. Qed.

Lemma len_chars (s : string) : len s = length (chars s).
Proof. unfold len, chars. induction s as [|c s IH]; [done|]. simpl. by rewrite IH. Qed.

Section Gaps.
Context `{Number num, Provider num, PyLib num}.
Import AISentinel GapsSpec.

Lemma Forall_omap {A B} (f : A → option B) (P : B → Prop) (l : list A) :
  (∀ x y, f x = Some y → P y) → Forall P (omap f l).
Proof.
  intros Hf. induction l as [|x l IH]; [constructor|].
  cbn [omap list_omap]. destruct (f x) as [y|] eqn:Hy; [|done].
  constructor; [by eapply Hf|done].
Qed.

Lemma list_suggestions_long (lines : list string) :
  Forall (λ sg, (10 < len sg)%nat) (list_suggestions lines).
Proof.
  unfold list_suggestions. apply Forall_omap. intros line sg.
  destruct (is_list_item (strip line)); [|done].
  destruct (negb _); [|done]. cbn [andb].
  destruct (10 <? len (strip (lstrip_marker (strip line))))%nat eqn:Hlen; [|done].
  intros [= <-]. by apply Nat.ltb_lt.
Qed.

Lemma parse_suggestions_well_parsed (reply : string) :
  well_parsed reply (parse_suggestions reply).
Proof.
  unfold well_parsed, parse_suggestions.
  pose proof (list_suggestions_long (split LF reply)) as Hlong.
  destruct (list_suggestions (split LF reply)) as [|sg sgs].
  - destruct (String.eqb_spec (strip reply) EmptyString) as [Hblank|Hne]; simpl.
    + split; [by left|done].
    + split; [by right|done].
  - split; [by left|done].
Qed.

(** X10. [generate_knowledge_gaps] never raises and has no effect but one
    provider call. When the provider fails it returns the three fixed
    topics. Otherwise every suggestion it returns has more than 10
    characters, or it returns the whole reply, stripped, as the only
    suggestion; it returns no suggestion only for a blank reply. *)
Theorem generate_knowledge_gaps_contract (queries : list string) (s : AISentinel.t num) :
  gaps_contract queries s.
Proof.
  unfold gaps_contract, generate_knowledge_gaps, try_except, mbind, M_bind, call_chat.
  fold (request_of queries).
  destruct (chat_completions_create (api_calls s) (request_of queries)) as [reply|].
  - eexists. split; [reflexivity|]. split; [done|]. apply parse_suggestions_well_parsed.
  - by eexists.
Qed.

(** *** Keywords *)

Lemma word_runs_chars (cur l : list ascii) :
  Forall (λ c, is_word_char c = true) cur →
  Forall (λ run, Forall (λ c, is_word_char c = true) run
                 ∧ ∀ c, c ∈ run → c ∈ cur ∨ c ∈ l)
    (word_runs cur l).
Proof.
  revert cur. induction l as [|x l IH]; intros cur Hcur; simpl.
  - destruct cur as [|c cur]; [constructor|].
    constructor; [|constructor]. split.
    + by apply Forall_reverse.
    + intros c' Hc'. left. by apply elem_of_reverse.
  - destruct (is_word_char x) eqn:Hx.
    + eapply Forall_impl; [apply IH; by constructor|].
      intros run [Hrun Hin]. split; [done|]. intros c Hc.
      destruct (Hin c Hc) as [Hcur'|Hl]; [|right; by right].
      apply elem_of_cons in Hcur' as [->|Hcur']; [right; by left|by left].
    + assert (Forall (λ run, Forall (λ c, is_word_char c = true) run
                             ∧ ∀ c, c ∈ run → c ∈ cur ∨ c ∈ x :: l)
                (word_runs [] l)) as Hrest.
      { eapply Forall_impl; [apply IH; constructor|].
        intros run [Hrun Hin]. split; [done|]. intros c Hc.
        destruct (Hin c Hc) as [Hnil|Hl]; [by apply elem_of_nil in Hnil|].
        right. by right. }
      destruct cur as [|c cur]; [done|].
      constructor; [|done]. split.
      * by apply Forall_reverse.
      * intros c' Hc'. left. by apply elem_of_reverse.
Qed.

Lemma lower_char_idemp (c : ascii) : lower_char (lower_char c) = lower_char c.
Proof.
  destruct c as [[] [] [] [] [] [] [] []]; reflexivity.
Qed.

Lemma lower_fixed (w : string) :
  Forall (λ c, lower_char c = c) (chars w) → lower w = w.
Proof.
  intros Hw. unfold lower. rewrite <- (str_chars w) at 2. f_equal.
  induction Hw as [|c l Hc _ IH]; [done|]. rewrite fmap_cons. by rewrite Hc, IH.
Qed.

(** X11. Every keyword that [extract_keywords] returns is a run of at least two
    word characters in lower case and is not a stop word. *)
Theorem extract_keywords_keywords (text : string) :
  Forall keyword (extract_keywords text).
Proof.
  unfold extract_keywords. apply Forall_forall. intros w Hw.
  apply list_elem_of_filter in Hw as [[Hstop Hlen] Hin].
  unfold findall_words in Hin. apply list_elem_of_fmap in Hin as (run & -> & Hrun).
  pose proof (word_runs_chars [] (chars (lower text)) (Forall_nil_2 _)) as Hruns.
  rewrite Forall_forall in Hruns. destruct (Hruns run Hrun) as [Hword Hfrom].
  split; [done|]. split; [done|]. rewrite chars_str. split; [done|].
  apply lower_fixed. rewrite chars_str. apply Forall_forall. intros c Hc.
  destruct (Hfrom c Hc) as [Hnil|Hlow]; [by apply elem_of_nil in Hnil|].
  unfold lower in Hlow. rewrite chars_str in Hlow.
  apply list_elem_of_fmap in Hlow as (c0 & -> & _). apply lower_char_idemp.
Qed.

End Gaps.

(** The reply of the specification's example: two list items and a line
    that is none. *)
Example parse_suggestions_list_items :
  AISentinel.parse_suggestions
    ("1. Topic A details here" +:+ NL +:+ "- Topic B with enough length" +:+ NL +:+
     "not a list item")
  = ["Topic A details here"; "Topic B with enough length"].
Proof. reflexivity. Qed.

Example extract_keywords_question :
  AISentinel.extract_keywords "How do I reset my ERP password?" = ["reset"; "erp"; "password"].
Proof. reflexivity. Qed.

(** * The read filters of the knowledge store *)

Section Filters.
Context `{Number num, Provider num, PyLib num}.
Import KnowledgeManager FilterSpec.

Lemma matching_category_filter (category : string) (l : list (dict num)) :
  Forall (λ item, ∃ g, item !! "category" = Some (VStr g)) l →
  matching_category category l = Ok (filter (λ item, category_is category item = true) l).
Proof.
  induction 1 as [|item l [g Hg] _ IH]; [done|].
  rewrite filter_cons. cbn [matching_category]. rewrite Hg. cbn [lower_of]. rewrite IH.
  assert (category_is category item = String.eqb (lower g) (lower category)) as Hc.
  { unfold category_is. by rewrite Hg. }
  destruct (String.eqb (lower g) (lower category)) eqn:Heq.
  - by rewrite decide_True.
  - rewrite decide_False; [done|]. by rewrite Hc.
Qed.

Lemma matching_category_skip (category : string) (before rest : list (dict num)) :
  Forall (λ item, ∃ g, item !! "category" = Some (VStr g)) before →
  ∀ e, matching_category category rest = Err e →
       matching_category category (before ++ rest) = Err e.
Proof.
  intros Hbefore e Hrest.
  induction Hbefore as [|item l [g Hg] _ IH]; [done|].
  simpl. by rewrite Hg, IH.
Qed.

(** X12. [get_items_by_category] returns, in collection order and without
    embeddings, exactly the items whose category equals the given one up
    to case, on a store whose categories are strings; the first item
    without a category makes it raise [KeyError], the first whose category
    is not a string [AttributeError]. *)
Theorem get_items_by_category_contract (category : string) (s : KnowledgeManager.t num) :
  category_filter_contract category s.
Proof.
  split.
  - intros Hkb. unfold get_items_by_category.
    by rewrite (matching_category_filter category _ Hkb).
  - intros before item after Hkb Hbefore. unfold get_items_by_category. rewrite Hkb.
    split.
    + intros Hnone.
      rewrite (matching_category_skip category before (item :: after) Hbefore
                 (Builtin (KeyError "category"))); [done|].
      simpl. by rewrite Hnone.
    + intros v Hv Hnot.
      rewrite (matching_category_skip category before (item :: after) Hbefore
                 AttributeError); [done|].
      simpl. rewrite Hv. destruct v; try done. by destruct (Hnot s0).
Qed.

Lemma lower_all_strings (l : list string) :
  lower_all (VStr <$> l : list (value num)) = Ok (lower <$> l).
Proof.
  induction l as [|u l IH]; [done|].
  rewrite !fmap_cons. cbn [lower_all lower_of]. by rewrite IH.
Qed.

Lemma any_in_shares_tag (tags l : list string) :
  any_in (lower <$> tags) (lower <$> l)
  = existsb (λ t, existsb (λ v : value num,
                             match v with
                             | VStr u => String.eqb (lower u) (lower t)
                             | _ => false
                             end) (VStr <$> l)) tags.
Proof.
  unfold any_in. induction tags as [|t tags IH]; [done|].
  rewrite fmap_cons. cbn [existsb]. rewrite IH. f_equal.
  clear IH. induction l as [|u l IH]; [done|].
  rewrite !fmap_cons. cbn [existsb]. rewrite <- IH.
  destruct (String.eqb_spec (lower u) (lower t)) as [Heq|Hne].
  - rewrite bool_decide_eq_true_2; [done|]. rewrite Heq. by left.
  - simpl. apply bool_decide_ext. rewrite elem_of_cons.
    split; [|by right]. intros [Heq|Hin]; [|done]. by destruct Hne.
Qed.

Lemma matching_tags_filter (tags : list string) (l : list (dict num)) :
  Forall tags_well_formed l →
  matching_tags (lower <$> tags) l = Ok (filter (λ item, shares_tag tags item = true) l).
Proof.
  induction 1 as [|item l Hitem _ IH]; [done|].
  rewrite filter_cons. cbn [matching_tags]. unfold item_tags_of, dict_get_default.
  destruct Hitem as [Hnone|[strs Hstrs]].
  - rewrite Hnone. cbn [from_option id lower_all]. rewrite IH.
    assert (any_in (lower <$> tags) [] = false) as ->.
    { unfold any_in. clear IH. induction tags as [|t tags IHt]; [done|].
      rewrite fmap_cons. cbn [existsb]. rewrite IHt.
      rewrite bool_decide_eq_false_2; [done|]. apply not_elem_of_nil. }
    rewrite decide_False; [done|]. unfold shares_tag. by rewrite Hnone.
  - rewrite Hstrs. cbn [from_option id]. rewrite lower_all_strings, IH, any_in_shares_tag.
    assert (shares_tag tags item
            = existsb (λ t, existsb (λ v : value num,
                                       match v with
                                       | VStr u => String.eqb (lower u) (lower t)
                                       | _ => false
                                       end) (VStr <$> strs)) tags) as Hs.
    { unfold shares_tag. by rewrite Hstrs. }
    rewrite <- Hs. destruct (shares_tag tags item).
    + by rewrite decide_True.
    + by rewrite decide_False.
Qed.

(** X13. On a store in which the tags of every item are absent or a list of
    strings, [get_items_by_tags] returns, in collection order and without
    embeddings, exactly the items that have one of the given tags up to
    case; in particular it returns no item for an empty list of tags and
    never an item without tags. *)
Theorem get_items_by_tags_any_of (tags : list string) (s : KnowledgeManager.t num) :
  Forall tags_well_formed (knowledge_base s) →
  get_items_by_tags tags s
  = Ok (without_embedding <$>
          filter (λ item, shares_tag tags item = true) (knowledge_base s)).
Proof.
  intros Hkb. unfold get_items_by_tags. by rewrite (matching_tags_filter tags _ Hkb).
Qed.

End Filters.

(** *** The filters on the sample knowledge base *)

Lemma get_items_by_tags_any_of_example :
  KnowledgeManager.get_items_by_tags ["LOGIN"; "Vacation"] km_sample
  = KnowledgeManager.Ok
      (KnowledgeManager.without_embedding <$>
         filter (λ item, FilterSpec.shares_tag ["LOGIN"; "Vacation"] item = true)
           (KnowledgeManager.knowledge_base km_sample)).
Proof.
  apply (get_items_by_tags_any_of (num := Z)).
  apply Forall_cons_2.
  { right. exists ["password"; "login"; "reset"; "security"]. reflexivity. }
  apply Forall_cons_2.
  { right. exists ["reports"; "sales"; "export"; "analytics"]. reflexivity. }
  apply Forall_cons_2.
  { right. exists ["time off"; "leave"; "vacation"; "HR"; "request"]. reflexivity. }
  apply Forall_nil_2.
Defined.

Example get_items_by_tags_sample :
  ids_found (KnowledgeManager.get_items_by_tags ["LOGIN"; "Vacation"] km_sample)
  = Some [Some (VInt 1); Some (VInt 3)].
Proof. reflexivity. Qed.

Example get_items_by_category_sample :
  ids_found (KnowledgeManager.get_items_by_category "SALES" km_sample)
  = Some [Some (VInt 2)].
Proof. reflexivity. Qed.

(** * The keyword fallback of the tag suggestion *)

Section Counting.
Import KnowledgeManager CurationSpec.

Lemma occurrences_cons (w x : string) (l : list string) :
  occurrences w (x :: l)
  = if decide (x = w) then Datatypes.S (occurrences w l) else occurrences w l.
Proof. unfold occurrences. rewrite filter_cons. by destruct (decide (x = w)). Qed.

Lemma occurrences_app (w : string) (l1 l2 : list string) :
  occurrences w (l1 ++ l2) = (occurrences w l1 + occurrences w l2)%nat.
Proof. unfold occurrences. by rewrite filter_app, length_app. Qed.

Lemma occurrences_pos (w : string) (l : list string) :
  w ∈ l → (0 < occurrences w l)%nat.
Proof.
  induction l as [|x l IH]; intros Hin; [by apply elem_of_nil in Hin|].
  rewrite occurrences_cons. destruct (decide (x = w)); [lia|].
  apply elem_of_cons in Hin as [->|Hin]; [done|by apply IH].
Qed.

Lemma count_word_fresh (w : string) (counts : list (string * nat)) :
  w ∉ counts.*1 → count_word w counts = counts ++ [(w, 1%nat)].
Proof.
  induction counts as [|[k n] counts IH]; intros Hw; [done|].
  rewrite fmap_cons in Hw. apply not_elem_of_cons in Hw as [Hne Hw].
  cbn [count_word]. destruct (String.eqb_spec k w) as [->|_]; [done|].
  by rewrite IH.
Qed.

Lemma count_word_seen (w : string) (counts : list (string * nat)) :
  NoDup counts.*1 → w ∈ counts.*1 →
  ∃ before n after,
    counts = before ++ (w, n) :: after
    ∧ count_word w counts = before ++ (w, Datatypes.S n) :: after.
Proof.
  induction counts as [|[k n] counts IH]; intros Hnd Hw; [by apply elem_of_nil in Hw|].
  rewrite fmap_cons in Hnd, Hw. apply NoDup_cons in Hnd as [Hk Hnd].
  cbn [count_word]. destruct (String.eqb_spec k w) as [->|Hne].
  - by exists [], n, counts.
  - apply elem_of_cons in Hw as [Heq|Hw]; [by destruct Hne|].
    destruct (IH Hnd Hw) as (before & m & after & -> & ->).
    by exists ((k, n) :: before), m, after.
Qed.

Lemma occurrences_snoc (k w : string) (seen : list string) :
  occurrences k (seen ++ [w])
  = if decide (w = k) then Datatypes.S (occurrences k seen) else occurrences k seen.
Proof.
  rewrite occurrences_app, occurrences_cons. unfold occurrences at 2 3.
  rewrite filter_nil. simpl. destruct (decide (w = k)); lia.
Qed.

Lemma occurrences_absent (w : string) (l : list string) :
  w ∉ l → occurrences w l = 0%nat.
Proof.
  induction l as [|x l IH]; intros Hw; [done|].
  apply not_elem_of_cons in Hw as [Hne Hw].
  rewrite occurrences_cons, decide_False by done. by apply IH.
Qed.

Lemma count_word_counts_of (w : string) (seen : list string) (counts : list (string * nat)) :
  counts_of seen counts → counts_of (seen ++ [w]) (count_word w counts).
Proof.
  intros (Hnd & Hsound & Hcomplete).
  destruct (decide (w ∈ counts.*1)) as [Hin|Hnin].
  - destruct (count_word_seen w counts Hnd Hin) as (before & n & after & Hcounts & ->).
    assert (∀ k m, (k, m) ∈ before ++ after → (k, m) ∈ counts ∧ w ≠ k) as Hother.
    { intros k m Hkm. split.
      - rewrite Hcounts. apply elem_of_app in Hkm as [Hkm|Hkm].
        + apply elem_of_app. by left.
        + apply elem_of_app. right. by right.
      - intros <-. rewrite Hcounts, fmap_app, fmap_cons in Hnd.
        apply NoDup_app in Hnd as (_ & Hdisj & Hnd).
        apply NoDup_cons in Hnd as [Hw _]. apply elem_of_app in Hkm as [Hkm|Hkm].
        + apply (Hdisj w); [by apply (list_elem_of_fmap_2 fst _ (w, m))|by left].
        + apply Hw. by apply (list_elem_of_fmap_2 fst _ (w, m)). }
    assert ((w, n) ∈ counts) as Hwn.
    { rewrite Hcounts. apply elem_of_app. right. by left. }
    split; [|split].
    + by rewrite fmap_app, fmap_cons, <- (fmap_cons fst (w, n)), <- fmap_app, <- Hcounts.
    + intros k m Hkm. rewrite occurrences_snoc.
      assert ((k, m) ∈ before ++ after ∨ (k, m) = (w, Datatypes.S n)) as [Hkm'|[= -> ->]].
      { apply elem_of_app in Hkm as [Hkm|Hkm]; [left; apply elem_of_app; by left|].
        apply elem_of_cons in Hkm as [Hkm|Hkm]; [by right|left; apply elem_of_app; by right]. }
      * destruct (Hother k m Hkm') as [Hin' Hne].
        destruct (Hsound k m Hin') as [Hk ->].
        split; [apply elem_of_app; by left|]. by rewrite decide_False.
      * destruct (Hsound w n Hwn) as [Hk ->].
        split; [apply elem_of_app; by left|]. by rewrite decide_True.
    + intros k Hk. rewrite fmap_app, fmap_cons. cbn [fst].
      apply elem_of_app in Hk as [Hk|Hk].
      * specialize (Hcomplete k Hk). by rewrite Hcounts, fmap_app, fmap_cons in Hcomplete.
      * apply list_elem_of_singleton in Hk as ->. apply elem_of_app. right. by left.
  - rewrite (count_word_fresh w counts Hnin). split; [|split].
    + rewrite fmap_app. apply NoDup_app. split; [done|]. split; [|apply NoDup_singleton].
      intros k Hk Hk'. apply list_elem_of_singleton in Hk'. simpl in Hk'. by subst.
    + intros k m Hkm. rewrite occurrences_snoc.
      apply elem_of_app in Hkm as [Hkm|Hkm].
      * destruct (Hsound k m Hkm) as [Hk ->]. split; [apply elem_of_app; by left|].
        rewrite decide_False; [done|].
        intros ->. apply Hnin. by apply (list_elem_of_fmap_2 fst _ (k, occurrences k seen)).
      * apply list_elem_of_singleton in Hkm as [= -> ->].
        split; [apply elem_of_app; right; by left|]. rewrite decide_True by done.
        rewrite occurrences_absent; [done|].
        intros Hseen. by destruct (Hnin (Hcomplete w Hseen)).
    + intros k Hk. rewrite fmap_app. apply elem_of_app.
      apply elem_of_app in Hk as [Hk|Hk]; [left; by apply Hcomplete|].
      right. apply list_elem_of_singleton in Hk as ->. by left.
Qed.

Lemma Counter_counts_of (keywords : list string) : counts_of keywords (Counter keywords).
Proof.
  unfold Counter. induction keywords as [|w keywords IH] using rev_ind.
  - split; [constructor|]. split; [intros k n Hkn|intros k Hk]; by apply elem_of_nil in Hkn || apply elem_of_nil in Hk.
  - rewrite foldl_app. simpl. by apply count_word_counts_of.
Qed.

End Counting.

Section Fallback.
Context `{Number num, Provider num, PyLib num}.
Import KnowledgeManager CurationSpec.

Lemma sorted_by_count (kws : list string) (l : list (string * nat)) :
  (∀ k n, (k, n) ∈ l → n = occurrences k kws) →
  StronglySorted (λ a b, Nat.ltb (snd a) (snd b) = false) l →
  StronglySorted (λ a b, (occurrences b kws ≤ occurrences a kws)%nat) l.*1.
Proof.
  intros Hcount. induction 1 as [|[k n] l Hl IH Hk]; [constructor|].
  rewrite fmap_cons. constructor.
  - apply IH. intros k' n' Hin. apply Hcount. by right.
  - apply Forall_fmap, Forall_forall. intros [k' n'] Hin.
    rewrite Forall_forall in Hk. specialize (Hk _ Hin). simpl in Hk |- *.
    apply Nat.ltb_ge in Hk.
    assert (n = occurrences k kws) as Hn by (apply Hcount; by left).
    assert (n' = occurrences k' kws) as Hn' by (apply Hcount; by right).
    unfold compose. simpl. lia.
Qed.

Lemma most_common_most_frequent (kws : list string) :
  most_frequent kws (fst <$> most_common 5 (Counter kws)).
Proof.
  destruct (Counter_counts_of kws) as (Hnd & Hsound & Hcomplete).
  unfold most_common, slice_to. change (0 <=? 5) with true.
  change (Z.to_nat 5) with 5%nat. cbv iota.
  pose proof (sort_reverse_perm Nat.ltb snd (Counter kws)) as Hperm.
  assert (StronglySorted (λ a b, Nat.ltb (snd a) (snd b) = false)
            (sort_reverse Nat.ltb snd (Counter kws))) as Hsorted.
  { apply sort_reverse_sorted.
    - intros a b Hab. apply Nat.ltb_lt in Hab. apply Nat.ltb_ge. lia.
    - intros a b c Hab Hbc. apply Nat.ltb_ge in Hab, Hbc. apply Nat.ltb_ge. lia. }
  set (sorted := sort_reverse Nat.ltb snd (Counter kws)) in *.
  assert (∀ k n, (k, n) ∈ sorted → k ∈ kws ∧ n = occurrences k kws) as Hsound'.
  { intros k n Hin. apply Hsound. by rewrite <- Hperm. }
  assert (∀ k, k ∈ kws → (k, occurrences k kws) ∈ sorted) as Hcomplete'.
  { intros k Hk. apply Hcomplete, list_elem_of_fmap in Hk as ([k' n] & -> & Hin).
    rewrite Hperm. cbn [fst]. by destruct (Hsound _ _ Hin) as [_ <-]. }
  assert (∀ t, t ∈ (take 5 sorted).*1 → (t, occurrences t kws) ∈ take 5 sorted) as Htaken.
  { intros t ([t' n] & -> & Hin)%list_elem_of_fmap.
    cbn [fst]. by destruct (Hsound' t' n (subseteq_take _ _ _ Hin)) as [_ <-]. }
  split; [|split; [|split; [|split; [|split]]]].
  - rewrite length_fmap, length_take. lia.
  - rewrite fmap_take. eapply sublist_NoDup; [|apply sublist_take].
    by rewrite Hperm.
  - intros t Ht. apply Htaken in Ht. by apply (Hsound' t _ (subseteq_take _ _ _ Ht)).
  - apply sorted_by_count.
    + intros k n Hin. by apply (Hsound' k n (subseteq_take _ _ _ Hin)).
    + rewrite <- (take_drop 5 sorted) in Hsorted. by apply StronglySorted_app_1_l in Hsorted.
  - intros w t Hw Hnot Ht. apply Htaken in Ht. apply Hcomplete' in Hw.
    rewrite <- (take_drop 5 sorted) in Hw, Hsorted.
    apply elem_of_app in Hw as [Hw|Hw].
    { destruct Hnot. by apply (list_elem_of_fmap_2 fst _ (w, occurrences w kws)). }
    pose proof (StronglySorted_app_1_elem_of _ _ _ _ _ Hsorted Ht Hw) as Hle.
    simpl in Hle. by apply Nat.ltb_ge in Hle.
  - rewrite length_fmap, length_take. intros Hshort w Hw.
    rewrite take_ge by lia.
    by apply (list_elem_of_fmap_2 fst _ (w, occurrences w kws)), Hcomplete'.
Qed.

(** X14. When the provider call of [suggest_tags] fails, the tags are the (at
    most five) most frequent keywords of the text, most frequent first; the
    call is counted and nothing else of the store changes. *)
Theorem suggest_tags_falls_back_to_keywords (text : string) (s : KnowledgeManager.t num) :
  (∀ req, chat_completions_create (api_calls s) req = None) →
  falls_back_to_keywords text s.
Proof.
  intros Hdown. exists (fst <$> most_common 5 (Counter (keywords_of text))). split.
  - unfold suggest_tags, try_except, mbind, M_bind, call_chat.
    by rewrite Hdown.
  - apply most_common_most_frequent.
Qed.

End Fallback.

Lemma suggest_tags_falls_back_to_keywords_example :
  @CurationSpec.falls_back_to_keywords Z provider_down
    "Stock alerts and stock levels trigger purchase alerts for the stock of a warehouse"
    km_small.
Proof.
  apply suggest_tags_falls_back_to_keywords. intros req. reflexivity.
Defined.

(** The fallback on a text: [stock] occurs three times and [alerts] twice;
    the words seen once come in the order of the text, and the sixth
    keyword, [warehouse], is cut off. *)
Example suggest_tags_fallback_sample :
  returned
    (@KnowledgeManager.suggest_tags Z provider_down
       "Stock alerts and stock levels trigger purchase alerts for the stock of a warehouse"
       km_small)
  = Some ["stock"; "alerts"; "levels"; "trigger"; "purchase"].
Proof. reflexivity. Qed.

(** * The category suggestion *)

Section Strip.

Lemma drop_while_clean {A} (p : A → bool) (l : list A) : starts_clean p (drop_while p l).
Proof.
  induction l as [|x l IH]; simpl; [done|].
  destruct (p x) eqn:Hx; [done|]. exact Hx.
Qed.

Lemma drop_while_id {A} (p : A → bool) (l : list A) :
  starts_clean p l → drop_while p l = l.
Proof. destruct l as [|x l]; simpl; [done|]. by intros ->. Qed.

Lemma drop_while_suffix {A} (p : A → bool) (l : list A) :
  ∃ pre, l = pre ++ drop_while p l.
Proof.
  induction l as [|x l [pre IH]]; simpl; [by exists []|].
  destruct (p x); [|by exists []].
  exists (x :: pre). simpl. by f_equal.
Qed.

Lemma strip_with_idemp (p : ascii → bool) (l : list ascii) :
  strip_with p (strip_with p l) = strip_with p l.
Proof.
  unfold strip_with at 1.
  assert (starts_clean p (strip_with p l)) as Hfront.
  { unfold strip_with.
    pose proof (drop_while_clean p l) as Hm.
    destruct (drop_while_suffix p (reverse (drop_while p l))) as [pre Hpre].
    apply (f_equal reverse) in Hpre.
    rewrite reverse_involutive, reverse_app in Hpre.
    destruct (reverse (drop_while p (reverse (drop_while p l)))) as [|x k]; [done|].
    rewrite Hpre in Hm. exact Hm. }
  rewrite (drop_while_id p (strip_with p l) Hfront).
  unfold strip_with at 1. rewrite reverse_involutive.
  rewrite (drop_while_id p (drop_while p _)) by apply drop_while_clean.
  done.
Qed.

Lemma strip_idemp (s : string) : strip (strip s) = strip s.
Proof. unfold strip. by rewrite chars_str, strip_with_idemp. Qed.

End Strip.

Section Categories.
Context `{Number num, Provider num, PyLib num}.
Import KnowledgeManager CurationSpec.

Lemma gather_categories (s : KnowledgeManager.t num) :
  categorised s →
  gather (λ item : dict num,
            match getitem item "category" with
            | Return c => if hashable c then Return c else Raise TypeError
            | Raise e => Raise e
            end) (knowledge_base s)
  = Return (VStr <$> stored_categories s).
Proof.
  unfold categorised, stored_categories.
  induction 1 as [|item kb [c Hc] _ IH]; [done|].
  cbn [gather omap list_omap]. unfold getitem at 1. rewrite Hc, IH. done.
Qed.

Lemma gather_as_str (l : list string) :
  gather (as_str (num := num)) (VStr <$> l) = Return l.
Proof. induction l as [|c l IH]; [done|]. rewrite fmap_cons. simpl. by rewrite IH. Qed.

Lemma unique_loop_well_named (categories acc : list string) :
  NoDup acc → Forall well_named acc →
  let unique_categories :=
    foldl (λ unique_categories cat,
             let cat := strip cat in
             if negb (String.eqb cat EmptyString)
                && negb (bool_decide (cat ∈ unique_categories))
             then unique_categories ++ [cat] else unique_categories)
          acc categories in
  NoDup unique_categories ∧ Forall well_named unique_categories.
Proof.
  revert acc. induction categories as [|cat categories IH]; intros acc Hnd Hall; [done|].
  cbn [foldl]. cbv zeta in IH |- *.
  destruct (String.eqb_spec (strip cat) EmptyString) as [Hempty|Hcat]; [by apply IH|].
  destruct (bool_decide_reflect (strip cat ∈ acc)) as [Hin|Hnew]; [by apply IH|].
  cbn [negb andb]. apply IH.
  - apply NoDup_app. split; [done|]. split; [|apply NoDup_singleton].
    intros c Hc Hc'. apply list_elem_of_singleton in Hc'. by subst.
  - apply Forall_app. split; [done|]. apply Forall_singleton.
    split; [done|apply strip_idemp].
Qed.

Lemma unique_well_named (categories : list string) :
  NoDup (unique categories) ∧ Forall well_named (unique categories).
Proof. apply unique_loop_well_named; constructor. Qed.

(** X15. When the provider call of [suggest_categories] fails on a store whose
    items all have a string category, the suggestion is made of the
    categories in use: at least one and up to three of them, each once.
    The [General] of the last branch is returned only as a category in
    use. *)
Theorem suggest_categories_falls_back_to_stored (text : string) (s : KnowledgeManager.t num) :
  knowledge_base s ≠ [] →
  categorised s →
  (∀ req, chat_completions_create (api_calls s) req = None) →
  suggests_stored_categories text s.
Proof.
  intros Hkb Hcat Hdown.
  pose proof (gather_categories s Hcat) as Hg.
  assert (∃ c cs, stored_categories s = c :: cs) as (c & cs & Hcs).
  { unfold stored_categories. destruct Hcat as [|item kb [c Hc] _]; [done|].
    cbn [omap list_omap]. rewrite Hc. by eexists _, _. }
  assert (∃ d ds, distinct (c :: cs) = d :: ds) as (d & ds & Hd).
  { destruct (distinct (c :: cs)) as [|d ds] eqn:Hd; [|by eexists _, _].
    unfold distinct in Hd. apply elements_empty_inv in Hd.
    assert (c ∈ (list_to_set (c :: cs) : gset string)) as Hc
      by (apply elem_of_list_to_set; by left).
    rewrite Hd in Hc. by apply elem_of_empty in Hc. }
  exists (slice_to 3 (d :: ds)). split; [|split; [|split; [|split]]].
  - unfold suggest_categories, mbind, M_bind, get_state, lift.
    rewrite Hg, Hcs, fmap_cons. cbv iota.
    rewrite <- fmap_cons, gather_as_str.
    unfold try_except, call_chat. rewrite Hdown. cbv iota.
    unfold mret, M_ret. by rewrite Hd.
  - done.
  - rewrite <- Hd. unfold slice_to. cbv iota.
    eapply sublist_NoDup; [|apply sublist_take]. unfold distinct. apply NoDup_elements.
  - intros c' Hc'. rewrite <- Hd in Hc'. unfold slice_to, distinct in Hc'.
    apply subseteq_take, elem_of_elements, elem_of_list_to_set in Hc'.
    by rewrite Hcs.
  - rewrite <- Hd, Hcs. change (slice_to 3 (distinct (c :: cs))) with (take 3 (distinct (c :: cs))).
    by rewrite length_take.
Qed.

(** X16. When the provider answers, every name that [suggest_categories]
    returns is non-empty and carries no white space at either end; the
    names are pairwise distinct whenever one of the three patterns found a
    name in the reply. *)
Theorem suggest_categories_names_well_named
    (text reply : string) (s s' : KnowledgeManager.t num) (l : list string) :
  knowledge_base s ≠ [] →
  (∀ req, chat_completions_create (api_calls s) req = Some reply) →
  suggest_categories text s = (Return l, s') →
  s' = tick s
  ∧ Forall well_named l
  ∧ (unique (extract_categories reply) ≠ [] → NoDup l).
Proof.
  intros Hkb Hup. unfold suggest_categories, mbind, M_bind, get_state, lift.
  destruct (gather _ (knowledge_base s)) as [members|] eqn:Hg; [|done].
  apply gather_length in Hg.
  destruct members as [|m members].
  { destruct (knowledge_base s); [done|simpl in Hg; lia]. }
  destruct (gather as_str (m :: members)) as [names|]; [|done].
  unfold try_except, call_chat. rewrite Hup. cbv iota.
  destruct (unique_well_named (extract_categories reply)) as [Hnd Hall].
  destruct (unique (extract_categories reply)) as [|c cs]; cbv iota;
    unfold mret, M_ret; intros [= <- <-]; (split; [done|]).
  - split; [|done]. unfold slice_to. cbv iota. apply Forall_take, Forall_forall.
    intros c Hc. apply list_elem_of_filter in Hc as [Hc Hin].
    apply list_elem_of_fmap in Hin as (line & -> & _).
    split; [|apply strip_idemp].
    unfold nonempty in Hc. by destruct (String.eqb_spec (strip line) EmptyString).
  - unfold slice_to. cbv iota. split; [by apply Forall_take|].
    intros _. eapply sublist_NoDup; [exact Hnd|apply sublist_take].
Qed.

End Categories.

Lemma suggest_categories_falls_back_to_stored_example :
  @CurationSpec.suggests_stored_categories Z provider_down lib_plain
    "How to post an invoice" km_sample.
Proof.
  apply suggest_categories_falls_back_to_stored.
  - discriminate.
  - apply Forall_cons_2; [by exists "Authentication"|].
    apply Forall_cons_2; [by exists "Sales"|].
    apply Forall_cons_2; [by exists "HR"|].
    apply Forall_nil_2.
  - intros req. reflexivity.
Defined.

Lemma suggest_categories_names_well_named_example :
  ∃ l s',
    @KnowledgeManager.suggest_categories Z (provider_up (" Sales " +:+ NL +:+ NL +:+ "Finance"))
      lib_plain "How to post an invoice" km_small = (Return l, s')
    ∧ Forall CurationSpec.well_named l.
Proof.
  exists ["Sales"; "Finance"],
    {| KnowledgeManager.knowledge_base := small_kb;
       KnowledgeManager.next_id := 4;
       KnowledgeManager.saved := small_kb;
       KnowledgeManager.api_calls := 1 |}.
  assert (@KnowledgeManager.suggest_categories Z (provider_up (" Sales " +:+ NL +:+ NL +:+ "Finance"))
            lib_plain "How to post an invoice" km_small
          = (Return ["Sales"; "Finance"],
             {| KnowledgeManager.knowledge_base := small_kb;
                KnowledgeManager.next_id := 4;
                KnowledgeManager.saved := small_kb;
                KnowledgeManager.api_calls := 1 |})) as Hrun by reflexivity.
  split; [exact Hrun|].
  refine (proj1 (proj2 (@suggest_categories_names_well_named Z (provider_up _) lib_plain
                          _ (" Sales " +:+ NL +:+ NL +:+ "Finance") km_small _ _ _ _ Hrun))).
  - discriminate.
  - intros req. reflexivity.
Defined.

(** On the last path, where no pattern found a name and the lines of the
    reply are returned, a name can come twice. *)
Example suggest_categories_lines_repeat :
  returned
    (@KnowledgeManager.suggest_categories Z (provider_up ("Sales" +:+ NL +:+ "Sales"))
       lib_plain "How to post an invoice" km_small)
  = Some ["Sales"; "Sales"].
Proof. reflexivity. Qed.

(** * The HTTP handlers *)

Section Handlers.
Context `{Number num, Provider num, PyLib num}.
Import KnowledgeManager StoreSpec CrudSpec ApiSpec.

Lemma item_ids_omap (kb : list (dict num)) (zs : list Z) :
  item_ids kb = Return zs → omap id_of kb = zs.
Proof.
  revert zs. induction kb as [|item kb IH]; intros zs; simpl.
  - by intros [= <-].
  - unfold id_of at 1, getitem.
    destruct (item !! "id") as [v|]; [|done].
    destruct (as_int v) as [z|]; [|done].
    destruct (item_ids kb) as [zs'|]; [|done].
    intros [= <-]. f_equal. by apply IH.
Qed.

Lemma item_ids_total (kb : list (dict num)) :
  Forall (λ item, is_Some (id_of item)) kb → ∃ zs, item_ids kb = Return zs.
Proof.
  induction 1 as [|item kb [z Hz] _ [zs IH]]; simpl; [by eexists|].
  unfold id_of, getitem in *.
  destruct (item !! "id") as [v|]; [|done].
  destruct (as_int v) as [z'|]; [|done].
  rewrite IH. by eexists.
Qed.

Lemma item_ids_raises (before after : list (dict num)) (item : dict num) :
  Forall (λ item, is_Some (id_of item)) before →
  item !! "id" = None →
  item_ids (before ++ item :: after) = Raise (KeyError "id").
Proof.
  intros Hbefore Hitem. induction Hbefore as [|x before [z Hz] _ IH]; simpl.
  - unfold getitem. by rewrite Hitem.
  - unfold id_of, getitem in *.
    destruct (x !! "id") as [v|]; [|done].
    destruct (as_int v) as [z'|]; [|done].
    by rewrite IH.
Qed.

Lemma get_knowledge_manager_run (w : Api.world num) :
  loadable w → Api.get_knowledge_manager w = Return (manager_of w).
Proof.
  intros Hw. destruct (item_ids_total _ Hw) as [zs Hzs].
  unfold Api.get_knowledge_manager, init, manager_of, next_free_id. simpl.
  by rewrite Hzs, (item_ids_omap _ _ Hzs).
Qed.

Lemma manager_ids_below (w : Api.world num) : loadable w → ids_below (manager_of w).
Proof.
  intros Hw. unfold ids_below, ids. simpl. apply Forall_fmap, Forall_forall.
  intros item Hin. unfold loadable in Hw. rewrite Forall_forall in Hw.
  destruct (Hw item Hin) as [z Hz]. exists z. split; [done|].
  unfold next_free_id.
  assert (z ∈ omap id_of (Api.stored w)) as Hz'
    by (apply list_elem_of_omap; by exists item).
  pose proof (max_default_ge _ 0 z Hz'). lia.
Qed.

Lemma other_ids_loadable (item_id : Z) (l : list (dict num)) :
  other_ids item_id l → Forall (λ item, is_Some (id_of item)) l.
Proof.
  intros Hother. eapply Forall_impl; [exact Hother|].
  intros item (z & Hz & _). by exists z.
Qed.

Lemma world_eta (w : Api.world num) :
  {| Api.stored := Api.stored w; Api.calls := Api.calls w |} = w.
Proof. by destruct w. Qed.

Lemma visible_truthy (item : dict num) (k : string) :
  k ≠ "embedding" → is_Some (item !! k) →
  truthy (VDict (without_embedding item)) = true.
Proof.
  intros Hk [v Hv]. unfold truthy, without_embedding.
  rewrite bool_decide_eq_false_2; [done|].
  intros Hempty. apply (f_equal (λ m : dict num, m !! k)) in Hempty.
  by rewrite lookup_delete_ne, Hv, lookup_empty in Hempty.
Qed.

Lemma id_of_lookup (item : dict num) (z : Z) :
  id_of item = Some z → is_Some (item !! "id").
Proof. unfold id_of. by destruct (item !! "id"). Qed.

Lemma other_ids_gets_404 (item_id : Z) (w : Api.world num) :
  other_ids item_id (Api.stored w) → not_found item_id w.
Proof.
  intros Hother.
  pose proof (get_knowledge_manager_run w (other_ids_loadable _ _ Hother)) as Hkm.
  destruct (other_ids_not_found item_id (manager_of w) Hother) as (Hget & Hupd & Hdel).
  unfold not_found, Api.request. rewrite Hkm.
  unfold Api.get_knowledge_item, Api.update_knowledge_item, Api.delete_knowledge_item.
  rewrite Hget, Hdel. simpl. rewrite world_eta. split; [done|]. split; [|done].
  intros item. rewrite Hupd. simpl. by rewrite world_eta.
Qed.

(** X17. GET, PUT and DELETE of an id that no stored item has answer 404 and
    leave the file and the provider alone. *)
Theorem absent_id_gets_404 (item_id : Z) (w : Api.world num) :
  other_ids item_id (Api.stored w) → not_found item_id w.
Proof. apply other_ids_gets_404. Qed.

(** X18. A GET serves the first stored item that has the id, without its
    embedding, and changes nothing; the item is never taken for missing,
    since its id keeps the served dict from being empty. *)
Theorem get_knowledge_item_serves_first (item_id : Z) (w : Api.world num)
    (before after : list (dict num)) (item : dict num) :
  Api.stored w = before ++ item :: after →
  other_ids item_id before →
  id_of item = Some item_id →
  loadable w →
  Api.request (Api.get_knowledge_item item_id) w = (Api.OK (without_embedding item), w).
Proof.
  intros Hkb Hbefore Hitem Hw.
  unfold Api.request. rewrite (get_knowledge_manager_run w Hw).
  unfold Api.get_knowledge_item, get_item_by_id, mbind, M_bind, get_state, lift.
  cbn [knowledge_base manager_of].
  rewrite Hkb, find_by_id_skip by done. rewrite find_by_id_here by done.
  unfold mret, M_ret.
  rewrite (visible_truthy item "id") by (done || by eapply id_of_lookup).
  cbn [saved api_calls manager_of]. by rewrite world_eta.
Qed.

Lemma visible_without_embedding (item_id : Z) (item : Api.KnowledgeItem) (n : nat) :
  without_embedding (embedded_at n item_id item) = visible item_id item.
Proof.
  unfold without_embedding, embedded_at. rewrite delete_insert_eq.
  apply delete_id. unfold visible.
  rewrite !lookup_insert_ne by done. by rewrite lookup_singleton_ne.
Qed.

Lemma embedded_at_id (item_id : Z) (item : Api.KnowledgeItem) (n : nat) :
  id_of (embedded_at n item_id item) = Some item_id.
Proof.
  unfold id_of, embedded_at, visible.
  rewrite lookup_insert_ne by done. by rewrite lookup_insert_eq.
Qed.

Lemma create_item_model_dump (item : Api.KnowledgeItem) (s : KnowledgeManager.t num) :
  create_item (list_to_map (Api.model_dump item)) s
  = (Return (visible (next_id s) item),
     {| knowledge_base := knowledge_base s ++ [embedded_at (api_calls s) (next_id s) item];
        next_id := next_id s + 1;
        saved := knowledge_base s ++ [embedded_at (api_calls s) (next_id s) item];
        api_calls := Datatypes.S (api_calls s) |}).
Proof.
  assert (∀ e : value num,
            <["embedding" := e]>
              ({[ "id" := VInt (next_id s);
                  "title" := VStr (Api.title item);
                  "content" := VStr (Api.content item);
                  "category" := VStr (Api.category item);
                  "tags" := VList (VStr <$> Api.tags item);
                  "embedding" := VNone ]} : dict num)
            = <["embedding" := e]> (visible (next_id s) item)) as Hstored.
  { intros e. unfold visible.
    rewrite <- (insert_delete_eq (<[ "id" := _ ]> _) "embedding" e).
    rewrite !delete_insert_ne by done.
    by rewrite delete_singleton_eq, insert_empty. }
  unfold create_item, mbind, M_bind, get_state, lift, getitem.
  change ((list_to_map (Api.model_dump item) : dict num) !! "title")
    with (Some (VStr (Api.title item) : value num)).
  change ((list_to_map (Api.model_dump item) : dict num) !! "content")
    with (Some (VStr (Api.content item) : value num)).
  change ((list_to_map (Api.model_dump item) : dict num) !! "category")
    with (Some (VStr (Api.category item) : value num)).
  change (dict_get_default (list_to_map (Api.model_dump item)) "tags" (VList []))
    with (VList (VStr <$> Api.tags item) : value num).
  cbv iota. rewrite get_embedding_run. cbv iota.
  rewrite Hstored. fold (embedded_at (api_calls s) (next_id s) item).
  by rewrite visible_without_embedding.
Qed.

Lemma request_create (item : Api.KnowledgeItem) (w : Api.world num) :
  loadable w →
  Api.request (Api.create_knowledge_item item) w
  = (Api.OK (visible (next_free_id w) item),
     {| Api.stored := Api.stored w ++ [embedded_at (Api.calls w) (next_free_id w) item];
        Api.calls := Datatypes.S (Api.calls w) |}).
Proof.
  intros Hw. unfold Api.request. rewrite (get_knowledge_manager_run w Hw).
  unfold Api.create_knowledge_item. by rewrite create_item_model_dump.
Qed.

Lemma created_loadable (item : Api.KnowledgeItem) (w : Api.world num) (n : nat) :
  loadable w →
  loadable {| Api.stored := Api.stored w ++ [embedded_at (Api.calls w) (next_free_id w) item];
              Api.calls := n |}.
Proof.
  intros Hw. unfold loadable. cbn [Api.stored]. apply Forall_app. split; [done|].
  apply Forall_singleton. rewrite embedded_at_id. by eexists.
Qed.

(** X19. A POST stores the item under the largest stored id plus one, with
    one provider call, and a GET of that id in a later request serves the
    item as the POST returned it. *)
Theorem create_knowledge_item_then_get (item : Api.KnowledgeItem) (w : Api.world num) :
  loadable w → creates_and_serves item w.
Proof.
  intros Hw. unfold creates_and_serves. cbv zeta. split; [by apply request_create|].
  set (w' := {| Api.stored := _; Api.calls := _ |}).
  assert (loadable w') as Hw' by by apply created_loadable.
  unfold Api.request. rewrite (get_knowledge_manager_run w' Hw').
  unfold Api.get_knowledge_item, get_item_by_id, mbind, M_bind, get_state, lift.
  cbn [knowledge_base manager_of Api.stored w'].
  rewrite find_by_id_skip
    by apply (ids_below_other_ids (manager_of w)), manager_ids_below, Hw.
  rewrite find_by_id_here by apply embedded_at_id.
  unfold mret, M_ret. rewrite visible_without_embedding.
  rewrite <- (visible_without_embedding (next_free_id w) item (Api.calls w)) at 1.
  rewrite (visible_truthy _ "id")
    by (done || (eapply id_of_lookup, embedded_at_id)).
  done.
Qed.

Lemma delete_item_run (item_id : Z) (s : KnowledgeManager.t num)
    (before after : list (dict num)) (item : dict num) :
  knowledge_base s = before ++ item :: after →
  other_ids item_id before →
  id_of item = Some item_id →
  delete_item item_id s
  = (Return true,
     {| knowledge_base := before ++ after;
        next_id := next_id s;
        saved := before ++ after;
        api_calls := api_calls s |}).
Proof.
  intros Hkb Hbefore Hitem.
  assert (find_by_id item_id (knowledge_base s) 0
          = Return (Some (length before, item))) as Hfind.
  { rewrite Hkb, find_by_id_skip by done. by apply find_by_id_here. }
  assert (delete (length before) (before ++ item :: after) = before ++ after) as Hdel.
  { clear. induction before as [|x before IH]; [done|]. simpl. by rewrite IH. }
  unfold delete_item, mbind, M_bind, get_state, lift. rewrite Hfind. simpl.
  by rewrite Hkb, Hdel.
Qed.

Lemma request_delete (item_id : Z) (w : Api.world num)
    (before after : list (dict num)) (item : dict num) :
  Api.stored w = before ++ item :: after →
  other_ids item_id before →
  id_of item = Some item_id →
  loadable w →
  Api.request (Api.delete_knowledge_item item_id) w
  = (Api.OK (Api.Deleted item_id),
     {| Api.stored := before ++ after; Api.calls := Api.calls w |}).
Proof.
  intros Hkb Hbefore Hitem Hw.
  unfold Api.request. rewrite (get_knowledge_manager_run w Hw).
  unfold Api.delete_knowledge_item.
  by rewrite (delete_item_run item_id (manager_of w) before after item).
Qed.

(** X21. A DELETE removes the first stored item that has the id and answers
    with the message; when no later item has the id either, GET, PUT and
    DELETE of the id answer 404 from then on. *)
Theorem delete_knowledge_item_then_404 (item_id : Z) (w : Api.world num)
    (before after : list (dict num)) (item : dict num) :
  Api.stored w = before ++ item :: after →
  other_ids item_id before →
  id_of item = Some item_id →
  loadable w →
  deletes_and_forgets item_id w before after.
Proof.
  intros Hkb Hbefore Hitem Hw. unfold deletes_and_forgets. cbv zeta.
  split; [by eapply request_delete|].
  intros Hafter. apply other_ids_gets_404. cbn [Api.stored]. by apply Forall_app.
Qed.

(** X22. The id of a new item is computed from the file alone: after a POST
    and a DELETE of the item it created, the next POST hands out the same
    id again. *)
Theorem create_knowledge_item_reuses_deleted_id
    (first second : Api.KnowledgeItem) (w : Api.world num) :
  loadable w → reuses_deleted_id first second w.
Proof.
  intros Hw. unfold reuses_deleted_id. eexists _, _.
  split; [by apply request_create|]. cbn [Api.calls]. split.
  - rewrite (request_delete (next_free_id w) _ (Api.stored w) []
               (embedded_at (Api.calls w) (next_free_id w) first)).
    + by rewrite app_nil_r.
    + done.
    + apply (ids_below_other_ids (manager_of w)), manager_ids_below, Hw.
    + apply embedded_at_id.
    + by apply created_loadable.
  - by rewrite request_create.
Qed.

(** X20. A PUT replaces the four fields of the first stored item that has the
    id by those of the request and embeds the new content, with one
    provider call whether or not the content differs from the old one; the
    other keys of the item, its id among them, are kept, and the item is
    served without its embedding. *)
Theorem update_knowledge_item_replaces_first (item_id : Z) (new : Api.KnowledgeItem)
    (w : Api.world num) (before after : list (dict num)) (item : dict num) :
  Api.stored w = before ++ item :: after →
  other_ids item_id before →
  id_of item = Some item_id →
  loadable w →
  replaces_first item_id new w before after item.
Proof.
  intros Hkb Hbefore Hitem Hw.
  assert (find_by_id item_id (knowledge_base (manager_of w)) 0
          = Return (Some (length before, item))) as Hfind.
  { cbn [knowledge_base manager_of].
    rewrite Hkb, find_by_id_skip by done. by apply find_by_id_here. }
  destruct (update_item_run item_id (Api.model_dump new) (manager_of w) _ _ Hfind)
    as (item' & s' & Hrun & Hkb' & Hsaved & _ & Hcalls & Hother & Hfields & _ & Hemb).
  destruct (Hemb eq_refl) as (c & [= <-] & _ & Hembedding).
  assert (item' !! "title" = Some (VStr (Api.title new))) as Htitle
    by apply (Hfields "title" eq_refl).
  exists item'. split.
  - unfold Api.request. rewrite (get_knowledge_manager_run w Hw).
    unfold Api.update_knowledge_item. rewrite Hrun.
    rewrite (visible_truthy item' "title") by (done || by eexists).
    rewrite Hsaved, Hkb', Hcalls. cbn [knowledge_base api_calls manager_of has_key Api.model_dump existsb].
    rewrite Hkb. f_equal. f_equal.
    clear. induction before as [|x before IH]; [done|]. simpl. by rewrite IH.
  - split; [done|]. split; [apply (Hfields "content" eq_refl)|].
    split; [apply (Hfields "category" eq_refl)|].
    split; [apply (Hfields "tags" eq_refl)|].
    split; [exact Hembedding|].
    intros k Hk. apply Hother.
    + unfold recognized. apply bool_decide_eq_false_2. intros Hin. apply Hk.
      rewrite !elem_of_cons in Hin |- *.
      destruct Hin as [->|[->|[->|[->|Hin]]]]; [auto 10..|by apply elem_of_nil in Hin].
    + intros ->. apply Hk. rewrite !elem_of_cons. auto 10.
Qed.

Lemma suggest_tags_returns (text : string) (s : KnowledgeManager.t num) :
  ∃ tags, suggest_tags text s = (Return tags, tick s).
Proof.
  unfold suggest_tags, try_except, mbind, M_bind, call_chat.
  destruct (chat_completions_create _ _); by eexists.
Qed.

(** X23. The tag suggestion always answers, whatever the provider does: it
    writes nothing and makes one provider call. *)
Theorem suggest_tags_always_answers (text : string) (w : Api.world num) :
  loadable w → suggests_tags text w.
Proof.
  intros Hw. destruct (suggest_tags_returns text (manager_of w)) as [tags Hrun].
  exists tags. unfold Api.request. rewrite (get_knowledge_manager_run w Hw).
  unfold Api.suggest_tags. by rewrite Hrun.
Qed.

(** X24. One stored item without an id is enough to make every request to
    a knowledge endpoint fail before its handler runs, the reads included:
    building the manager raises [KeyError], and the file stays as it is. *)
Theorem item_without_id_fails_every_request (w : Api.world num)
    (before after : list (dict num)) (item : dict num) :
  Api.stored w = before ++ item :: after →
  Forall (λ item, is_Some (id_of item)) before →
  item !! "id" = None →
  unreachable (KeyError "id") w.
Proof.
  intros Hkb Hbefore Hitem A h.
  unfold Api.request, Api.get_knowledge_manager, init. simpl.
  by rewrite Hkb, (item_ids_raises before after item).
Qed.

End Handlers.

Lemma world_small_loadable : @ApiSpec.loadable Z world_small.
Proof.
  apply Forall_cons_2; [by exists 1|].
  apply Forall_cons_2; [by exists 2|].
  apply Forall_cons_2; [by exists 3|].
  apply Forall_nil_2.
Defined.

Lemma absent_id_gets_404_example :
  @ApiSpec.not_found Z Z_number (provider_up "{}") 7 world_small.
Proof.
  apply absent_id_gets_404.
  apply small_kb_other_ids. lia.
Defined.

Lemma get_knowledge_item_serves_first_example :
  Api.request (@Api.get_knowledge_item Z Z_number 2) world_small
  = (Api.OK (KnowledgeManager.without_embedding (article 2 "b" (of_vector [3; 4]))),
     world_small).
Proof.
  apply (get_knowledge_item_serves_first 2 world_small
           [article 1 "a" (of_vector [3; 4])] [article 3 "c" (of_vector [3; 4])]).
  - reflexivity.
  - apply Forall_cons_2; [|apply Forall_nil_2]. exists 1. split; [reflexivity|lia].
  - reflexivity.
  - apply world_small_loadable.
Defined.

Lemma create_knowledge_item_then_get_example :
  @ApiSpec.creates_and_serves Z Z_number (provider_up "{}") invoice_note world_small.
Proof.
  apply create_knowledge_item_then_get.
  apply world_small_loadable.
Defined.

Lemma delete_knowledge_item_then_404_example :
  @ApiSpec.deletes_and_forgets Z Z_number (provider_up "{}") 2 world_small
    [article 1 "a" (of_vector [3; 4])] [article 3 "c" (of_vector [3; 4])].
Proof.
  apply (delete_knowledge_item_then_404 2 world_small _ _ (article 2 "b" (of_vector [3; 4]))).
  - reflexivity.
  - apply Forall_cons_2; [|apply Forall_nil_2]. exists 1. split; [reflexivity|lia].
  - reflexivity.
  - apply world_small_loadable.
Defined.

Lemma create_knowledge_item_reuses_deleted_id_example :
  @ApiSpec.reuses_deleted_id Z Z_number (provider_up "{}") invoice_note leave_note
    world_small.
Proof.
  apply create_knowledge_item_reuses_deleted_id.
  apply world_small_loadable.
Defined.

Lemma update_knowledge_item_replaces_first_example :
  @ApiSpec.replaces_first Z Z_number (provider_up "{}") 2 invoice_note world_small
    [article 1 "a" (of_vector [3; 4])] [article 3 "c" (of_vector [3; 4])]
    (article 2 "b" (of_vector [3; 4])).
Proof.
  apply update_knowledge_item_replaces_first.
  - reflexivity.
  - apply Forall_cons_2; [|apply Forall_nil_2]. exists 1. split; [reflexivity|lia].
  - reflexivity.
  - apply world_small_loadable.
Defined.

Lemma suggest_tags_always_answers_example :
  @ApiSpec.suggests_tags Z provider_down "How to post an invoice" world_small.
Proof.
  apply suggest_tags_always_answers.
  apply world_small_loadable.
Defined.

Lemma item_without_id_fails_every_request_example :
  @ApiSpec.unreachable Z (KeyError "id") world_broken.
Proof.
  apply (item_without_id_fails_every_request world_broken
           [article 1 "a" (of_vector [3; 4])] [] {[ "title" := VStr "b" ]}).
  - reflexivity.
  - apply Forall_cons_2; [by exists 1|apply Forall_nil_2].
  - reflexivity.
Defined.

(** The ids that three requests hand out on the small knowledge base: a
    POST gets 4, and after a DELETE of 4 the next POST gets 4 again. *)
Example create_delete_create_ids :
  ApiSpec.next_free_id world_small = 4
  ∧ ApiSpec.next_free_id
      {| Api.stored := small_kb ++ [@ApiSpec.embedded_at Z Z_number (provider_up "{}") 0 4 invoice_note];
         Api.calls := 1 |} = 5.
Proof. split; reflexivity. Qed.

(** * Floats: what infinities and NaN do *)

Section Floats.
Import PrimFloat FloatStore.


(** The law of arithmetic that the symmetry of [cosine_similarity] rests
    on holds for floats, infinities and NaN included. *)
Lemma SFmul_comm (x y : SpecFloat.spec_float) :
  SpecFloat.SFmul FloatOps.prec FloatOps.emax x y
  = SpecFloat.SFmul FloatOps.prec FloatOps.emax y x.
Proof.
  destruct x as [sx|sx| |sx mx ex], y as [sy|sy| |sy my ey]; simpl; try reflexivity.
  all: try (rewrite (xorb_comm sx sy); reflexivity).
  rewrite (xorb_comm sx sy), (Pos.mul_comm mx my), (Z.add_comm ex ey). reflexivity.
Qed.

Lemma float_mul_comm (x y : float) : nmul x y = nmul y x.
Proof.
  simpl. f_equal.
  rewrite <- (FloatAxioms.SF2Prim_Prim2SF (mul x y)),
          <- (FloatAxioms.SF2Prim_Prim2SF (mul y x)), !FloatAxioms.mul_spec.
  f_equal. apply SFmul_comm.
Qed.

(** A square out of range raises. *)
Example cosine_similarity_overflows :
  @AISentinel.cosine_similarity _ float_number [1]%float [1e200]%float
  = Raise OverflowError.
Proof. reflexivity. Qed.

(** C6 as stated fails when a score is NaN. For the query vector
    [[3.0, 4.0]] the seven items score
    [0.96, 0.96, NaN, 0.96, 0.96, 0.96, 1.0]; comparisons with NaN are all
    false, and the sort leaves the items in the order 2, 3, 7, 1, 4, 5, 6.
    Items 1 and 2 have the same score and item 1 stands before item 2 in
    the collection, yet item 2 comes first in the result, and in a search
    for three items item 2 is returned and item 1 is not. *)
Lemma search_knowledge_base_unstable_with_nan :
  ids_of (returned (@AISentinel.search_knowledge_base _ float_number
                      (provider_embedding [3; 4]%float) "q" 7
                      (AISentinel.init (Some nan_kb))))
  = (λ id, Some (VInt id)) <$> [2; 3; 7; 1; 4; 5; 6]
  ∧ ids_of (returned (@AISentinel.search_knowledge_base _ float_number
                        (provider_embedding [3; 4]%float) "q" 3
                        (AISentinel.init (Some nan_kb))))
    = (λ id, Some (VInt id)) <$> [2; 3; 7]
  ∧ @SearchSpec.item_score _ float_number [3; 4]%float (embedded_article 1 [4; 3]%float)
    = Return 0.96%float
  ∧ @SearchSpec.item_score _ float_number [3; 4]%float (embedded_article 2 [4; 3]%float)
    = Return 0.96%float
  ∧ @SearchSpec.item_score _ float_number [3; 4]%float (embedded_article 3 [nan])
    = Return nan.
Proof. repeat split; reflexivity. Qed.

(** Nor is that result in descending order of similarity: item 2, with
    score 0.96, stands before item 7, with score 1.0. *)
Example search_knowledge_base_nan_not_descending :
  @SearchSpec.item_score _ float_number [3; 4]%float (embedded_article 7 [3; 4]%float)
  = Return 1%float
  ∧ nltb 0.96%float 1%float = true
  ∧ ¬ strict_weak_order (nltb : float → float → bool) [0.96; nan; 1]%float.
Proof.
  split; [reflexivity|]. split; [reflexivity|].
  intros [_ Htrans].
  specialize (Htrans 0.96%float nan 1%float).
  assert (nltb 0.96%float 1%float = false) as Hlt; [|discriminate Hlt].
  apply Htrans; try reflexivity; rewrite !elem_of_cons; auto.
Qed.

(** Without the NaN the same store is ranked stably. *)
Example search_knowledge_base_without_nan :
  ids_of (returned (@AISentinel.search_knowledge_base _ float_number
                      (provider_embedding [3; 4]%float) "q" 3
                      (AISentinel.init (Some (delete 2%nat nan_kb)))))
  = [Some (VInt 7); Some (VInt 1); Some (VInt 2)].
Proof. reflexivity. Qed.

(** An embedding with a square out of range makes the search raise, and
    [process_query] with it: retrieval runs before the [try] block. *)
Example process_query_overflows_before_try :
  (@AISentinel.search_knowledge_base _ float_number (provider_embedding [1]%float)
     "q" 3 (AISentinel.init (Some huge_kb))).1
  = Raise OverflowError
  ∧ (@AISentinel.process_query _ float_number (provider_embedding [1]%float) lib_float
       "q" None (AISentinel.init (Some huge_kb))).1
    = Raise OverflowError.
Proof. split; reflexivity. Qed.

End Floats.
